(** * Document verification pipeline of the idv repository

    A shallow embedding of [src/extractor.py], [src/patterns.py],
    [src/face_processor.py] and the endpoints of [src/app.py], followed by
    the properties that the specification states about them and by further
    properties of the code.

    Python strings are sequences of Unicode code points and are modelled as
    [list N].  Python floats that the code only copies, compares or combines
    by a few exact operations are modelled as rationals ([Q]).  Dictionaries
    are stdpp finite maps.  Calls into external engines (tesseract,
    insightface, face_recognition, OpenCV) are parameters of the model.
    An object that reaches a JSON encoder is modelled by the classes of
    its parts, Python or numpy, on which the encoder's TypeError depends. *)

From Stdlib Require Import ZArith NArith QArith Qminmax Qround List String Ascii
  Bool Lia Lqa DecimalString Sorting.Sorted Sorting.Permutation.
From stdpp Require Import gmap strings.
Import ListNotations.

(* ===================================================================== *)
(** * Python strings                                                      *)
(* ===================================================================== *)

Module PyStr.

(** A [str] is a sequence of code points. *)
Abbreviation pystr := (list N).

(** The code points of an ASCII literal. *)
Definition u (s : string) : pystr :=
  map N_of_ascii (list_ascii_of_string s).

Definition pystr_eqb (a b : pystr) : bool :=
  bool_decide (a = b).

Definition in_range (lo hi c : N) : bool := ((lo <=? c) && (c <=? hi))%N.

Definition is_ascii (c : N) : bool := (c <? 128)%N.

Definition ascii_lower (c : N) : N :=
  if in_range 65 90 c then (c + 32)%N else c.

Definition ascii_upper (c : N) : N :=
  if in_range 97 122 c then (c - 32)%N else c.

Definition ascii_isdigit (c : N) : bool := in_range 48 57 c.

Definition ascii_isalnum (c : N) : bool :=
  in_range 48 57 c || in_range 65 90 c || in_range 97 122 c.

(** [str.isspace] of one code point (CPython's [_PyUnicode_IsWhitespace]):
    the characters of bidirectional type WS, B or S, or of category Zs. *)
Definition py_isspace (c : N) : bool :=
  in_range 9 13 c || in_range 28 32 c || (c =? 133)%N || (c =? 160)%N
  || (c =? 5760)%N || in_range 8192 8202 c || (c =? 8232)%N || (c =? 8233)%N
  || (c =? 8239)%N || (c =? 8287)%N || (c =? 12288)%N.

(** The part of the Unicode character database that the code reaches
    through [re] and [str] and that is too large to write down: case
    mappings, decimal digits and alphanumerics beyond ASCII.  Every function
    below consults it for code points from 128 on only; on ASCII the
    tables are written out.  The one law is a fact of the database: the
    uppercase of a non-ASCII character is a non-empty string without a
    line feed. *)
Class UnicodeData := {
  ucd_tolower : N -> N;          (* simple lowercase mapping *)
  ucd_toupper : N -> N;          (* simple uppercase mapping *)
  ucd_upper : N -> pystr;        (* full uppercase mapping, [str.upper] *)
  ucd_decimal : N -> option N;   (* value of a decimal digit (category Nd) *)
  ucd_isalnum : N -> bool;       (* [str.isalnum] *)
  ucd_upper_ok : forall c, (128 <= c)%N ->
    ucd_upper c <> [] /\ ~ In 10%N (ucd_upper c)
}.

(** A database for plain texts: beyond ASCII every character is a caseless
    symbol.  It is exact on every text of ASCII characters, where the
    database is not consulted. *)
#[export] Program Instance plain_ucd : UnicodeData := {|
  ucd_tolower c := c;
  ucd_toupper c := c;
  ucd_upper c := [c];
  ucd_decimal _ := None;
  ucd_isalnum _ := false
|}.
Next Obligation.
  intros c Hc. split; [discriminate|].
  intros [H|[]]. subst c. lia.
Qed.

Section WithUnicode.
Context `{UnicodeData}.

Definition py_tolower (c : N) : N :=
  if is_ascii c then ascii_lower c else ucd_tolower c.

Definition py_toupper (c : N) : N :=
  if is_ascii c then ascii_upper c else ucd_toupper c.

(** The value of a decimal digit, [Py_UNICODE_TODECIMAL]. *)
Definition py_decimal (c : N) : option N :=
  if is_ascii c then (if ascii_isdigit c then Some (c - 48)%N else None)
  else ucd_decimal c.

Definition py_isdecimal (c : N) : bool :=
  match py_decimal c with Some _ => true | None => false end.

Definition py_isalnum (c : N) : bool :=
  if is_ascii c then ascii_isalnum c else ucd_isalnum c.

(** [s.upper()] *)
Definition upper_char (c : N) : pystr :=
  if is_ascii c then [ascii_upper c] else ucd_upper c.

Definition str_upper (s : pystr) : pystr := flat_map upper_char s.

(** [s.replace(old, new)] for a one-character [old]. *)
Definition str_replace (old : N) (new : pystr) (s : pystr) : pystr :=
  flat_map (fun c => if (c =? old)%N then new else [c]) s.

(** [s.strip()] *)
Fixpoint str_lstrip (s : pystr) : pystr :=
  match s with
  | c :: t => if py_isspace c then str_lstrip t else s
  | [] => []
  end.

Definition str_strip (s : pystr) : pystr :=
  rev (str_lstrip (rev (str_lstrip s))).

(** [s.split(sep)] for a one-character [sep]: never an empty list. *)
Fixpoint str_split (sep : N) (s : pystr) : list pystr :=
  match s with
  | [] => [[]]
  | c :: t =>
      if (c =? sep)%N then [] :: str_split sep t
      else match str_split sep t with
           | p :: ps => (c :: p) :: ps
           | [] => [[c]]
           end
  end.

(** [sep.join(parts)] *)
Fixpoint str_join (sep : pystr) (parts : list pystr) : pystr :=
  match parts with
  | [] => []
  | [p] => p
  | p :: ps => p ++ sep ++ str_join sep ps
  end.

Fixpoint str_startswith (p s : pystr) : bool :=
  match p, s with
  | [], _ => true
  | a :: p', b :: s' => (a =? b)%N && str_startswith p' s'
  | _ :: _, [] => false
  end.

(** [needle in hay] *)
Fixpoint str_contains (needle hay : pystr) : bool :=
  str_startswith needle hay ||
  match hay with
  | [] => false
  | _ :: t => str_contains needle t
  end.

(** ** [int(s)]

    [int] maps every non-ASCII space to a blank and every non-ASCII decimal
    digit to its ASCII digit, and stops at the first other non-ASCII
    character; the resulting text is read as optional blanks, an optional
    sign, digits with single underscores between them, optional blanks.
    [None] stands for [ValueError]. *)
Fixpoint int_transform (s : pystr) : pystr :=
  match s with
  | [] => []
  | c :: t =>
      if (c <? 127)%N then c :: int_transform t
      else if py_isspace c then 32%N :: int_transform t
      else match py_decimal c with
           | Some d => (48 + d)%N :: int_transform t
           | None => [63%N]
           end
  end.

Definition c_isspace (c : N) : bool := in_range 9 13 c || (c =? 32)%N.

Fixpoint skip_blanks (s : pystr) : pystr :=
  match s with
  | c :: t => if c_isspace c then skip_blanks t else s
  | [] => []
  end.

(** Digits with single underscores between them; [after_digit] tells
    whether the previous character was a digit. *)
Fixpoint int_digits (acc : Z) (after_digit : bool) (s : pystr) : option Z :=
  match s with
  | [] => if after_digit then Some acc else None
  | c :: t =>
      if ascii_isdigit c then int_digits (10 * acc + Z.of_N (c - 48)) true t
      else if (c =? 95)%N then
        (if after_digit then
           match t with
           | d :: _ => if ascii_isdigit d then int_digits acc false t else None
           | [] => None
           end
         else None)
      else if c_isspace c then
        (if after_digit then
           match skip_blanks t with [] => Some acc | _ => None end
         else None)
      else None
  end.

Definition py_int (s : pystr) : option Z :=
  match skip_blanks (int_transform s) with
  | c :: t =>
      if (c =? 43)%N then int_digits 0 false t
      else if (c =? 45)%N then option_map Z.opp (int_digits 0 false t)
      else int_digits 0 false (c :: t)
  | [] => None
  end.

(** ** Formatting integers *)

(** [str(n)] of a natural number. *)
Definition str_of_N (n : N) : pystr := u (NilZero.string_of_uint (N.to_uint n)).

Definition zero_pad (width : nat) (s : pystr) : pystr :=
  repeat 48%N (width - length s) ++ s.

(** [f"{n}"] and [f"{n:02d}"]: the sign counts in the width. *)
Definition fmt_d (n : Z) : pystr :=
  if (n <? 0)%Z then 45%N :: str_of_N (Z.to_N (- n)) else str_of_N (Z.to_N n).

Definition fmt_02d (n : Z) : pystr :=
  if (n <? 0)%Z then 45%N :: zero_pad 1 (str_of_N (Z.to_N (- n)))
  else zero_pad 2 (str_of_N (Z.to_N n)).

End WithUnicode.

End PyStr.

(* ===================================================================== *)
(** * Regular expressions: the fragment of [re] that patterns.py uses     *)
(* ===================================================================== *)

Module Regex.
Import PyStr.

(** An item of a character set [[...]]. *)
Inductive citem :=
| CChr (c : N)            (* one character *)
| CRange (lo hi : N)      (* lo-hi *)
| CSpace                  (* \s *)
| CDigit.                 (* \d *)

(** Patterns.  No pattern of the repository has more than one capturing
    group, so a match carries group 0 and at most group 1.  All
    quantifiers of the repository are greedy. *)
Inductive regex :=
| Lit (c : N)                               (* a literal character *)
| Cls (items : list citem)                  (* [...], \s, \d *)
| WordB                                     (* \b *)
| Bol                                       (* ^ *)
| Eol                                       (* $ *)
| Seq (a b : regex)                         (* ab *)
| Alt (a b : regex)                         (* a|b *)
| Rep (lo : nat) (hi : option nat) (a : regex)   (* a{lo,hi}, a*, a+, a? *)
| Grp (a : regex).                          (* (a) *)

(** The position of the matcher in the subject: the text before it
    (nearest character first), the text after it, and group 1. *)
Record mstate := MState {
  m_before : pystr;
  m_after : pystr;
  m_group : option pystr
}.

Definition advance (s : mstate) (x : N) (t : pystr) : mstate :=
  MState (x :: m_before s) t (m_group s).

(** The text consumed between two positions of one run. *)
Definition captured (s s' : mstate) : pystr :=
  rev (firstn (length (m_before s') - length (m_before s)) (m_before s')).

Definition set_group (s : mstate) (g : pystr) : mstate :=
  MState (m_before s) (m_after s) (Some g).

Definition N_range (lo hi : N) : list N :=
  map N.of_nat (seq (N.to_nat lo) (S (N.to_nat hi) - N.to_nat lo)).

Fixpoint has_group (r : regex) : bool :=
  match r with
  | Grp _ => true
  | Seq a b | Alt a b => has_group a || has_group b
  | Rep _ _ a => has_group a
  | _ => false
  end.

(** A bounded greedy loop: [body] up to [n] more times, as often as the
    rest of the pattern allows. *)
Section Loops.
Context (body : mstate -> (mstate -> option mstate) -> option mstate).

Fixpoint rep_exact (n : nat) (s : mstate) (k : mstate -> option mstate)
  : option mstate :=
  match n with
  | O => k s
  | S n' => body s (fun s' => rep_exact n' s' k)
  end.

Fixpoint rep_upto (n : nat) (s : mstate) (k : mstate -> option mstate)
  : option mstate :=
  match n with
  | O => k s
  | S n' =>
      match body s (fun s' => rep_upto n' s' k) with
      | Some e => Some e
      | None => k s
      end
  end.
End Loops.

(** Does every match of [r] end with a character of a set that [ok]
    accepts?  A check on the syntax of the pattern. *)
Fixpoint ends_in (ok : list citem -> bool) (r : regex) : bool :=
  match r with
  | Cls items => ok items
  | Seq a b => ends_in ok b
  | Alt a b => ends_in ok a && ends_in ok b
  | Rep lo _ a => (1 <=? lo)%nat && ends_in ok a
  | Grp a => ends_in ok a
  | _ => false
  end.

(** The same for group 1 of a pattern that ends with its group. *)
Fixpoint group_ends_in (ok : list citem -> bool) (r : regex) : bool :=
  match r with
  | Grp a => ends_in ok a
  | Seq a b => group_ends_in ok b
  | _ => false
  end.

Section Matcher.
Context `{UnicodeData}.
(** [re.IGNORECASE] *)
Variable ic : bool.

(** [_sre.unicode_iscased] *)
Definition iscased (c : N) : bool :=
  negb (c =? py_tolower c)%N || negb (c =? py_toupper c)%N.

(** The extra case equivalences of sre_compile, by lowercase character.
    Of the characters that occur in the patterns only [i] and [s] have
    any: dotless i and long s. *)
Definition fixes (lo : N) : list N :=
  if (lo =? 105)%N then [305%N]
  else if (lo =? 115)%N then [383%N]
  else [].

(** Does a subject character whose lowercase is [lx] match the pattern
    character [c] when case is ignored? *)
Definition ci_hit (lx c : N) : bool :=
  let lo := py_tolower c in
  (lx =? lo)%N || existsb (N.eqb lx) (fixes lo).

Definition lit_match (c x : N) : bool :=
  if ic && iscased c then ci_hit (py_tolower x) c else (x =? c)%N.

Definition item_exact (x : N) (it : citem) : bool :=
  match it with
  | CChr c => (x =? c)%N
  | CRange lo hi => in_range lo hi x
  | CSpace => py_isspace x
  | CDigit => py_isdecimal x
  end.

Definition item_cased (it : citem) : bool :=
  match it with
  | CChr c => iscased c
  | CRange lo hi => existsb iscased (N_range lo hi)
  | _ => false
  end.

Definition item_ci (lx : N) (it : citem) : bool :=
  match it with
  | CChr c => ci_hit lx c
  | CRange lo hi => existsb (ci_hit lx) (N_range lo hi)
  | _ => item_exact lx it
  end.

(** A set that ignores case holds the lowercase of its members and their
    extra equivalents, and is asked for the lowercase of the subject
    character. *)
Definition cls_match (items : list citem) (x : N) : bool :=
  if ic && existsb item_cased items
  then existsb (item_ci (py_tolower x)) items
  else existsb (item_exact x) items.

(** \w is an alphanumeric or the underscore. *)
Definition is_word (c : N) : bool := py_isalnum c || (c =? 95)%N.

Definition word_at (s : pystr) : bool :=
  match s with c :: _ => is_word c | [] => false end.

Definition at_boundary (s : mstate) : bool :=
  xorb (word_at (m_before s)) (word_at (m_after s)).

(** [$] without MULTILINE: at the end, or before a final line feed. *)
Definition at_end (s : mstate) : bool :=
  match m_after s with
  | [] => true
  | [c] => (c =? 10)%N
  | _ => false
  end.

Definition at_begin (s : mstate) : bool :=
  match m_before s with [] => true | _ => false end.

(** How often a loop may run beyond its minimum. An unbounded loop runs
    at most once per remaining character: every repeated sub-pattern of
    patterns.py consumes a character. *)
Definition extra_runs (lo : nat) (hi : option nat) (s : mstate) : nat :=
  match hi with
  | Some h => h - lo
  | None => length (m_after s)
  end.

(** The backtracking matcher, in continuation-passing style: [k] is the
    rest of the pattern; the first way to succeed wins. *)
Fixpoint rmatch (r : regex) (s : mstate) (k : mstate -> option mstate)
  {struct r} : option mstate :=
  match r with
  | Lit c =>
      match m_after s with
      | x :: t => if lit_match c x then k (advance s x t) else None
      | [] => None
      end
  | Cls items =>
      match m_after s with
      | x :: t => if cls_match items x then k (advance s x t) else None
      | [] => None
      end
  | WordB => if at_boundary s then k s else None
  | Bol => if at_begin s then k s else None
  | Eol => if at_end s then k s else None
  | Seq a b => rmatch a s (fun s1 => rmatch b s1 k)
  | Alt a b =>
      match rmatch a s k with
      | Some e => Some e
      | None => rmatch b s k
      end
  | Rep lo hi a =>
      rep_exact (rmatch a) lo s
        (fun s1 => rep_upto (rmatch a) (extra_runs lo hi s1) s1 k)
  | Grp a => rmatch a s (fun s1 => k (set_group s1 (captured s s1)))
  end.

(** One match object: group 0 and group 1. *)
Record found := Found {
  f_text : pystr;
  f_group : option pystr
}.

(** Try the pattern at one position. *)
Definition match_here (r : regex) (before after : pystr) : option mstate :=
  rmatch r (MState before after None) Some.

Definition found_of (before : pystr) (e : mstate) : found :=
  Found (captured (MState before [] None) e) (m_group e).

Definition match_len (before : pystr) (e : mstate) : nat :=
  length (m_before e) - length before.

(** [re.finditer]: the matches from left to right, none overlapping.
    [skip] counts the characters still inside the previous match.  After
    an empty match the scan moves on by one character; no pattern of the
    repository matches the empty string. *)
Fixpoint scan (r : regex) (skip : nat) (before after : pystr) {struct after}
  : list found :=
  match skip with
  | S n =>
      match after with
      | [] => []
      | c :: t => scan r n (c :: before) t
      end
  | O =>
      match match_here r before after with
      | Some e =>
          found_of before e ::
          match after with
          | [] => []
          | c :: t => scan r (pred (match_len before e)) (c :: before) t
          end
      | None =>
          match after with
          | [] => []
          | c :: t => scan r 0 (c :: before) t
          end
      end
  end.

Definition re_finditer (r : regex) (text : pystr) : list found :=
  scan r 0 [] text.

(** [re.search]: the first match. *)
Definition re_search (r : regex) (text : pystr) : option found :=
  head (re_finditer r text).

(** [re.match]: a match at the start of the text. *)
Definition re_match (r : regex) (text : pystr) : option found :=
  option_map (found_of []) (match_here r [] text).

(** [re.findall]: group 1 of every match if the pattern has a group
    (the empty string if the group took no part), else group 0. *)
Definition re_findall (r : regex) (text : pystr) : list pystr :=
  map (fun f => if has_group r
                then match f_group f with Some g => g | None => [] end
                else f_text f)
      (re_finditer r text).

(** [re.sub(r, repl, text)] for a replacement without group references. *)
Fixpoint sub_scan (r : regex) (repl : pystr) (skip : nat)
  (before after : pystr) {struct after} : pystr :=
  match skip with
  | S n =>
      match after with
      | [] => []
      | c :: t => sub_scan r repl n (c :: before) t
      end
  | O =>
      match match_here r before after with
      | Some e =>
          repl ++
          match after with
          | [] => []
          | c :: t =>
              match match_len before e with
              | O => c :: sub_scan r repl 0 (c :: before) t
              | S n => sub_scan r repl n (c :: before) t
              end
          end
      | None =>
          match after with
          | [] => []
          | c :: t => c :: sub_scan r repl 0 (c :: before) t
          end
      end
  end.

Definition re_sub (r : regex) (repl text : pystr) : pystr :=
  sub_scan r repl 0 [] text.

(** ** What a match is

    The matcher searches; the relation [Sem r s s'] says what it may find:
    [r] matches the text between the positions [s] and [s']. *)

Fixpoint iter (n : nat) (R : mstate -> mstate -> Prop) (s s' : mstate) : Prop :=
  match n with
  | O => s' = s
  | S n' => exists s1, R s s1 /\ iter n' R s1 s'
  end.

Fixpoint Sem (r : regex) (s s' : mstate) : Prop :=
  match r with
  | Lit c =>
      exists x t, m_after s = x :: t /\ lit_match c x = true /\ s' = advance s x t
  | Cls items =>
      exists x t, m_after s = x :: t /\ cls_match items x = true
                  /\ s' = advance s x t
  | WordB => at_boundary s = true /\ s' = s
  | Bol => at_begin s = true /\ s' = s
  | Eol => at_end s = true /\ s' = s
  | Seq a b => exists s1, Sem a s s1 /\ Sem b s1 s'
  | Alt a b => Sem a s s' \/ Sem b s s'
  | Rep lo hi a =>
      exists n, (lo <= n)%nat
                /\ match hi with Some h => (n <= lo + (h - lo))%nat | None => True end
                /\ iter n (Sem a) s s'
  | Grp a => exists s1, Sem a s s1 /\ s' = set_group s1 (captured s s1)
  end.

(** [s'] lies the text [w] further than [s]. *)
Definition span (s : mstate) (w : pystr) (s' : mstate) : Prop :=
  m_before s' = rev w ++ m_before s /\ m_after s = w ++ m_after s'.

(** Every match of [r] ends with a character that satisfies [P]. *)
Fixpoint ends_with (P : N -> Prop) (r : regex) : Prop :=
  match r with
  | Lit c => forall x, lit_match c x = true -> P x
  | Cls items => forall x, cls_match items x = true -> P x
  | Seq a b => ends_with P b
  | Alt a b => ends_with P a /\ ends_with P b
  | Rep lo hi a => (1 <= lo)%nat /\ ends_with P a
  | Grp a => ends_with P a
  | _ => False
  end.

(** The pattern ends with its group, and the group ends with a character
    that satisfies [P]. *)
Fixpoint group_ends (P : N -> Prop) (r : regex) : Prop :=
  match r with
  | Grp a => ends_with P a
  | Seq a b => group_ends P b
  | _ => False
  end.

(** Every match of [r] goes through a group. *)
Fixpoint sets_group (r : regex) : bool :=
  match r with
  | Grp _ => true
  | Seq a b => sets_group a || sets_group b
  | Alt a b => sets_group a && sets_group b
  | Rep lo _ a => (1 <=? lo)%nat && sets_group a
  | _ => false
  end.

End Matcher.

(** ** Writing patterns *)

Definition chr (s : string) : N :=
  match s with
  | String a _ => N_of_ascii a
  | EmptyString => 0%N
  end.

(** A run of literal characters. *)
Fixpoint lits (cs : pystr) : regex :=
  match cs with
  | [] => Rep 0 (Some 0) (Lit 0)
  | [c] => Lit c
  | c :: t => Seq (Lit c) (lits t)
  end.

Definition str (s : string) : regex := lits (u s).

Definition star (a : regex) : regex := Rep 0 None a.
Definition plus (a : regex) : regex := Rep 1 None a.
Definition opt (a : regex) : regex := Rep 0 (Some 1) a.
Definition rep (lo hi : nat) (a : regex) : regex := Rep lo (Some hi) a.
Definition at_least (lo : nat) (a : regex) : regex := Rep lo None a.

Definition ws : regex := Cls [CSpace].          (* \s *)
Definition digit : regex := Cls [CDigit].       (* \d *)
Definition rng (lo hi : string) : citem := CRange (chr lo) (chr hi).
Definition ch (c : string) : citem := CChr (chr c).

Fixpoint seqs (rs : list regex) : regex :=
  match rs with
  | [] => Rep 0 (Some 0) (Lit 0)
  | [r] => r
  | r :: t => Seq r (seqs t)
  end.

End Regex.

(* ===================================================================== *)
(** * Exceptions                                                          *)
(* ===================================================================== *)

(** A computation returns a value or raises an exception (an instance of
    [Exception]) that carries a message. *)
Inductive result (A : Type) : Type :=
| Ok (a : A)
| Raise (e : string).
Arguments Ok {A} a.
Arguments Raise {A} e.

#[export] Instance result_ret : MRet result := fun A a => Ok a.

#[export] Instance result_bind : MBind result := fun A B k m =>
  match m with
  | Ok a => k a
  | Raise e => Raise e
  end.

(** [try: body except Exception as e: handler(e)] *)
Definition try_except {A : Type} (body : result A) (handler : string -> result A)
  : result A :=
  match body with
  | Ok a => Ok a
  | Raise e => handler e
  end.

Definition raises {A : Type} (m : result A) : Prop :=
  match m with Ok _ => False | Raise _ => True end.

(* ===================================================================== *)
(** * patterns.py                                                         *)
(* ===================================================================== *)

Module PassportPatterns.
Import PyStr Regex.

Definition d09 : regex := Cls [rng "0" "9"].
Definition AZ : regex := Cls [rng "A" "Z"].
Definition AZ09 : regex := Cls [rng "A" "Z"; rng "0" "9"].
Definition sep_colon : list regex := [star ws; opt (Lit (chr ":")); star ws].

(** [No\.?\s*:?\s*] *)
Definition no_label : list regex :=
  [str "No"; opt (Lit (chr "."))] ++ sep_colon.

Definition passport_number : list regex := [
  (* P\s*[0-9]{8,9} *)
  seqs [Lit (chr "P"); star ws; rep 8 9 d09];
  (* P[0-9]{8,9} *)
  seqs [Lit (chr "P"); rep 8 9 d09];
  (* Passport\s*No\.?\s*:?\s*([A-Z0-9]{8,10}) *)
  seqs ([str "Passport"; star ws] ++ no_label ++ [Grp (rep 8 10 AZ09)]);
  (* No\.?\s*:?\s*([A-Z0-9]{8,10}) *)
  seqs (no_label ++ [Grp (rep 8 10 AZ09)]);
  (* ([A-Z]{1,2}\s*[0-9]{6,9}) *)
  Grp (seqs [rep 1 2 AZ; star ws; rep 6 9 d09]);
  (* P\s*O\s*[0-9]{7,9} *)
  seqs [Lit (chr "P"); star ws; Lit (chr "O"); star ws; rep 7 9 d09];
  (* [PD][0-9O]{8,9} *)
  seqs [Cls [ch "P"; ch "D"]; rep 8 9 (Cls [rng "0" "9"; ch "O"])];
  (* jwaz\s*rqm\s*:?\s*([A-Z0-9]{8,10}) in Arabic letters *)
  seqs ([lits [1580; 1608; 1575; 1586]%N; star ws; lits [1585; 1602; 1605]%N]
        ++ sep_colon ++ [Grp (rep 8 10 AZ09)])
].

(** [-\s] *)
Definition dash_ws : regex := Cls [ch "-"; CSpace].

(** \d{3}[-\s]?\d{4}[-\s]?\d{4,5} *)
Definition nid_core : regex :=
  seqs [rep 3 3 digit; opt dash_ws; rep 4 4 digit; opt dash_ws; rep 4 5 digit].

Definition national_id : list regex := [
  nid_core;
  (* \d{3}\s*[-\s]?\s*\d{4}\s*[-\s]?\s*\d{4,5} *)
  seqs [rep 3 3 digit; star ws; opt dash_ws; star ws; rep 4 4 digit;
        star ws; opt dash_ws; star ws; rep 4 5 digit];
  (* National\s*No\.?\s*:?\s*(\d{3}[-\s]?\d{4}[-\s]?\d{4,5}) *)
  seqs ([str "National"; star ws] ++ no_label ++ [Grp nid_core]);
  (* \d{11,12} *)
  rep 11 12 digit;
  (* \d{3}\d{4}\d{4,5} *)
  seqs [rep 3 3 digit; rep 4 4 digit; rep 4 5 digit];
  (* [0-9]{3}[\s\-\.][0-9]{4}[\s\-\.][0-9]{4,5} *)
  seqs [rep 3 3 d09; Cls [CSpace; ch "-"; ch "."]; rep 4 4 d09;
        Cls [CSpace; ch "-"; ch "."]; rep 4 5 d09];
  (* alrqm\s*alwtny\s*:?\s*(\d{3}[-\s]?\d{4}[-\s]?\d{4,5}) in Arabic letters *)
  seqs ([lits [1575; 1604; 1585; 1602; 1605]%N; star ws;
         lits [1575; 1604; 1608; 1591; 1606; 1610]%N]
        ++ sep_colon ++ [Grp nid_core])
].

(** [-/] and [\s\-/\.] *)
Definition dash_slash : regex := Cls [ch "-"; ch "/"].
Definition any_sep : regex := Cls [CSpace; ch "-"; ch "/"; ch "."].

Definition date : list regex := [
  (* \d{2}[-/]\d{2}[-/]\d{4} *)
  seqs [rep 2 2 digit; dash_slash; rep 2 2 digit; dash_slash; rep 4 4 digit];
  (* \d{2}\s*[-/]\s*\d{2}\s*[-/]\s*\d{4} *)
  seqs [rep 2 2 digit; star ws; dash_slash; star ws; rep 2 2 digit;
        star ws; dash_slash; star ws; rep 4 4 digit];
  (* \d{1,2}[-/]\d{1,2}[-/]\d{4} *)
  seqs [rep 1 2 digit; dash_slash; rep 1 2 digit; dash_slash; rep 4 4 digit];
  (* \d{2}\.\d{2}\.\d{4} *)
  seqs [rep 2 2 digit; Lit (chr "."); rep 2 2 digit; Lit (chr ".");
        rep 4 4 digit];
  (* \d{2}\s+\d{2}\s+\d{4} *)
  seqs [rep 2 2 digit; plus ws; rep 2 2 digit; plus ws; rep 4 4 digit];
  (* [0-3][0-9][\s\-/\.][0-1][0-9][\s\-/\.][1-2][0-9]{3} *)
  seqs [Cls [rng "0" "3"]; d09; any_sep; Cls [rng "0" "1"]; d09; any_sep;
        Cls [rng "1" "2"]; rep 3 3 d09];
  (* \d{4}[-/]\d{2}[-/]\d{2} *)
  seqs [rep 4 4 digit; dash_slash; rep 2 2 digit; dash_slash; rep 2 2 digit]
].

(** ([A-Z\s]+) *)
Definition name_group : regex := Grp (plus (Cls [rng "A" "Z"; CSpace])).

Definition name : list regex := [
  (* [A-Z]{3,}\s+[A-Z]{3,}(?:\s+[A-Z]{3,})* *)
  seqs [at_least 3 AZ; plus ws; at_least 3 AZ;
        star (Seq (plus ws) (at_least 3 AZ))];
  (* [A-Z][A-Z\s\-\']{10,50} *)
  seqs [AZ; rep 10 50 (Cls [rng "A" "Z"; CSpace; ch "-"; ch "'"])];
  (* (?:Name|NAME)\s*:?\s*([A-Z\s]+) *)
  seqs ([Alt (str "Name") (str "NAME")] ++ sep_colon ++ [name_group]);
  (* Full\s*Name\s*:?\s*([A-Z\s]+) *)
  seqs ([str "Full"; star ws; str "Name"] ++ sep_colon ++ [name_group]);
  (* ([A-Z]{2,}\s+){2,6}[A-Z]{2,} *)
  seqs [rep 2 6 (Grp (Seq (at_least 2 AZ) (plus ws))); at_least 2 AZ];
  (* [A-Z]+(?:\s+[A-Z]+){1,5} *)
  seqs [plus AZ; rep 1 5 (Seq (plus ws) (plus AZ))];
  (* alasm\s*:?\s*([A-Z\s]+) in Arabic letters *)
  seqs ([lits [1575; 1604; 1575; 1587; 1605]%N] ++ sep_colon ++ [name_group]);
  (* alasm\s*alkaml\s*:?\s*([A-Z\s]+) in Arabic letters *)
  seqs ([lits [1575; 1604; 1575; 1587; 1605]%N; star ws;
         lits [1575; 1604; 1603; 1575; 1605; 1604]%N]
        ++ sep_colon ++ [name_group])
].

Definition MF : regex := Cls [ch "M"; ch "F"].
(** the Arabic words for male and female *)
Definition male_female_ar : regex :=
  Alt (lits [1584; 1603; 1585]%N) (lits [1571; 1606; 1579; 1609]%N).

Definition sex : list regex := [
  (* \b[F/]\b *)
  seqs [WordB; Cls [ch "F"; ch "/"]; WordB];
  (* \b[M/]\b *)
  seqs [WordB; Cls [ch "M"; ch "/"]; WordB];
  (* (?:Sex|Gender)\s*:?\s*([MF]) *)
  seqs ([Alt (str "Sex") (str "Gender")] ++ sep_colon ++ [Grp MF]);
  (* (?:Sex|Gender)\s*:?\s*([MF])/ *)
  seqs ([Alt (str "Sex") (str "Gender")] ++ sep_colon
        ++ [Grp MF; Lit (chr "/")]);
  (* [MF]\s*/ *)
  seqs [MF; star ws; Lit (chr "/")];
  (* [MF]/ *)
  seqs [MF; Lit (chr "/")];
  (* aljns\s*:?\s*([MF]) in Arabic letters *)
  seqs ([lits [1575; 1604; 1580; 1606; 1587]%N] ++ sep_colon ++ [Grp MF]);
  (* the Arabic word for male | the Arabic word for female *)
  male_female_ar;
  (* (?:Male|Female)\s*:?\s*([MF]) *)
  seqs ([Alt (str "Male") (str "Female")] ++ sep_colon ++ [Grp MF]);
  (* (?:MALE|FEMALE)\s*:?\s*([MF]) *)
  seqs ([Alt (str "MALE") (str "FEMALE")] ++ sep_colon ++ [Grp MF]);
  (* (?:M|F)\s*:?\s*([MF]) *)
  seqs ([Alt (str "M") (str "F")] ++ sep_colon ++ [Grp MF]);
  (* (?:MALE|FEMALE) *)
  Alt (str "MALE") (str "FEMALE");
  (* (?:male|female in Arabic)\s*:?\s*([MF]) *)
  seqs ([male_female_ar] ++ sep_colon ++ [Grp MF]);
  (* (?:male|female in Arabic)\s*:?\s*([MF])/ *)
  seqs ([male_female_ar] ++ sep_colon ++ [Grp MF; Lit (chr "/")])
].

Definition sudan_places : list pystr := [
    u "KHARTOUM"; u "OMDURMAN"; u "BAHRI"; u "KASSALA"; u "PORTSUDAN";
    u "NYALA"; u "ELOBEID"; u "GEDAREF"; u "WAD MADANI"; u "KOSTI";
    u "ALFASHER"; u "DAMAZIN"; u "KADUGLI"; u "DONGOLA"; u "ATBARA";
    u "SENNAR"; u "RABAK"; u "GENEINA"; u "DILLING"; u "ALAYYAT";
    u "UMM RUWABA"; u "ZALINGEI"; u "ALQADARIF"; u "AD DOUIEM";
    [1575; 1604; 1582; 1585; 1591; 1608; 1605]%N;
    [1571; 1605; 32; 1583; 1585; 1605; 1575; 1606]%N;
    [1576; 1581; 1585; 1610]%N;
    [1603; 1587; 1604; 1575]%N;
    [1576; 1608; 1585; 1578; 1587; 1608; 1583; 1575; 1606]%N;
    [1606; 1610; 1575; 1604; 1575]%N;
    [1575; 1604; 1571; 1576; 1610; 1590]%N;
    [1575; 1604; 1602; 1590; 1575; 1585; 1601]%N;
    [1608; 1583; 32; 1605; 1583; 1606; 1610]%N;
    [1603; 1608; 1587; 1578; 1610]%N;
    [1575; 1604; 1601; 1575; 1588; 1585]%N;
    [1575; 1604; 1583; 1605; 1575; 1586; 1610; 1606]%N;
    [1603; 1575; 1583; 1602; 1604; 1610]%N;
    [1583; 1606; 1602; 1604; 1575]%N;
    [1593; 1591; 1576; 1585; 1577]%N;
    u "KUWAIT";
    [1575; 1604; 1603; 1608; 1610; 1578]%N;
    u "RIYADH";
    [1575; 1604; 1585; 1610; 1575; 1590]%N;
    u "JEDDAH";
    [1580; 1583; 1577]%N;
    u "MECCA";
    [1605; 1603; 1577]%N;
    u "SAUDI ARABIA";
    [1575; 1604; 1605; 1605; 1604; 1603; 1577; 32; 1575; 1604; 1593; 1585;
     1576; 1610; 1577; 32; 1575; 1604; 1587; 1593; 1608; 1583; 1610; 1577]%N;
    u "SAUDI";
    [1575; 1604; 1587; 1593; 1608; 1583; 1610; 1577]%N;
    u "SAUDI ARABIA";
    [1575; 1604; 1605; 1605; 1604; 1603; 1577; 32; 1575; 1604; 1593; 1585;
     1576; 1610; 1577; 32; 1575; 1604; 1587; 1593; 1608; 1583; 1610; 1577]%N;
    u "IRAN";
    [1573; 1610; 1585; 1575; 1606]%N;
    u "TUNISIA";
    [1578; 1608; 1606; 1587]%N;
    u "ALGERIA";
    [1575; 1604; 1580; 1586; 1575; 1574; 1585]%N;
    u "MOROCCO";
    [1575; 1604; 1605; 1594; 1585; 1576]%N;
    u "LIBYA";
    [1604; 1610; 1576; 1610; 1575]%N;
    u "TURKEY";
    [1578; 1585; 1603; 1610; 1575]%N;
    u "SYRIA";
    [1587; 1608; 1585; 1610; 1575]%N;
    u "LEBANON";
    [1604; 1576; 1606; 1575; 1606]%N;
    u "JORDAN";
    [1575; 1604; 1571; 1585; 1583; 1606]%N;
    u "IRAQ";
    [1575; 1604; 1593; 1585; 1575; 1602]%N;
    u "EGYPT";
    [1605; 1589; 1585]%N;
    u "MOROCCO";
    [1575; 1604; 1605; 1594; 1585; 1576]%N;
    u "TURKEY";
    [1578; 1585; 1603; 1610; 1575]%N;
    u "SYRIA";
    [1587; 1608; 1585; 1610; 1575]%N;
    u "MOGTARBEEN";
    [1575; 1604; 1605; 1594; 1578; 1585; 1576; 1610; 1606]%N;
    u "ALBYNEIA";
    [1575; 1604; 1576; 1610; 1606; 1577]%N
].

Definition sudan_indicators : list pystr := [
    u "SDN"; u "SUDAN"; u "REPUBLIC OF SUDAN"; u "REPUBLIC OF THE SUDAN";
    [1575; 1604; 1587; 1608; 1583; 1575; 1606]%N;
    [1580; 1605; 1607; 1608; 1585; 1610; 1577; 32; 1575; 1604; 1587; 1608;
     1583; 1575; 1606]%N;
    u "SUDANESE";
    [1587; 1608; 1583; 1575; 1606; 1610]%N
].

Definition non_name_words : list pystr := [
    u "REPUBLIC"; u "SUDAN"; u "PASSPORT"; u "TYPE"; u "NATIONAL";
    u "NUMBER"; u "DATE"; u "BIRTH"; u "ISSUE"; u "EXPIRY"; u "SEX";
    u "PLACE"; u "NATIONALITY"; u "SIGNATURE"; u "HOLDER"; u "AUTHORITY";
    u "GENDER"; u "COUNTRY"; u "CODE"; u "DOCUMENT"; u "IDENTIFICATION";
    [1580; 1605; 1607; 1608; 1585; 1610; 1577]%N;
    [1575; 1604; 1587; 1608; 1583; 1575; 1606]%N;
    [1580; 1608; 1575; 1586]%N;
    [1606; 1608; 1593]%N;
    [1585; 1602; 1605]%N;
    [1578; 1575; 1585; 1610; 1582]%N;
    [1605; 1610; 1604; 1575; 1583]%N;
    [1573; 1589; 1583; 1575; 1585]%N;
    [1575; 1606; 1578; 1607; 1575; 1569]%N;
    [1605; 1603; 1575; 1606]%N
].

End PassportPatterns.

(* ===================================================================== *)
(** * extractor.py: the field resolver                                    *)
(* ===================================================================== *)

Module Extractor.
Import PyStr Regex.

(** The dictionary [data] that the extractors fill in: the eleven field
    keys, each bound to [None] or to a string, and the two nested
    dictionaries. *)
Record data := Data {
  fields : gmap string (option pystr);
  confidence_scores : gmap string Q;
  extraction_method : gmap string pystr
}.

(** [data[k] = v], [data['confidence_scores'][k] = q] and
    [data['extraction_method'][k] = v] *)
Definition set_field (k : string) (v : option pystr) (d : data) : data :=
  Data (<[k := v]> (fields d)) (confidence_scores d) (extraction_method d).

Definition set_confidence (k : string) (q : Q) (d : data) : data :=
  Data (fields d) (<[k := q]> (confidence_scores d)) (extraction_method d).

Definition set_method (k : string) (v : pystr) (d : data) : data :=
  Data (fields d) (confidence_scores d) (<[k := v]> (extraction_method d)).

(** [data.get(k)]: [None] for a missing key and for a key bound to [None]. *)
Definition get (d : data) (k : string) : option pystr :=
  match fields d !! k with
  | Some v => v
  | None => None
  end.

(** Truth value of [None] or a string. *)
Definition truthy (v : option pystr) : bool :=
  match v with
  | Some (_ :: _) => true
  | _ => false
  end.

Definition field_names : list string :=
  ["passport_type"; "country_code"; "passport_number"; "full_name";
   "nationality"; "place_of_birth"; "sex"; "date_of_birth"; "date_of_issue";
   "date_of_expiry"; "national_id"]%string.

Definition initial_data : data :=
  Data (list_to_map (map (fun k => (k, None)) field_names)) ∅ ∅.

(** [xs[i]] with Python's negative indices. *)
Definition py_index {A : Type} (xs : list A) (i : Z) : result A :=
  let n := Z.of_nat (length xs) in
  let j := if (i <? 0)%Z then (i + n)%Z else i in
  if (j <? 0)%Z then Raise "IndexError"
  else match xs !! Z.to_nat j with
       | Some x => Ok x
       | None => Raise "IndexError"
       end.

Definition int_or_raise `{UnicodeData} (s : pystr) : result Z :=
  match py_int s with
  | Some z => Ok z
  | None => Raise "ValueError"
  end.

Fixpoint traverse {A B : Type} (f : A -> result B) (xs : list A)
  : result (list B) :=
  match xs with
  | [] => Ok []
  | x :: t => y ← f x; ys ← traverse f t; mret (y :: ys)
  end.

Section WithUnicode.
Context `{UnicodeData}.

(** [match.group(1) if match.groups() else match.group(0)]; group 1 is
    [None] if it took no part in the match. *)
Definition group1_or_0 (r : regex) (m : found) : option pystr :=
  if has_group r then f_group m else Some (f_text m).

(** ** Passport number *)

(** [candidate.replace('O', '0').replace(' ', '').upper()] *)
Definition clean_passport (candidate : pystr) : pystr :=
  str_upper (str_replace 32 [] (str_replace 79 (u "0") candidate)).

(** [^P[0-9]{8,9}$] *)
Definition passport_format : regex :=
  seqs [Bol; Lit (chr "P"); rep 8 9 PassportPatterns.d09; Eol].

Definition valid_passport (candidate : pystr) : bool :=
  bool_decide (is_Some (re_match false passport_format candidate)).

(** The loop over the matches of one pattern: [Ok (Some c)] is the
    [return] with the accepted candidate, [Ok None] the end of the loop.
    A candidate [None] has no [replace]: the call raises. *)
Fixpoint passport_in_matches (r : regex) (ms : list found)
  : result (option pystr) :=
  match ms with
  | [] => Ok None
  | m :: rest =>
      match group1_or_0 r m with
      | None => Raise "AttributeError"
      | Some candidate =>
          let candidate := clean_passport candidate in
          if valid_passport candidate then Ok (Some candidate)
          else passport_in_matches r rest
      end
  end.

(** The loop over the patterns, for one text. *)
Fixpoint passport_in_patterns (ps : list regex) (text : pystr)
  : result (option pystr) :=
  match ps with
  | [] => Ok None
  | p :: rest =>
      found ← passport_in_matches p (re_finditer true p text);
      match found with
      | Some c => Ok (Some c)
      | None => passport_in_patterns rest text
      end
  end.

Fixpoint _extract_passport_number (d : data) (all_texts : list (pystr * pystr))
  : result data :=
  match all_texts with
  | [] => Ok d
  | (source_name, text) :: rest =>
      found ← passport_in_patterns PassportPatterns.passport_number text;
      match found with
      | Some candidate =>
          Ok (set_confidence "passport_number" 0.95
             (set_method "passport_number" source_name
             (set_field "passport_number" (Some candidate) d)))
      | None => _extract_passport_number d rest
      end
  end.

(** ** National ID *)

(** [^\d{3}-\d{4}-\d{4,5}$] *)
Definition national_id_format : regex :=
  seqs [Bol; rep 3 3 digit; Lit (chr "-"); rep 4 4 digit; Lit (chr "-");
        rep 4 5 digit; Eol].

(** [re.sub(r'[\s\.]', '-', candidate)] *)
Definition clean_national_id (candidate : pystr) : pystr :=
  re_sub false (Cls [CSpace; ch "."]) (u "-") candidate.

Fixpoint national_id_in_matches (r : regex) (ms : list found)
  : result (option pystr) :=
  match ms with
  | [] => Ok None
  | m :: rest =>
      match group1_or_0 r m with
      | None => Raise "TypeError"
      | Some candidate =>
          let candidate := clean_national_id candidate in
          if bool_decide (is_Some (re_match false national_id_format candidate))
          then Ok (Some candidate)
          else national_id_in_matches r rest
      end
  end.

Fixpoint national_id_in_patterns (ps : list regex) (text : pystr)
  : result (option pystr) :=
  match ps with
  | [] => Ok None
  | p :: rest =>
      found ← national_id_in_matches p (re_finditer false p text);
      match found with
      | Some c => Ok (Some c)
      | None => national_id_in_patterns rest text
      end
  end.

Definition _extract_national_id (d : data) (text : pystr) : result data :=
  found ← national_id_in_patterns PassportPatterns.national_id text;
  match found with
  | Some candidate =>
      Ok (set_confidence "national_id" 0.9
         (set_field "national_id" (Some candidate) d))
  | None => Ok d
  end.

(** ** Dates *)

(** [f"{day:02d}-{month:02d}-{year}"] *)
Definition fmt_date (day month year : Z) : pystr :=
  fmt_02d day ++ u "-" ++ fmt_02d month ++ u "-" ++ fmt_d year.

(** The body of the validation loop for one date-like text; [None] is a
    text that the loop drops: not three parts, a part that [int] refuses
    (the bare [except] skips it), or a component out of range. *)
Definition validate_date (date : pystr) : option pystr :=
  let date := re_sub false (plus (Cls [CSpace; ch "."])) (u "-") date in
  let date := re_sub false (plus (Lit (chr "/"))) (u "-") date in
  match str_split 45 date with
  | [p0; p1; p2] =>
      match py_int p0, py_int p1, py_int p2 with
      | Some day, Some month, Some year =>
          if ((1 <=? day) && (day <=? 31) && (1 <=? month) && (month <=? 12)
              && (1900 <=? year) && (year <=? 2100))%Z
          then Some (fmt_date day month year)
          else None
      | _, _, _ => None
      end
  | _ => None
  end.

(** The sort key [(int(x.split('-')[2]), int(x.split('-')[1]),
    int(x.split('-')[0]))]. *)
Definition date_key (x : pystr) : result (Z * Z * Z) :=
  p ← py_index (str_split 45 x) 2; year ← int_or_raise p;
  p ← py_index (str_split 45 x) 1; month ← int_or_raise p;
  p ← py_index (str_split 45 x) 0; day ← int_or_raise p;
  mret (year, month, day).

(** Order of tuples. *)
Definition key_le (a b : Z * Z * Z) : bool :=
  let '(y1, m1, d1) := a in
  let '(y2, m2, d2) := b in
  ((y1 <? y2) || ((y1 =? y2) && ((m1 <? m2) || ((m1 =? m2) && (d1 <=? d2)))))%Z.

(** [sorted(xs, key=...)]: the keys are computed first, once per element;
    the sort is stable. *)
Fixpoint insert_keyed (x : (Z * Z * Z) * pystr) (l : list ((Z * Z * Z) * pystr))
  : list ((Z * Z * Z) * pystr) :=
  match l with
  | [] => [x]
  | y :: t => if key_le (fst x) (fst y) then x :: y :: t
              else y :: insert_keyed x t
  end.

Fixpoint sort_keyed (l : list ((Z * Z * Z) * pystr))
  : list ((Z * Z * Z) * pystr) :=
  match l with
  | [] => []
  | x :: t => insert_keyed x (sort_keyed t)
  end.

Definition sorted_by_date (xs : list pystr) : result (list pystr) :=
  keyed ← traverse (fun x => k ← date_key x; mret (k, x)) xs;
  mret (map snd (sort_keyed keyed)).

(** [list(set(xs))]: the distinct elements, in the order in which the set
    happens to store them. *)
Definition list_of_set (xs : list pystr) : list pystr :=
  elements (list_to_set xs : gset pystr).

(** [valid_dates] before it is sorted: the date-like texts of all
    patterns, validated and rewritten. *)
Definition date_texts (text : pystr) : list pystr :=
  let all_dates :=
    flat_map (fun pattern => re_findall false pattern text) PassportPatterns.date in
  omap validate_date all_dates.

Definition _extract_dates (d : data) (text : pystr) : result data :=
  let valid_dates := date_texts text in
  valid_dates ← sorted_by_date (list_of_set valid_dates);
  d ← (if (1 <=? length valid_dates)%nat then
         x ← py_index valid_dates 0;
         mret (set_confidence "date_of_birth" 0.85
              (set_field "date_of_birth" (Some x) d))
       else mret d);
  d ← (if (2 <=? length valid_dates)%nat then
         x ← (if (3 <=? length valid_dates)%nat then py_index valid_dates (-2)
              else py_index valid_dates 1);
         mret (set_confidence "date_of_issue" 0.8
              (set_field "date_of_issue" (Some x) d))
       else mret d);
  d ← (if (3 <=? length valid_dates)%nat then
         x ← py_index valid_dates (-1);
         mret (set_confidence "date_of_expiry" 0.85
              (set_field "date_of_expiry" (Some x) d))
       else mret d);
  mret d.

(** ** Full name *)

(** The two filters on a stripped match. *)
Definition name_ok (name : pystr) : bool :=
  negb (existsb (fun word => str_contains word name)
          PassportPatterns.non_name_words)
  && (10 <=? length name)%nat && (length name <=? 60)%nat.

Definition names_in_text (source_name text : pystr) : list (pystr * pystr) :=
  flat_map (fun pattern =>
    flat_map (fun m =>
      let name := str_strip m in
      if name_ok name then [(name, source_name)] else [])
      (re_findall false pattern text))
    PassportPatterns.name.

Definition name_candidates (all_texts : list (pystr * pystr))
  : list (pystr * pystr) :=
  flat_map (fun st => names_in_text (fst st) (snd st)) all_texts.

Definition preferred_sources : list pystr :=
  [u "uniform_block"; u "high_confidence"; u "single_column"].

(** The first candidate whose source label contains [source]. *)
Definition from_source (source : pystr) (cands : list (pystr * pystr))
  : option (pystr * pystr) :=
  find (fun c => str_contains source (snd c)) cands.

Fixpoint first_preferred (sources : list pystr) (cands : list (pystr * pystr))
  : option (pystr * pystr) :=
  match sources with
  | [] => None
  | source :: rest =>
      match from_source source cands with
      | Some c => Some c
      | None => first_preferred rest cands
      end
  end.

(** [max(cands, key=lambda x: len(x[0]))]: the first of the longest. *)
Fixpoint longest_from (best : pystr * pystr) (cands : list (pystr * pystr))
  : pystr * pystr :=
  match cands with
  | [] => best
  | c :: rest =>
      if (length (fst best) <? length (fst c))%nat then longest_from c rest
      else longest_from best rest
  end.

Definition _extract_name (d : data) (all_texts : list (pystr * pystr)) : data :=
  match name_candidates all_texts with
  | [] => d
  | c :: cs =>
      match first_preferred preferred_sources (c :: cs) with
      | Some (name, name_source) =>
          set_confidence "full_name" 0.85
            (set_method "full_name" name_source
              (set_field "full_name" (Some name) d))
      | None =>
          let longest := longest_from c cs in
          set_confidence "full_name" 0.75
            (set_method "full_name" (snd longest)
              (set_field "full_name" (Some (fst longest)) d))
      end
  end.

(** ** Sex *)

(** [value[0].upper() if value else None] *)
Definition sex_value (value : option pystr) : option pystr :=
  match value with
  | Some (c :: _) => Some (upper_char c)
  | _ => None
  end.

Fixpoint sex_in_patterns (ps : list regex) (d : data) (text : pystr) : data :=
  match ps with
  | [] => d
  | pattern :: rest =>
      match re_search true pattern text with
      | Some m =>
          set_confidence "sex" 0.95
            (set_field "sex" (sex_value (group1_or_0 pattern m)) d)
      | None => sex_in_patterns rest d text
      end
  end.

Definition _extract_sex (d : data) (text : pystr) : data :=
  sex_in_patterns PassportPatterns.sex d text.

(** ** Place of birth and nationality *)

Definition _extract_place_of_birth (d : data) (text : pystr) : data :=
  let text_upper := str_upper text in
  match find (fun place => str_contains place text_upper)
          PassportPatterns.sudan_places with
  | Some place =>
      set_confidence "place_of_birth" 0.85
        (set_field "place_of_birth" (Some place) d)
  | None => d
  end.

Definition _extract_nationality (d : data) (text : pystr) : data :=
  let text_upper := str_upper text in
  if existsb (fun indicator => str_contains indicator text_upper)
       PassportPatterns.sudan_indicators
  then set_confidence "nationality" 0.95
         (set_field "passport_type" (Some (u "PC"))
           (set_field "country_code" (Some (u "SDN"))
             (set_field "nationality" (Some (u "SUDANESE")) d)))
  else d.

(** ** The whole resolver *)

Definition _smart_field_extraction (all_texts : list (pystr * pystr))
  : result data :=
  let d := initial_data in
  let combined_text := str_join [10%N] (map snd all_texts) in
  d ← _extract_passport_number d all_texts;
  d ← _extract_national_id d combined_text;
  d ← _extract_dates d combined_text;
  let d := _extract_name d all_texts in
  let d := _extract_sex d combined_text in
  let d := _extract_place_of_birth d combined_text in
  let d := _extract_nationality d combined_text in
  mret d.

Definition important_fields : list string :=
  ["passport_number"; "full_name"; "nationality"; "date_of_birth";
   "date_of_issue"; "date_of_expiry"; "national_id"; "sex"]%string.

(** [sum(1 for field in fs if data.get(field))] *)
Definition count_extracted (fs : list string) (d : data) : nat :=
  length (List.filter (fun field => truthy (get d field)) fs).

(** [(extracted / len(important_fields)) * 100]; both operations are
    exact on floats here, as the divisor is a power of two. *)
Definition _calculate_score (d : data) : Q :=
  (inject_Z (Z.of_nat (count_extracted important_fields d))
   / inject_Z (Z.of_nat (length important_fields))) * 100.

Definition summary_fields : list string :=
  ["passport_number"; "full_name"; "nationality"; "national_id";
   "date_of_birth"; "date_of_issue"; "date_of_expiry"; "sex";
   "place_of_birth"; "country_code"]%string.

Definition _generate_summary (d : data) : pystr :=
  str_of_N (N.of_nat (count_extracted summary_fields d)) ++ u "/"
  ++ str_of_N (N.of_nat (length summary_fields)) ++ u " fields extracted".

(** The dictionary that [extract] returns: [data] with the two keys
    [extraction_score] and [extraction_summary] added. *)
Record extraction := Extraction {
  e_data : data;
  extraction_score : Q;
  extraction_summary : pystr
}.

(** [extract] from the point where the observations have been collected:
    [all_extracted_texts] is the bag of (source label, text) pairs. *)
Definition extract_texts (all_extracted_texts : list (pystr * pystr))
  : result extraction :=
  d ← _smart_field_extraction all_extracted_texts;
  mret (Extraction d (_calculate_score d) (_generate_summary d)).

(** [extract]: [ocr] stands for [_multi_pass_extraction], the passes of
    the text-recognition engine over one image variant. *)
Definition extract {Image : Type} (ocr : Image -> list (pystr * pystr))
  (preprocessed_images : list (pystr * Image)) : result extraction :=
  extract_texts
    (flat_map (fun pi =>
       map (fun mt => (fst pi ++ u "_" ++ fst mt, snd mt)) (ocr (snd pi)))
       preprocessed_images).

End WithUnicode.
End Extractor.


(* ===================================================================== *)
(** * face_processor.py                                                   *)
(* ===================================================================== *)

Module FaceProcessor.
Local Open Scope Q_scope.

Definition box : Type := Z * Z * Z * Z.

(** The class of a Python object, as far as the JSON encoders tell: they
    write a [bool], an [int] and a [float] (numpy.float64 is a [float]) and
    raise TypeError on a numpy.bool_, on a numpy integer and on an array.
    The modelled values are the same in both classes. *)
Inductive pyclass := Python | Numpy.

(** The class of [a + b] and [a - b]: numpy as soon as one operand is. *)
Definition sum_class (a b : pyclass) : pyclass :=
  match a, b with
  | Python, Python => Python
  | _, _ => Numpy
  end.

(** [max(0, v)] for a numpy integer [v] is the int [0] unless [v] is
    greater. *)
Definition max_0_class (v : Z) : pyclass :=
  if (0 <? v)%Z then Numpy else Python.

(** [min(a, v)] for a numpy integer [v] is [a] unless [v] is smaller. *)
Definition min_class (a : Z) (class_of_a : pyclass) (v : Z) : pyclass :=
  if (v <? a)%Z then Numpy else class_of_a.

(** [a and b] is [a] itself when [a] is false, and [b] otherwise. *)
Definition and_class (a : bool) (class_of_a class_of_b : pyclass) : pyclass :=
  if a then class_of_b else class_of_a.

(** A face as the primary engine (insightface) reports it; [bbox] is the
    box after [astype(int)]. *)
Record Face := {
  bbox : box;
  det_score : Q;
  embedding : option (list Q);
  kps : option (list (Q * Q));
  age : option Z;
  gender : option Z
}.

(** The metadata dictionary of an extracted document face;
    [md_bbox_class] gives the class of each entry of [bbox]. *)
Record Metadata := {
  md_bbox : list Z;
  md_bbox_class : list pyclass;
  md_det_score : Q;
  md_embedding : option (list Q);
  md_landmark : option (list (Q * Q));
  md_age : option Z;
  md_gender : option Z;
  md_method : option string
}.

(** [verified_class] is the class of the object in [verified]: the
    result of [>=] on a numpy scalar is a numpy.bool_. *)
Record FaceVerificationResult := {
  verified : bool;
  verified_class : pyclass;
  confidence : Q;
  face_locations : list (string * list Z);
  face_embeddings : list (string * option (list Q));
  verification_method : string;
  error : option string;
  liveness_score : option Q
}.

(** The entries of the configuration that the modelled code reads. *)
Record Config := {
  verification_threshold : Q;
  extraction_padding : Z;
  liveness_enabled : bool;
  liveness_min_score : Q
}.

Definition _default_config : Config := {|
  verification_threshold := 0.4;
  extraction_padding := 20%Z;
  liveness_enabled := true;
  liveness_min_score := 0.7
|}.

(** The external engines: OpenCV and numpy on images, insightface,
    the cascade classifier and face_recognition.  A call that can raise
    returns a [result]. *)
Class Engines (Image : Type) := {
  (* numpy / OpenCV *)
  imread : PyStr.pystr -> option Image;             (* None: no such image *)
  encode_image_to_base64 : Image -> result PyStr.pystr;
  img_shape : Image -> Z * Z;                       (* (height, width) *)
  scale : Z -> Q -> Z;                              (* int(n * 0.05) on floats *)
  crop : Image -> Z -> Z -> Z -> Z -> Image;        (* img[y1:y2, x1:x2] *)
  to_gray : Image -> result Image;                  (* cvtColor(.., BGR2GRAY) *)
  to_hsv : Image -> result Image;                   (* cvtColor(.., BGR2HSV) *)
  laplacian_var : Image -> result Q;                (* Laplacian(gray).var() *)
  saturation_mean : Image -> Q;                     (* mean(hsv[:, :, 1]) *)
  saturation_std : Image -> Q;                      (* std(hsv[:, :, 1]) *)
  canny_mean : Image -> result Q;                   (* mean(Canny(gray, 50, 150)) *)
  _enhance_face : Image -> Image;                   (* catches its own errors *)
  np_norm : list Q -> Q;                            (* linalg.norm *)
  (* insightface *)
  face_app_get : Image -> result (list Face);
  (* cascade classifier: boxes (x, y, w, h) *)
  detectMultiScale : Image -> result (list box);
  (* face_recognition *)
  face_encodings : Image -> result (list (list Q));
  face_locations_of : Image -> result (list (list Z));
  euclidean : list Q -> list Q -> Q                 (* norm of the difference *)
}.

(** [max(xs, key=f)] on a non-empty list: the first of the greatest. *)
Fixpoint max_from {A : Type} (le : A -> A -> bool) (best : A) (xs : list A) : A :=
  match xs with
  | [] => best
  | x :: t => if le x best then max_from le best t else max_from le x t
  end.

Definition Qsum (xs : list Q) : Q := fold_right Qplus 0 xs.

(** [zip] *)
Fixpoint zip {A B : Type} (xs : list A) (ys : list B) : list (A * B) :=
  match xs, ys with
  | x :: xs', y :: ys' => (x, y) :: zip xs' ys'
  | _, _ => []
  end.

(** [min(xs)]; [ValueError] on an empty sequence. *)
Definition py_min (xs : list Q) : result Q :=
  match xs with
  | [] => Raise "ValueError"
  | x :: t => Ok (fold_left Qmin t x)
  end.

(** [np.dot] of two vectors; a [None] operand or two vectors of different
    lengths raise. *)
Definition np_dot (a b : list Q) : result Q :=
  if (length a =? length b)%nat
  then Ok (Qsum (map (fun xy => fst xy * snd xy) (zip a b)))
  else Raise "ValueError".

Section WithEngines.
Context {Image : Type} `{Engines Image}.
Variable config : Config.

(** ** Face extraction *)

Definition metadata_of_face (f : Face) : Metadata :=
  let '(x, y, x2, y2) := bbox f in
  {| md_bbox := [x; y; x2; y2];                         (* bbox.tolist() *)
     md_bbox_class := [Python; Python; Python; Python];
     md_det_score := det_score f;
     md_embedding := embedding f;
     md_landmark := kps f;
     md_age := age f;
     md_gender := gender f;
     md_method := None |}.

(** The region of the document where its photograph is expected. *)
Definition document_roi (document_image : Image) (document_type : string)
  : Image :=
  let '(h, w) := img_shape document_image in
  let '(x1, y1, x2, y2) :=
    if bool_decide (document_type = "passport"%string)
    then (scale w 0.05, scale h 0.3, scale w 0.35, scale h 0.8)
    else (scale w 0.05, scale h 0.2, scale w 0.45, scale h 0.8) in
  crop document_image y1 y2 x1 x2.

Definition extract_face_from_document (document_image : Image)
  (document_type : string) : option Image * option Metadata :=
  let body : result (option Image * option Metadata) :=
    let roi := document_roi document_image document_type in
    (* the primary engine first *)
    faces ← face_app_get roi;
    match faces with
    | f :: fs =>
        let best_face :=
          max_from (fun a b => Qle_bool (det_score a) (det_score b)) f fs in
        let '(x, y, x2, y2) := bbox best_face in
        let padding := extraction_padding config in
        let x := Z.max 0 (x - padding)%Z in
        let y := Z.max 0 (y - padding)%Z in
        let x2 := Z.min (snd (img_shape roi)) (x2 + padding)%Z in
        let y2 := Z.min (fst (img_shape roi)) (y2 + padding)%Z in
        let face_img := crop roi y y2 x x2 in
        Ok (Some (_enhance_face face_img), Some (metadata_of_face best_face))
    | [] =>
        (* the cascade classifier as fallback *)
        gray ← to_gray roi;
        faces ← detectMultiScale gray;
        match faces with
        | f :: fs =>
            let area := fun b : box => let '(_, _, w, h) := b in (w * h)%Z in
            (* four numpy integers *)
            let '(x, y, w, h) :=
              max_from (fun a b => (area a <=? area b)%Z) f fs in
            let padding := extraction_padding config in
            let class_of_x := max_0_class (x - padding) in
            let x := Z.max 0 (x - padding)%Z in
            let class_of_y := max_0_class (y - padding) in
            let y := Z.max 0 (y - padding)%Z in
            let class_of_w :=
              min_class (snd (img_shape roi) - x) class_of_x (w + 2 * padding) in
            let w := Z.min (snd (img_shape roi) - x)%Z (w + 2 * padding)%Z in
            let class_of_h :=
              min_class (fst (img_shape roi) - y) class_of_y (h + 2 * padding) in
            let h := Z.min (fst (img_shape roi) - y)%Z (h + 2 * padding)%Z in
            let face_img := crop roi y (y + h)%Z x (x + w)%Z in
            Ok (Some (_enhance_face face_img),
                Some {| md_bbox := [x; y; x + w; y + h]%Z;
                        md_bbox_class :=
                          [class_of_x; class_of_y;
                           sum_class class_of_x class_of_w;
                           sum_class class_of_y class_of_h];
                        md_det_score := 0.8;
                        md_embedding := None;
                        md_landmark := None;
                        md_age := None;
                        md_gender := None;
                        md_method := Some "cascade"%string |})
        | [] => Ok (None, None)
        end
    end in
  match body with
  | Ok r => r
  | Raise _ => (None, None)
  end.

(** ** Verification *)

Definition extract_embedding (face_image : Image) : option (list Q) :=
  match face_app_get face_image with
  | Ok (f :: _) => embedding f
  | Ok [] => None
  | Raise _ => None
  end.

(** An embedding [None] makes [np.dot] raise. *)
Definition _cosine_similarity (embedding1 embedding2 : option (list Q))
  : result Q :=
  match embedding1, embedding2 with
  | Some e1, Some e2 =>
      dot_product ← np_dot e1 e2;
      let norm1 := np_norm e1 in
      let norm2 := np_norm e2 in
      mret (dot_product / (norm1 * norm2))
  | _, _ => Raise "TypeError"
  end.

Definition box_list (b : box) : list Z :=
  let '(x, y, x2, y2) := b in [x; y; x2; y2].

(** The body of the [try] of [verify_faces]: the primary comparison. *)
Definition verify_primary (id_face selfie_face : Image)
  (id_metadata : option Metadata) : result FaceVerificationResult :=
  let id_embedding :=
    match id_metadata with
    | Some md =>
        match md_embedding md with
        | Some e => Some e
        | None => extract_embedding id_face
        end
    | None => extract_embedding id_face
    end in
  selfie_faces ← face_app_get selfie_face;
  match id_embedding, selfie_faces with
  | Some _, f :: _ =>
      let selfie_embedding := embedding f in
      similarity ← _cosine_similarity id_embedding selfie_embedding;
      let verified := Qle_bool (1 - verification_threshold config) similarity in
      mret {| verified := verified;
              verified_class := Numpy;
              confidence := similarity;
              face_locations :=
                [("id_face"%string,
                  match id_metadata with Some md => md_bbox md | None => [] end);
                 ("selfie_face"%string, box_list (bbox f))];
              face_embeddings :=
                [("id_face"%string, id_embedding);
                 ("selfie_face"%string, selfie_embedding)];
              verification_method := "insightface";
              error := None;
              liveness_score := None |}
  | _, _ => Raise "Could not extract face embeddings"
  end.

(** The fallback comparison. *)
Definition _verify_with_face_recognition (id_face selfie_face : Image)
  : result FaceVerificationResult :=
  id_encodings ← face_encodings id_face;
  selfie_encodings ← face_encodings selfie_face;
  match id_encodings, selfie_encodings with
  | id0 :: _, selfie0 :: _ =>
      let distances := map (fun e => euclidean e selfie0) id_encodings in
      min_distance ← py_min distances;
      let confidence := 1 - min_distance in
      let verified := Qle_bool (verification_threshold config) confidence in
      id_locations ← face_locations_of id_face;
      selfie_locations ← face_locations_of selfie_face;
      mret {| verified := verified;
              verified_class := Numpy;
              confidence := confidence;
              face_locations :=
                [("id_face"%string, hd [] id_locations);
                 ("selfie_face"%string, hd [] selfie_locations)];
              face_embeddings :=
                [("id_face"%string, Some id0);
                 ("selfie_face"%string, Some selfie0)];
              verification_method := "face_recognition";
              error := None;
              liveness_score := None |}
  | _, _ => Raise "Could not find face in one or both images"
  end.

Definition failed_result (e : string) : FaceVerificationResult :=
  {| verified := false;
     verified_class := Python;
     confidence := 0;
     face_locations := [];
     face_embeddings := [];
     verification_method := "failed";
     error := Some e;
     liveness_score := None |}.

Definition verify_faces (id_face selfie_face : Image)
  (id_metadata : option Metadata) : result FaceVerificationResult :=
  try_except (verify_primary id_face selfie_face id_metadata) (fun e =>
    try_except (_verify_with_face_recognition id_face selfie_face) (fun e2 =>
      Ok (failed_result e2))).

(** ** Liveness *)

Definition _analyze_texture (gray_image : Image) : result Q :=
  edges_mean ← canny_mean gray_image;
  let texture_complexity := edges_mean / 255 in
  mret (Qmin (texture_complexity * 10) 1).

Definition liveness_weights : list Q := [0.25; 0.25; 0.3; 0.2].

Definition check_liveness (face_image : Image) : result Q :=
  gray ← to_gray face_image;
  laplacian_var ← laplacian_var gray;
  let blur_score := Qmin (laplacian_var / 1000) 1 in
  let scores := [blur_score] in
  hsv ← to_hsv face_image;
  let color_score :=
    Qmin ((saturation_mean hsv * saturation_std hsv) / 5000) 1 in
  let scores := scores ++ [color_score] in
  texture_score ← _analyze_texture gray;
  let scores := scores ++ [texture_score] in
  faces ← face_app_get face_image;
  let scores :=
    match faces with
    | f :: _ =>
        if negb (Qeq_bool (det_score f) 0) then scores ++ [det_score f]
        else scores
    | [] => scores
    end in
  let weights := liveness_weights in
  mret (Qsum (map (fun sw => fst sw * snd sw)
               (zip scores (firstn (length scores) weights)))).

(** [min(x, 1.0)] for a numpy.float64 [x] is the float [1.0] when that is
    smaller, and [x] itself otherwise. *)
Definition capped_class (x : Q) : pyclass :=
  if Qle_bool x 1 then Numpy else Python.

(** The class of the score that [check_liveness] returns.  The three
    measured signals are numpy.float64 before they are capped, the
    detector score is a float ([float(..)]) and so are the weights: the sum
    is a float only if each of the three signals was capped to [1.0]. *)
Definition liveness_class (face_image : Image) : pyclass :=
  match to_gray face_image, to_hsv face_image with
  | Ok gray, Ok hsv =>
      match laplacian_var gray, canny_mean gray with
      | Ok laplacian_var, Ok edges_mean =>
          sum_class (capped_class (laplacian_var / 1000))
            (sum_class
               (capped_class ((saturation_mean hsv * saturation_std hsv) / 5000))
               (capped_class (edges_mean / 255 * 10)))
      | _, _ => Python
      end
  | _, _ => Python
  end.

(** ** The verification pipeline of the face processor *)

Inductive pipeline_error :=
| LoadFailed                       (* "Failed to load one or more images" *)
| NoDocumentFace                   (* "Could not extract face from document" *)
| LivenessFailed (score : Q)       (* "Liveness check failed (score: ...)" *)
| Exception (e : string).          (* str(e) *)

(** The entry "verification" of the results. *)
Record verification_entry := {
  ve_verified : bool;
  ve_confidence : Q;
  ve_method : string;
  ve_liveness_score : option Q;
  ve_document_detection_score : option Q
}.

Record pipeline_results := {
  success : bool;
  verification : option verification_entry;
  document_face : option PyStr.pystr;
  errors : list pipeline_error
}.

(** An image argument: a path, or an array. *)
Inductive image_arg :=
| Path (p : PyStr.pystr)
| Array (img : Image).

Definition load (a : image_arg) : option Image :=
  match a with
  | Path p => imread p
  | Array img => Some img
  end.

Definition process_verification_request (document_image selfie_image : image_arg)
  (document_type : string) : pipeline_results :=
  let results := {| success := false; verification := None;
                    document_face := None; errors := [] |} in
  match load document_image, load selfie_image with
  | Some document_img, Some selfie_img =>
      match extract_face_from_document document_img document_type with
      | (Some id_face, id_metadata) =>
          match encode_image_to_base64 id_face with
          | Raise e =>
              {| success := false; verification := None;
                 document_face := None; errors := [Exception e] |}
          | Ok face_b64 =>
              let tail : result pipeline_results :=
                verification ← verify_faces id_face selfie_img id_metadata;
                '(verified, score, errs) ←
                  (if liveness_enabled config then
                     liveness_score ← check_liveness selfie_img;
                     mret (if Qle_bool (liveness_min_score config) liveness_score
                           then (verified verification, Some liveness_score, [])
                           else (false, Some liveness_score,
                                 [LivenessFailed liveness_score]))
                   else mret (verified verification, None, []));
                mret {| success := true;
                        verification := Some
                          {| ve_verified := verified;
                             ve_confidence := confidence verification;
                             ve_method := verification_method verification;
                             ve_liveness_score :=
                               match score with
                               | Some q => if Qeq_bool q 0 then None else Some q
                               | None => None
                               end;
                             ve_document_detection_score :=
                               md_det_score <$> id_metadata |};
                        document_face := Some face_b64;
                        errors := errs |} in
              match tail with
              | Ok r => r
              | Raise e =>
                  {| success := false; verification := None;
                     document_face := Some face_b64; errors := [Exception e] |}
              end
          end
      | (None, _) =>
          {| success := false; verification := None; document_face := None;
             errors := [NoDocumentFace] |}
      end
  | _, _ =>
      {| success := false; verification := None; document_face := None;
         errors := [LoadFailed] |}
  end.

End WithEngines.
End FaceProcessor.

(* ===================================================================== *)
(** * app.py: the two full-verification endpoints                         *)
(* ===================================================================== *)

Module App.
Import PyStr Extractor FaceProcessor.
Local Open Scope Q_scope.

(** The global usage counters. *)
Record Stats := {
  total_requests : nat;
  successful_extractions : nat;
  successful_verifications : nat;
  face_verifications : nat
}.

(** The components that a request can call. *)
Inductive call :=
| CallPreprocess
| CallExtract
| CallExtractFace
| CallVerifyFaces
| CallCheckLiveness
| CallSave.

#[export] Instance call_eq_dec : EqDecision call.
Proof. solve_decision. Defined.

(** The state that a request handler changes: the counters, and the log
    of the component calls that it has made. *)
Record world := World {
  stats : Stats;
  calls : list call
}.

(** A handler step runs in a world and returns or raises. *)
Definition io (A : Type) : Type := world -> result A * world.

#[export] Instance io_ret : MRet io := fun A a w => (Ok a, w).

#[export] Instance io_bind : MBind io := fun A B k m w =>
  match m w with
  | (Ok a, w') => k a w'
  | (Raise e, w') => (Raise e, w')
  end.

(** A computation without effects on the world. *)
Definition lift {A : Type} (r : result A) : io A := fun w => (r, w).

(** A call of a component, logged. *)
Definition invoke {A : Type} (c : call) (r : result A) : io A :=
  fun w => (r, World (stats w) (calls w ++ [c])).

Definition update_stats (f : Stats -> Stats) : io unit :=
  fun w => (Ok tt, World (f (stats w)) (calls w)).

(** [try: body except Exception as e: handler(e)] *)
Definition try_io {A : Type} (body : io A) (handler : string -> io A) : io A :=
  fun w =>
    match body w with
    | (Ok a, w') => (Ok a, w')
    | (Raise e, w') => handler e w'
    end.

Inductive status := VERIFIED | FAILED.

(** The JSON responses of the two endpoints. *)
Record complete_response := {
  passport_data : extraction;            (* the entries of ocr_result that are not None *)
  fv_verified : bool;
  fv_confidence : Q;
  fv_liveness_score : Q;
  liveness_passed : bool;
  overall_status : status;
  ocr_score : Q;
  face_match : bool;
  liveness_check : bool;
  extracted_face : pystr
}.

Inductive response :=
| BadRequest (error : string)                          (* 400 *)
| NoFaceDetected (error : string) (ocr_data : extraction)   (* 400 *)
| Complete (r : complete_response)                     (* 200 *)
| ServerError (error : string).                        (* 500 *)

(** ** What the JSON encoders write *)

(** An object that is handed to [json.dump] or to [jsonify], by the
    classes of its parts. *)
#[warnings="-register-all"] Inductive pyobject :=
| PyNone
| PyBool (c : pyclass)                        (* bool, or numpy.bool_ *)
| PyInt (c : pyclass)                         (* int, or a numpy integer *)
| PyFloat                                     (* float; numpy.float64 is one *)
| PyString
| NdArray                                     (* numpy.ndarray *)
| PyList (items : list pyobject)
| PyDict (entries : list (string * pyobject)).

Fixpoint serializable (obj : pyobject) : bool :=
  match obj with
  | PyBool Numpy | PyInt Numpy | NdArray => false
  | PyList items => forallb serializable items
  | PyDict entries => forallb (fun entry => serializable (snd entry)) entries
  | _ => true
  end.

(** The encoder of [json.dump] and of [jsonify]: TypeError on an object
    that it cannot write. *)
Definition json_encode (obj : pyobject) : result unit :=
  if serializable obj then Ok tt
  else Raise "TypeError: Object is not JSON serializable".

Definition jsonify (obj : pyobject) : result unit := json_encode obj.

Definition object_of_option {A : Type} (present : pyobject) (v : option A)
  : pyobject :=
  match v with
  | Some _ => present
  | None => PyNone
  end.

(** The dictionary that [extract] returns: strings, [None], floats and
    the two nested dictionaries. *)
Definition object_of_extraction (e : extraction) : pyobject :=
  PyDict
    (map (fun kv => (fst kv, object_of_option PyString (snd kv)))
       (map_to_list (fields (e_data e)))
     ++ [("confidence_scores"%string,
          PyDict (map (fun kv => (fst kv, PyFloat))
                    (map_to_list (confidence_scores (e_data e)))));
         ("extraction_method"%string,
          PyDict (map (fun kv => (fst kv, PyString))
                    (map_to_list (extraction_method (e_data e)))));
         ("extraction_score"%string, PyFloat);
         ("extraction_summary"%string, PyString)]).

(** [{k: v for k, v in d.items() if v is not None}] *)
Definition without_none (obj : pyobject) : pyobject :=
  match obj with
  | PyDict entries =>
      PyDict (List.filter
                (fun entry => match snd entry with PyNone => false | _ => true end)
                entries)
  | _ => obj
  end.

(** The metadata dictionary of a face; a key that the dictionary lacks
    is shown bound to [None], which the encoder writes as well. *)
Definition object_of_metadata (metadata : option Metadata) : pyobject :=
  match metadata with
  | Some md =>
      PyDict [("bbox"%string, PyList (map PyInt (md_bbox_class md)));
              ("det_score"%string, PyFloat);
              ("embedding"%string, object_of_option NdArray (md_embedding md));
              ("landmark"%string,
               match md_landmark md with
               | Some points =>
                   PyList (map (fun _ => PyList [PyFloat; PyFloat]) points)
               | None => PyNone
               end);
              ("age"%string, object_of_option (PyInt Python) (md_age md));
              ("gender"%string, object_of_option (PyInt Python) (md_gender md));
              ("method"%string, object_of_option PyString (md_method md))]
  | None => PyNone
  end.

(** What the endpoints need besides the face engines: decoding, the
    image variant generator, the recognition passes, and the file that
    keeps the result ([open(result_path, 'w')] and the writes into it; the
    encoding of the result is [json_encode]'s). *)
Class AppEngines (Image Bytes : Type) := {
  b64decode : pystr -> result Bytes;
  imdecode : Bytes -> Image;
  preprocess : Bytes -> result (list (pystr * Image));
  ocr : Image -> list (pystr * pystr);
  save_result : extraction -> FaceVerificationResult -> Q -> result unit
}.

Section WithEngines.
Context {Image Bytes : Type} `{UnicodeData} `{Engines Image}
  `{AppEngines Image Bytes}.
Variable config : Config.

(** [s.split(',')[1] if s.startswith('data:image') else s] *)
Definition strip_data_url (s : pystr) : result pystr :=
  if str_startswith (u "data:image") s then py_index (str_split 44 s) 1
  else Ok s.

Definition decode_base64_to_image (base64_string : pystr) : result Image :=
  s ← strip_data_url base64_string;
  img_data ← b64decode s;
  mret (imdecode img_data).

Definition bump_total (s : Stats) : Stats :=
  {| total_requests := S (total_requests s);
     successful_extractions := successful_extractions s;
     successful_verifications := successful_verifications s;
     face_verifications := face_verifications s |}.

Definition count_verification (ocr_ok face_ok : bool) (s : Stats) : Stats :=
  {| total_requests := total_requests s;
     successful_extractions :=
       if ocr_ok then S (successful_extractions s) else successful_extractions s;
     successful_verifications :=
       if face_ok then S (successful_verifications s)
       else successful_verifications s;
     face_verifications := S (face_verifications s) |}.

(** [a > b] on floats *)
Definition Qgt_bool (a b : Q) : bool := negb (Qle_bool a b).

(** [face_verification] of [complete_result], the dictionary that is
    written to the file of the result. *)
Definition saved_verification (verification_result : FaceVerificationResult)
  : pyobject :=
  PyDict [("verified"%string, PyBool (verified_class verification_result));
          ("confidence"%string, PyFloat);          (* float(..) *)
          ("method"%string, PyString);
          ("liveness_score"%string, PyFloat)].     (* float(..) *)

(** The dictionary of a complete response.  [liveness_score >= min_score]
    has the class of the score: a numpy.float64 compares to a numpy.bool_. *)
Definition complete_object (ocr_result : extraction)
  (verification_result : FaceVerificationResult) (class_of_liveness : pyclass)
  : pyobject :=
  PyDict [("success"%string, PyBool Python);
          ("passport_data"%string,
           without_none (object_of_extraction ocr_result));
          ("face_verification"%string,
           PyDict [("verified"%string,
                    PyBool (verified_class verification_result));
                   ("confidence"%string, PyFloat);
                   ("liveness_score"%string, PyFloat);
                   ("liveness_passed"%string, PyBool class_of_liveness)]);
          ("overall_verification"%string,
           PyDict [("status"%string, PyString);
                   ("ocr_score"%string, PyFloat);
                   ("face_match"%string,
                    PyBool (verified_class verification_result));
                   ("liveness_check"%string, PyBool class_of_liveness)]);
          ("extracted_face"%string, PyString);
          ("result_file"%string, PyString)].

(** The JSON body of /verify-passport. *)
Record passport_request := {
  passport_image : option pystr;
  selfie_image : option pystr
}.

Definition verify_passport (data : passport_request) : io response :=
  _ ← update_stats bump_total;
  try_io
    (match passport_image data, selfie_image data with
     | Some passport_image, Some selfie_image =>
         (* decode images *)
         s ← lift (strip_data_url passport_image);
         passport_bytes ← lift (b64decode s);
         selfie_img ← lift (decode_base64_to_image selfie_image);
         (* step 1: extract text from passport *)
         preprocessed_images ← invoke CallPreprocess (preprocess passport_bytes);
         ocr_result ← invoke CallExtract (extract ocr preprocessed_images);
         (* step 2: extract face from passport *)
         let passport_img := imdecode passport_bytes in
         '(face_img, face_metadata) ← invoke CallExtractFace
            (Ok (extract_face_from_document config passport_img "passport"));
         match face_img with
         | None =>
             mret (NoFaceDetected "No face detected in passport" ocr_result)
         | Some face_img =>
             (* step 3: verify faces *)
             verification_result ← invoke CallVerifyFaces
               (verify_faces config face_img selfie_img face_metadata);
             (* step 4: check liveness *)
             liveness_score ← invoke CallCheckLiveness (check_liveness selfie_img);
             _ ← update_stats
                   (count_verification (Qgt_bool (extraction_score ocr_result) 0)
                      (verified verification_result));
             (* save complete result *)
             let overall_verified :=
               verified verification_result
               && Qgt_bool (extraction_score ocr_result) 70 in
             let complete_result :=
               PyDict [("timestamp"%string, PyString);
                       ("ocr_results"%string, object_of_extraction ocr_result);
                       ("face_verification"%string,
                        saved_verification verification_result);
                       ("overall_verified"%string,
                        PyBool (and_class (verified verification_result)
                                  (verified_class verification_result) Python))] in
             _ ← invoke CallSave
                   (_ ← save_result ocr_result verification_result liveness_score;
                    json_encode complete_result);
             face_b64 ← lift (encode_image_to_base64 face_img);
             _ ← lift (jsonify (complete_object ocr_result verification_result
                                  (liveness_class selfie_img)));
             mret (Complete
               {| passport_data := ocr_result;
                  fv_verified := verified verification_result;
                  fv_confidence := confidence verification_result;
                  fv_liveness_score := liveness_score;
                  liveness_passed :=
                    Qle_bool (liveness_min_score config) liveness_score;
                  overall_status :=
                    if overall_verified then VERIFIED else FAILED;
                  ocr_score := extraction_score ocr_result;
                  face_match := verified verification_result;
                  liveness_check :=
                    Qle_bool (liveness_min_score config) liveness_score;
                  extracted_face := face_b64 |})
         end
     | _, _ => mret (BadRequest "Passport and selfie images required")
     end)
    (fun e => mret (ServerError e)).

(** The uploaded files of /verify-complete. *)
Record upload := {
  filename : pystr;
  content : Bytes
}.

Record complete_request := {
  passport : option upload;
  selfie : option upload
}.

Definition verify_complete (files : complete_request) : io response :=
  _ ← update_stats bump_total;
  try_io
    (match passport files, selfie files with
     | Some passport_file, Some selfie_file =>
         if bool_decide (filename passport_file = [])
            || bool_decide (filename selfie_file = [])
         then mret (BadRequest "No files selected")
         else
           let passport_bytes := content passport_file in
           let selfie_bytes := content selfie_file in
           (* process passport OCR *)
           preprocessed_images ← invoke CallPreprocess (preprocess passport_bytes);
           ocr_result ← invoke CallExtract (extract ocr preprocessed_images);
           (* process face verification *)
           let passport_img := imdecode passport_bytes in
           let selfie_img := imdecode selfie_bytes in
           '(face_img, face_metadata) ← invoke CallExtractFace
              (Ok (extract_face_from_document config passport_img "passport"));
           match face_img with
           | None =>
               mret (NoFaceDetected "No face detected in passport" ocr_result)
           | Some face_img =>
               verification_result ← invoke CallVerifyFaces
                 (verify_faces config face_img selfie_img face_metadata);
               liveness_score ← invoke CallCheckLiveness (check_liveness selfie_img);
               _ ← update_stats
                     (count_verification (Qgt_bool (extraction_score ocr_result) 0)
                        (verified verification_result));
               (* save results *)
               let complete_result :=
                 PyDict [("timestamp"%string, PyString);
                         ("passport_file"%string, PyString);
                         ("selfie_file"%string, PyString);
                         ("ocr_results"%string, object_of_extraction ocr_result);
                         ("face_verification"%string,
                          saved_verification verification_result)] in
               _ ← invoke CallSave
                     (_ ← save_result ocr_result verification_result liveness_score;
                      json_encode complete_result);
               face_b64 ← lift (encode_image_to_base64 face_img);
               _ ← lift (jsonify (complete_object ocr_result verification_result
                                    (liveness_class selfie_img)));
               mret (Complete
                 {| passport_data := ocr_result;
                    fv_verified := verified verification_result;
                    fv_confidence := confidence verification_result;
                    fv_liveness_score := liveness_score;
                    liveness_passed :=
                      Qle_bool (liveness_min_score config) liveness_score;
                    overall_status :=
                      if verified verification_result
                         && Qgt_bool (extraction_score ocr_result) 70
                      then VERIFIED else FAILED;
                    ocr_score := extraction_score ocr_result;
                    face_match := verified verification_result;
                    liveness_check :=
                      Qle_bool (liveness_min_score config) liveness_score;
                    extracted_face := face_b64 |})
           end
     | _, _ => mret (BadRequest "Both passport and selfie files required")
     end)
    (fun e => mret (ServerError e)).

End WithEngines.
End App.

(* ===================================================================== *)
(** * The vocabulary of the specification                                 *)
(* ===================================================================== *)

Module Spec.
Import PyStr Regex Extractor.

(** The letter P followed by 8 or 9 digits. *)
Definition passport_shape (v : pystr) : bool :=
  match v with
  | c :: ds =>
      (c =? 80)%N && (8 <=? length ds)%nat && (length ds <=? 9)%nat
      && forallb ascii_isdigit ds
  | [] => false
  end.

Definition is_digit_char (x : N) : Prop := ascii_isdigit x = true.

Section WithUnicode.
Context `{UnicodeData}.

(** A character set that holds, with case ignored, neither the line
    feed nor the blank. *)
Definition no_blank (items : list citem) : bool :=
  negb (cls_match true items 10) && negb (cls_match true items 32).

(** The normalized candidates that one observation offers, in the order
    of the scan: pattern by pattern, match by match. *)
Definition observation_candidates (text : pystr) : list pystr :=
  flat_map (fun p =>
    omap (fun m => clean_passport <$> group1_or_0 p m) (re_finditer true p text))
    PassportPatterns.passport_number.

(** The first observation, in the order of the bag, with a candidate of
    the right shape, and its first such candidate. *)
Fixpoint first_accepted (bag : list (pystr * pystr)) : option (pystr * pystr) :=
  match bag with
  | [] => None
  | (source, text) :: rest =>
      match find passport_shape (observation_candidates text) with
      | Some c => Some (source, c)
      | None => first_accepted rest
      end
  end.

(** ** Dates *)

(** The text [f n] of a number is not empty, has no hyphen, and [int]
    reads [n] back from it. *)
Definition reads_back (f : Z -> pystr) (n : Z) : bool :=
  negb (existsb (N.eqb 45) (f n)) && bool_decide (py_int (f n) = Some n)
  && negb (bool_decide (f n = [])).

(** A date as (year, month, day), the order of the sort key. *)
Definition valid_ymd (k : Z * Z * Z) : Prop :=
  let '(year, month, day) := k in
  (1 <= day <= 31 /\ 1 <= month <= 12 /\ 1900 <= year <= 2100)%Z.

Definition valid_ymd_b (k : Z * Z * Z) : bool :=
  let '(year, month, day) := k in
  ((1 <=? day) && (day <=? 31) && (1 <=? month) && (month <=? 12)
   && (1900 <=? year) && (year <=? 2100))%Z.

(** Strictly earlier. *)
Definition ymd_lt (a b : Z * Z * Z) : Prop :=
  let '(y1, m1, d1) := a in
  let '(y2, m2, d2) := b in
  (y1 < y2 \/ (y1 = y2 /\ (m1 < m2 \/ (m1 = m2 /\ d1 < d2))))%Z.

(** The text that the resolver stores for a date. *)
Definition date_of (k : Z * Z * Z) : pystr :=
  let '(year, month, day) := k in fmt_date day month year.

(** A date-like piece of text with every run of blanks or dots, and then
    every run of slashes, read as one hyphen. *)
Definition hyphenated (piece : pystr) : pystr :=
  re_sub false (plus (Lit (chr "/"))) (u "-")
    (re_sub false (plus (Cls [CSpace; ch "."])) (u "-") piece).

(** The date [k] is found in the text: one of the date patterns matches
    a piece of the text that, hyphenated, is three numbers separated by
    hyphens, the day, the month and the year of [k], each in its range. *)
Definition found_date (text : pystr) (k : Z * Z * Z) : Prop :=
  let '(year, month, day) := k in
  valid_ymd k
  /\ exists pattern piece p0 p1 p2,
       In pattern PassportPatterns.date
       /\ In piece (re_findall false pattern text)
       /\ (exists before after, text = before ++ piece ++ after)
       /\ str_split 45 (hyphenated piece) = [p0; p1; p2]
       /\ py_int p0 = Some day /\ py_int p1 = Some month
       /\ py_int p2 = Some year.

(** The order of the sort on pairs of a key and a text. *)
Definition keyed_le (a b : (Z * Z * Z) * pystr) : Prop :=
  key_le (fst a) (fst b) = true.

(** The positions of the three dates in the ascending list of the
    distinct dates: the earliest; the second to last, or the second of
    two; the latest of three or more. *)
Definition birth_of (ks : list (Z * Z * Z)) : option (Z * Z * Z) := head ks.

Definition issue_of (ks : list (Z * Z * Z)) : option (Z * Z * Z) :=
  match length ks with
  | 0%nat | 1%nat => None
  | 2%nat => ks !! 1%nat
  | n => ks !! (n - 2)%nat
  end.

Definition expiry_of (ks : list (Z * Z * Z)) : option (Z * Z * Z) :=
  if (3 <=? length ks)%nat then last ks else None.

(** [data[k] = v] with its confidence, if there is a [v]. *)
Definition assign (k : string) (v : option pystr) (q : Q) (d : data) : data :=
  match v with
  | Some x => set_confidence k q (set_field k (Some x) d)
  | None => d
  end.

Definition assign_dates (ks : list (Z * Z * Z)) (d : data) : data :=
  assign "date_of_expiry" (date_of <$> expiry_of ks) 0.85
    (assign "date_of_issue" (date_of <$> issue_of ks) 0.8
      (assign "date_of_birth" (date_of <$> birth_of ks) 0.85 d)).

(** The text of all observations, as the resolver joins it. *)
Definition combined_text (bag : list (pystr * pystr)) : pystr :=
  str_join [10%N] (map snd bag).

(** ** The result record *)

(** The field is not absent. *)
Definition present (d : data) (k : string) : bool :=
  match get d k with
  | Some _ => true
  | None => false
  end.

Definition count_present (ks : list string) (d : data) : nat :=
  length (List.filter (present d) ks).

(** Outside the keys [ks] the two records agree. *)
Definition frame (ks : list string) (d d' : data) : Prop :=
  forall k, ~ In k ks ->
    fields d' !! k = fields d !! k
    /\ confidence_scores d' !! k = confidence_scores d !! k
    /\ extraction_method d' !! k = extraction_method d !! k.

(** [d'] is [d], or [d] with the field [k] and its confidence rewritten
    (and at most the method of [k]); a string that is stored is not empty. *)
Definition stores (k : string) (d d' : data) : Prop :=
  d' = d
  \/ exists v q,
       fields d' = <[k := v]> (fields d)
       /\ confidence_scores d' = <[k := q]> (confidence_scores d)
       /\ (forall j, j <> k -> extraction_method d' !! j = extraction_method d !! j)
       /\ (forall x, v = Some x -> x <> []).

(** The keys that the nationality step writes. *)
Definition nationality_keys : list string :=
  ["nationality"; "country_code"; "passport_type"]%string.

(** Every field that holds a value, the keys [but] apart, has a
    confidence entry. *)
Definition covered (but : list string) (d : data) : Prop :=
  forall k, ~ In k but -> get d k <> None ->
    is_Some (confidence_scores d !! k).

(** No field holds the empty string. *)
Definition all_nonempty (d : data) : Prop :=
  forall k v, get d k = Some v -> v <> [].

End WithUnicode.
End Spec.

Module FaceSpec.
Import FaceProcessor.
Local Open Scope Q_scope.

(** Two results agree: both raise, or both return related values. *)
Definition agree {A : Type} (eqv : A -> A -> Prop) (r1 r2 : result A) : Prop :=
  match r1, r2 with
  | Ok x, Ok y => eqv x y
  | Raise _, Raise _ => True
  | _, _ => False
  end.

Definition same_confidence (r1 r2 : FaceVerificationResult) : Prop :=
  confidence r1 == confidence r2.

(** The detector-confidence signal of the liveness score: the confidence
    of the first face, if there is a face and its confidence is not zero. *)
Definition detector_signal (faces : list Face) : option Q :=
  match faces with
  | f :: _ => if Qeq_bool (det_score f) 0 then None else Some (det_score f)
  | [] => None
  end.

(** The weighted sum of the signals that are there, each with its fixed
    weight. *)
Definition weighted_sum (blur color texture : Q) (detector : option Q) : Q :=
  0.25 * blur + 0.25 * color + 0.3 * texture
  + match detector with Some q => 0.2 * q | None => 0 end.

(** The score as the specification words it: without the detector signal
    the remaining weights are renormalized to total 1. *)
Definition renormalized_sum (blur color texture : Q) (detector : option Q) : Q :=
  match detector with
  | Some q => 0.25 * blur + 0.25 * color + 0.3 * texture + 0.2 * q
  | None => (0.25 * blur + 0.25 * color + 0.3 * texture) / (0.25 + 0.25 + 0.3)
  end.

Section WithEngines.
Context {Image : Type} `{Engines Image}.

(** Neither detector finds a face in the region of the photograph. *)
Definition no_face_in (document_image : Image) (document_type : string) : Prop :=
  let roi := document_roi document_image document_type in
  face_app_get roi = Ok []
  /\ exists gray, to_gray roi = Ok gray /\ detectMultiScale gray = Ok [].

(** The fallback comparator finds at most one face in the image. *)
Definition one_encoding_at_most (img : Image) : Prop :=
  forall encodings, face_encodings img = Ok encodings ->
                    (length encodings <= 1)%nat.

End WithEngines.
End FaceSpec.

Module AppSpec.
Import Extractor FaceProcessor App.
Local Open Scope Q_scope.

(** From the world [w] to the world [w'] the component [c] was not
    called. *)
Definition made_no_call (c : call) (w w' : world) : Prop :=
  exists new, calls w' = calls w ++ new /\ ~ In c new.



End AppSpec.

(* ===================================================================== *)
(** * Engines for concrete runs                                           *)
(* ===================================================================== *)

(** An image is given by what the engines report on it; cropping,
    colour conversion and enhancement keep it. *)
Module Scenario.
Import PyStr Extractor FaceProcessor App.
Local Open Scope Q_scope.

Record scene := {
  sc_faces : list Face;              (* insightface *)
  sc_boxes : list box;               (* the cascade classifier *)
  sc_encodings : list (list Q);      (* face_recognition *)
  sc_laplacian : Q;
  sc_saturation_mean : Q;
  sc_saturation_std : Q;
  sc_canny : Q;
  sc_texts : list (pystr * pystr)    (* the recognition passes *)
}.

(** The square root of a rational whose numerator and denominator are
    squares: the norm of the vectors of the runs below. *)
Definition rational_norm (v : list Q) : Q :=
  let s := Qred (Qsum (map (fun x => x * x) v)) in
  Z.sqrt (Qnum s) # Pos.sqrt (Qden s).

#[export] Instance scene_engines : Engines scene := {|
  imread _ := None;
  encode_image_to_base64 _ := Ok (u "face");
  img_shape _ := (600, 800)%Z;
  scale n q := Qfloor (inject_Z n * q);
  crop img _ _ _ _ := img;
  to_gray img := Ok img;
  to_hsv img := Ok img;
  laplacian_var img := Ok (sc_laplacian img);
  saturation_mean := sc_saturation_mean;
  saturation_std := sc_saturation_std;
  canny_mean img := Ok (sc_canny img);
  _enhance_face img := img;
  np_norm := rational_norm;
  face_app_get img := Ok (sc_faces img);
  detectMultiScale img := Ok (sc_boxes img);
  face_encodings img := Ok (sc_encodings img);
  face_locations_of img := Ok (map (fun _ => []) (sc_encodings img));
  euclidean a b := rational_norm (map (fun xy => fst xy - snd xy) (zip a b))
|}.

Definition a_face (e : list Q) (score : Q) : Face := {|
  bbox := (10, 10, 90, 110)%Z;
  det_score := score;
  embedding := Some e;
  kps := None;
  age := None;
  gender := None
|}.

Definition passport_text : pystr :=
  u "REPUBLIC OF THE SUDAN  Passport No: P12345678  MOHAMED AHMED ALI HASSAN  Sex: M  01-01-1990 15-03-2015 15-03-2025  KHARTOUM  123-4567-89012".

(** A passport page with a photograph. *)
Definition passport_page : scene := {|
  sc_faces := [a_face [1; 0] 0.99];
  sc_boxes := [];
  sc_encodings := [[1; 0]];
  sc_laplacian := 900;
  sc_saturation_mean := 80;
  sc_saturation_std := 50;
  sc_canny := 20;
  sc_texts := [(u "uniform_block", passport_text)]
|}.

(** A passport page in which no detector finds a face. *)
Definition faceless_page : scene := {|
  sc_faces := [];
  sc_boxes := [];
  sc_encodings := [];
  sc_laplacian := 900;
  sc_saturation_mean := 80;
  sc_saturation_std := 50;
  sc_canny := 20;
  sc_texts := [(u "uniform_block", passport_text)]
|}.

(** A selfie of the passport holder that is blurred and flat: a
    photograph of a photograph. *)
Definition flat_selfie : scene := {|
  sc_faces := [a_face [1; 0] 0.9];
  sc_boxes := [];
  sc_encodings := [[1; 0]];
  sc_laplacian := 100;
  sc_saturation_mean := 50;
  sc_saturation_std := 10;
  sc_canny := 2.55;
  sc_texts := []
|}.

(** A sharp, colourful, textured image in which the primary engine
    detects no face. *)
Definition sharp_print : scene := {|
  sc_faces := [];
  sc_boxes := [];
  sc_encodings := [];
  sc_laplacian := 1000;
  sc_saturation_mean := 100;
  sc_saturation_std := 50;
  sc_canny := 25.5;
  sc_texts := []
|}.

(** An image in which no engine finds a face and whose three measured
    signals all exceed their caps. *)
Definition vivid_print : scene := {|
  sc_faces := [];
  sc_boxes := [];
  sc_encodings := [];
  sc_laplacian := 2000;
  sc_saturation_mean := 100;
  sc_saturation_std := 100;
  sc_canny := 51;
  sc_texts := []
|}.

(** Two images for the fallback comparator only: a group of two faces and
    a single face that equals the second of the group. *)
Definition group_photo : scene := {|
  sc_faces := [];
  sc_boxes := [];
  sc_encodings := [[0]; [1]];
  sc_laplacian := 0; sc_saturation_mean := 0; sc_saturation_std := 0;
  sc_canny := 0; sc_texts := []
|}.

Definition single_photo : scene := {|
  sc_faces := [];
  sc_boxes := [];
  sc_encodings := [[1]];
  sc_laplacian := 0; sc_saturation_mean := 0; sc_saturation_std := 0;
  sc_canny := 0; sc_texts := []
|}.

(** Uploaded bytes are named; decoding looks the name up. *)
Definition scene_named (name : pystr) : scene :=
  if bool_decide (name = u "passport") then passport_page
  else if bool_decide (name = u "faceless") then faceless_page
  else if bool_decide (name = u "flat selfie") then flat_selfie
  else if bool_decide (name = u "vivid print") then vivid_print
  else sharp_print.

#[export] Instance scene_app : AppEngines scene pystr := {|
  b64decode s := Ok s;
  imdecode := scene_named;
  preprocess bytes := Ok [(u "grayscale", scene_named bytes)];
  ocr := sc_texts;
  save_result _ _ _ := Ok tt            (* the file can be written *)
|}.

Definition fresh_world : world :=
  World {| total_requests := 0; successful_extractions := 0;
           successful_verifications := 0; face_verifications := 0 |} [].

End Scenario.

(* ===================================================================== *)
(** * Further vocabulary, and the parts of the code beyond the claims     *)
(* ===================================================================== *)

Module ResolverSpec.
Import PyStr Regex Extractor Spec.

(** The indicators that no other indicator contains: SDN, SUDAN, and the
    two Arabic words. *)
Definition sudan_needles : list pystr :=
  [u "SDN"; u "SUDAN";
   [1575; 1604; 1587; 1608; 1583; 1575; 1606]%N;
   [1587; 1608; 1583; 1575; 1606; 1610]%N].

(** [a] occurs in [t]. *)
Definition occurs_in (a t : pystr) : Prop :=
  exists pre post, t = pre ++ a ++ post.

(** The record with the three nationality fields written. *)
Definition sudanese (d : data) : data :=
  set_confidence "nationality" 0.95
    (set_field "passport_type" (Some (u "PC"))
      (set_field "country_code" (Some (u "SDN"))
        (set_field "nationality" (Some (u "SUDANESE")) d))).

Section WithUnicode.
Context `{UnicodeData}.

(** The source label names one of the preferred recognition passes. *)
Definition preferred (source : pystr) : bool :=
  existsb (fun p => str_contains p source) preferred_sources.

End WithUnicode.
End ResolverSpec.

Module RecordSpec.
Import PyStr Regex Extractor Spec.

(** Every match of [r] consumes a character. *)
Fixpoint consumes (r : regex) : bool :=
  match r with
  | Lit _ | Cls _ => true
  | Seq a b => consumes a || consumes b
  | Alt a b => consumes a && consumes b
  | Rep lo _ a => (1 <=? lo)%nat && consumes a
  | Grp a => consumes a
  | _ => false
  end.

(** Every group of [r] consumes a character. *)
Fixpoint groups_consume (r : regex) : bool :=
  match r with
  | Grp a => consumes a
  | Seq a b | Alt a b => groups_consume a && groups_consume b
  | Rep _ _ a => groups_consume a
  | _ => true
  end.

(** The confidence that each step of the resolver attaches to its field. *)
Definition confidence_table : list (string * list Q) :=
  [("passport_number", [0.95]); ("national_id", [0.9]);
   ("date_of_birth", [0.85]); ("date_of_issue", [0.8]);
   ("date_of_expiry", [0.85]); ("full_name", [0.85; 0.75]);
   ("sex", [0.95]); ("place_of_birth", [0.85]);
   ("nationality", [0.95])]%string%Q.

(** The fields whose source label is recorded. *)
Definition method_keys : list string := ["passport_number"; "full_name"]%string.

(** A step on the field [k]: it leaves the record as it is, or it stores a
    string under [k] with a confidence from [qs] and, if [m], the label of
    an observation as its method. *)
Definition writes (labels : list pystr) (k : string) (qs : list Q) (m : bool)
  (d d' : data) : Prop :=
  d' = d
  \/ exists x q,
       In q qs
       /\ fields d' = <[k := Some x]> (fields d)
       /\ confidence_scores d' = <[k := q]> (confidence_scores d)
       /\ if m then exists s, In s labels
                     /\ extraction_method d' = <[k := s]> (extraction_method d)
          else extraction_method d' = extraction_method d.

(** A confidence is recorded only for a field that holds a string, and it
    is one of the values of the table. *)
Definition confidence_sound (d : data) : Prop :=
  forall k q, confidence_scores d !! k = Some q ->
    is_Some (get d k)
    /\ exists qs, In (k, qs) confidence_table /\ In q qs.

(** A method is recorded exactly for the two fields of [method_keys] that
    hold a string, and it is one of the labels. *)
Definition method_sound (labels : list pystr) (d : data) : Prop :=
  (forall k s, extraction_method d !! k = Some s ->
     In k method_keys /\ In s labels /\ is_Some (get d k))
  /\ (forall k, In k method_keys -> is_Some (get d k) ->
        is_Some (extraction_method d !! k)).

Section WithUnicode.
Context `{UnicodeData}.

(** Three groups of 3, 4 and 4 or 5 decimal digits with a hyphen between
    them. *)
Definition national_id_shape (v : pystr) : Prop :=
  exists a b c,
    v = a ++ [45%N] ++ b ++ [45%N] ++ c
    /\ length a = 3%nat /\ length b = 4%nat /\ (4 <= length c <= 5)%nat
    /\ Forall (fun x => py_isdecimal x = true) (a ++ b ++ c).

End WithUnicode.
End RecordSpec.

(* ===================================================================== *)
(** * extractor.py: the recognition passes                                *)
(* ===================================================================== *)

Module Passes.
Import PyStr Extractor.

(** An entry of [data['conf']]: pytesseract reports an int, a float or a
    string, depending on its version. *)
Inductive conf_value :=
| ConfInt (z : Z)
| ConfFloat (q : Q)
| ConfStr (s : pystr).

(** pytesseract and the array operations of the passes. *)
Class Tesseract (Image : Type) := {
  (* image_to_string(image, lang, config) *)
  image_to_string : Image -> option pystr -> pystr -> result pystr;
  (* image_to_data(image, output_type=DICT): the lists 'conf' and 'text' *)
  image_to_data : Image -> result (list conf_value * list pystr);
  shape : Image -> Z * Z;                          (* (height, width) *)
  int_times : Z -> Q -> Z;                         (* int(n * 0.4) on floats *)
  slice : Image -> Z -> Z -> Z -> Z -> Image       (* image[y1:y2, x1:x2] *)
}.

(** The configuration of the extractor. *)
Record ExtractorConfig := {
  confidence_threshold : option Q
}.

(** [config.get('confidence_threshold', 60)] *)
Definition threshold_of (config : ExtractorConfig) : Q :=
  match confidence_threshold config with
  | Some q => q
  | None => 60
  end.

(** The truth value of [text.strip()]. *)
Definition nonblank (text : pystr) : bool :=
  match str_strip text with
  | [] => false
  | _ :: _ => true
  end.

(** [int(x)] of a float: towards zero. *)
Definition Qtruncate (q : Q) : Z :=
  if Qle_bool 0 q then Qfloor q else Qceiling q.

Definition configs : list (pystr * pystr) :=
  [(u "standard", u "--oem 3 --psm 3");
   (u "single_column", u "--oem 3 --psm 4");
   (u "uniform_block", u "--oem 3 --psm 6");
   (u "single_line", u "--oem 3 --psm 7");
   (u "sparse_text", u "--oem 3 --psm 11")].

(** The labels that a pass can give, in the order of the passes. *)
Definition pass_labels : list pystr :=
  [u "standard"; u "single_column"; u "uniform_block"; u "single_line";
   u "sparse_text"; u "eng_lang"; u "ara_lang"; u "high_confidence";
   u "region_top_right"; u "region_center"; u "region_bottom"].

Section WithTesseract.
Context `{UnicodeData} {Image : Type} `{Tesseract Image}.
Variable config : ExtractorConfig.

(** [int(conf)] *)
Definition int_of_conf (conf : conf_value) : result Z :=
  match conf with
  | ConfInt z => Ok z
  | ConfFloat q => Ok (Qtruncate q)
  | ConfStr s => int_or_raise s
  end.

(** One call of [image_to_string] in its [try]: the text is kept if it
    is not blank; an exception is swallowed. *)
Definition string_pass (label : pystr) (r : result pystr)
  : list (pystr * pystr) :=
  match r with
  | Ok text => if nonblank text then [(label, text)] else []
  | Raise _ => []
  end.

(** The loop over [enumerate(data['conf'])]. *)
Fixpoint high_conf_loop (texts : list pystr) (i : nat) (confs : list conf_value)
  (high_conf_text : list pystr) : result (list pystr) :=
  match confs with
  | [] => Ok high_conf_text
  | conf :: rest =>
      c ← int_of_conf conf;
      if negb (Qle_bool (inject_Z c) (threshold_of config)) then
        text ← py_index texts (Z.of_nat i);
        high_conf_loop texts (S i) rest
          (if nonblank text then high_conf_text ++ [text] else high_conf_text)
      else high_conf_loop texts (S i) rest high_conf_text
  end.

(** The high-confidence pass in its [try]. *)
Definition high_confidence_pass (image : Image) : list (pystr * pystr) :=
  match (data ← image_to_data image;
         high_conf_loop (snd data) 0 (fst data) []) with
  | Ok (t :: ts) => [(u "high_confidence", str_join (u " ") (t :: ts))]
  | Ok [] => []
  | Raise _ => []
  end.

Definition _extract_from_regions (image : Image) : list (pystr * pystr) :=
  let '(height, width) := shape image in
  let regions :=
    [(u "top_right", (int_times width 0.4, 0%Z, width, int_times height 0.4));
     (u "center", (0%Z, int_times height 0.2, width, int_times height 0.8));
     (u "bottom", (0%Z, int_times height 0.6, width, height))] in
  flat_map (fun region =>
    let '(region_name, (x1, y1, x2, y2)) := region in
    let roi := slice image y1 y2 x1 x2 in
    string_pass (u "region_" ++ region_name)
      (image_to_string roi None (u "--oem 3 --psm 6")))
    regions.

Definition _multi_pass_extraction (image : Image) : list (pystr * pystr) :=
  let results :=
    flat_map (fun nc => string_pass (fst nc)
                          (image_to_string image None (snd nc))) configs in
  let results :=
    results ++
    flat_map (fun lang => string_pass (lang ++ u "_lang")
                            (image_to_string image (Some lang) []))
      [u "eng"; u "ara"] in
  let results := results ++ high_confidence_pass image in
  results ++ _extract_from_regions image.

(** [extract] with its passes. *)
Definition extract_images (preprocessed_images : list (pystr * Image))
  : result extraction :=
  extract _multi_pass_extraction preprocessed_images.

End WithTesseract.
End Passes.

Module PassesSpec.
Import PyStr Extractor Passes.

Section WithTesseract.
Context `{UnicodeData} {Image : Type} `{Tesseract Image}.

(** The tokens that the high-confidence pass keeps: those whose
    confidence exceeds the threshold and that are not blank. *)
Definition kept_tokens (threshold : Q) (confs : list Z) (texts : list pystr)
  : list pystr :=
  map snd
    (List.filter (fun ct => negb (Qle_bool (inject_Z (fst ct)) threshold)
                            && nonblank (snd ct))
       (combine confs texts)).

(** No call of the recognition engine on the image or on a part of it
    gives a text that is not blank. *)
Definition reads_nothing (image : Image) : Prop :=
  (forall img lang config text,
     image_to_string img lang config = Ok text -> nonblank text = false)
  /\ raises (image_to_data image).

End WithTesseract.
End PassesSpec.

Module FaceFacts.
Import PyStr FaceProcessor.
Local Open Scope Q_scope.

(** A box [x, y, x2, y2] that lies within an image of the given shape. *)
Definition box_within (shape : Z * Z) (b : list Z) : Prop :=
  match b with
  | [x; y; x2; y2] =>
      (0 <= x /\ 0 <= y /\ x2 <= snd shape /\ y2 <= fst shape)%Z
  | _ => False
  end.

(** The three ways in which a comparison ends: by the primary engine, by
    the fallback, or failed.  The same threshold is read as the greatest
    cosine distance by the first and as the least confidence by the
    second. *)
Definition decided_by_method (threshold : Q) (r : FaceVerificationResult)
  : Prop :=
  (verification_method r = "insightface"%string
   /\ verified r = Qle_bool (1 - threshold) (confidence r))
  \/ (verification_method r = "face_recognition"%string
      /\ verified r = Qle_bool threshold (confidence r))
  \/ (verification_method r = "failed"%string
      /\ verified r = false /\ confidence r = 0 /\ is_Some (error r)).

(** Metadata that the JSON encoder writes: no embedding (an array), and
    a box whose four entries are ints. *)
Definition writable (md : Metadata) : Prop :=
  md_embedding md = None /\ Forall (eq Python) (md_bbox_class md).

End FaceFacts.

(* ===================================================================== *)
(** * app.py: the two face endpoints                                      *)
(* ===================================================================== *)

Module AppFaces.
Import PyStr Extractor FaceProcessor App.
Local Open Scope Q_scope.

(** [cv2.imwrite] of the extracted face. *)
Class FaceStore (Image : Type) := {
  imwrite : Image -> result unit
}.

(** The JSON body of /extract-face. *)
Record face_request := {
  image : option pystr;
  document_type : option string
}.

(** The JSON responses; the name of the face file, made from the clock,
    is left out. *)
Inductive face_response :=
| FaceBadRequest (error : string)                              (* 400 *)
| FaceNotDetected (error : string)                             (* 400 *)
| FaceExtracted (face_image : pystr) (metadata : option Metadata)   (* 200 *)
| FaceServerError (error : string).                            (* 500 *)

(** The JSON body of /verify-faces. *)
Record faces_request := {
  face1 : option pystr;
  face2 : option pystr
}.

Record faces_result := {
  fr_verified : bool;
  fr_confidence : Q;
  fr_method : string;
  fr_liveness_score : option Q;
  fr_error : option string
}.

Inductive faces_response :=
| FacesBadRequest (error : string)          (* 400 *)
| FacesCompared (r : faces_result)          (* 200 *)
| FacesServerError (error : string).        (* 500 *)

Definition bump_face_verifications (s : Stats) : Stats :=
  {| total_requests := total_requests s;
     successful_extractions := successful_extractions s;
     successful_verifications := successful_verifications s;
     face_verifications := S (face_verifications s) |}.

Definition bump_successful_verifications (s : Stats) : Stats :=
  {| total_requests := total_requests s;
     successful_extractions := successful_extractions s;
     successful_verifications := S (successful_verifications s);
     face_verifications := face_verifications s |}.

Section WithEngines.
Context {Image Bytes : Type} `{UnicodeData} `{Engines Image}
  `{AppEngines Image Bytes} `{FaceStore Image}.
Variable config : Config.

Definition extract_face (data : face_request) : io face_response :=
  _ ← update_stats bump_total;
  try_io
    (match image data with
     | Some image_b64 =>
         let document_type :=
           match document_type data with
           | Some t => t
           | None => "passport"%string
           end in
         (* decode image *)
         document_img ← lift (decode_base64_to_image image_b64);
         (* extract face *)
         '(face_img, metadata) ← invoke CallExtractFace
            (Ok (extract_face_from_document config document_img document_type));
         match face_img with
         | None => mret (FaceNotDetected "No face detected in document")
         | Some face_img =>
             (* save extracted face *)
             _ ← invoke CallSave (imwrite face_img);
             face_b64 ← lift (encode_image_to_base64 face_img);
             _ ← lift (jsonify
                   (PyDict [("success"%string, PyBool Python);
                            ("face_image"%string, PyString);
                            ("metadata"%string, object_of_metadata metadata);
                            ("face_file"%string, PyString)]));
             mret (FaceExtracted face_b64 metadata)
         end
     | None => mret (FaceBadRequest "No image provided")
     end)
    (fun e => mret (FaceServerError e)).

Definition verify_faces (data : faces_request) : io faces_response :=
  _ ← update_stats bump_total;
  _ ← update_stats bump_face_verifications;
  try_io
    (match face1 data, face2 data with
     | Some face1_b64, Some face2_b64 =>
         (* decode images *)
         face1 ← lift (decode_base64_to_image face1_b64);
         face2 ← lift (decode_base64_to_image face2_b64);
         (* verify faces *)
         result ← invoke CallVerifyFaces
                    (FaceProcessor.verify_faces config face1 face2 None);
         _ ← update_stats (if verified result
                           then bump_successful_verifications
                           else fun s => s);
         (* float(result.liveness_score) if result.liveness_score else None *)
         let liveness :=
           match liveness_score result with
           | Some q => if Qeq_bool q 0 then None else Some q
           | None => None
           end in
         _ ← lift (jsonify
               (PyDict [("success"%string, PyBool Python);
                        ("verified"%string, PyBool (verified_class result));
                        ("confidence"%string, PyFloat);      (* float(..) *)
                        ("method"%string, PyString);
                        ("liveness_score"%string,
                         object_of_option PyFloat liveness);
                        ("error"%string,
                         object_of_option PyString (error result))]));
         mret (FacesCompared
           {| fr_verified := verified result;
              fr_confidence := confidence result;
              fr_method := verification_method result;
              fr_liveness_score := liveness;
              fr_error := error result |})
     | _, _ => mret (FacesBadRequest "Two face images required")
     end)
    (fun e => mret (FacesServerError e)).

End WithEngines.
End AppFaces.

Module ServerSpec.
Import FaceProcessor App.

(** The component calls of a full verification, in their order. *)
Definition pipeline_calls : list call :=
  [CallPreprocess; CallExtract; CallExtractFace; CallVerifyFaces;
   CallCheckLiveness; CallSave].

(** What one request may do to the counters: it counts itself, and it
    counts at most one extraction and at most one face verification; it
    counts a successful verification only together with a face
    verification. *)
Definition one_request (s s' : Stats) : Prop :=
  total_requests s' = S (total_requests s)
  /\ (successful_extractions s <= successful_extractions s'
      <= S (successful_extractions s))%nat
  /\ (face_verifications s <= face_verifications s'
      <= S (face_verifications s))%nat
  /\ (successful_verifications s <= successful_verifications s')%nat
  /\ (successful_verifications s' + face_verifications s
      <= successful_verifications s + face_verifications s')%nat.

(** A run of a full-verification endpoint from the world [w]: it
    returns a response, its component calls are an initial part of
    [pipeline_calls], and it counts as one request.  A refusal of the
    request for a missing image comes before any call, the answer that no
    face was detected after the first three, a complete response after all
    six.  A complete response reports a comparison that is not verified,
    and the status FAILED; a request that is counted as a successful
    verification is answered with a server error.  The face verification
    is counted exactly if the run reached the save. *)
Definition runs_in_order (w : world) (out : result response * world) : Prop :=
  exists resp w' new,
    out = (Ok resp, w')
    /\ calls w' = calls w ++ new
    /\ new `prefix_of` pipeline_calls
    /\ one_request (stats w) (stats w')
    /\ (forall e, resp = BadRequest e -> new = [])
    /\ (forall e ocr_data, resp = NoFaceDetected e ocr_data ->
          new = [CallPreprocess; CallExtract; CallExtractFace])
    /\ (forall c, resp = Complete c ->
          new = pipeline_calls
          /\ fv_verified c = false /\ face_match c = false
          /\ overall_status c = FAILED)
    /\ (successful_verifications (stats w')
        = S (successful_verifications (stats w)) ->
        exists e, resp = ServerError e)
    /\ (face_verifications (stats w') = S (face_verifications (stats w))
        <-> In CallSave new).

(** A run of a full-verification endpoint that compared the faces and
    measured the liveness: it reached the save, counted the face
    verification (and the successful one of a verified comparison), and
    ended with a server error. *)
Definition counted_and_failed (r : FaceVerificationResult) (w : world)
  (out : result response * world) : Prop :=
  exists e w',
    out = (Ok (ServerError e), w')
    /\ calls w' = calls w ++ pipeline_calls
    /\ total_requests (stats w') = S (total_requests (stats w))
    /\ face_verifications (stats w') = S (face_verifications (stats w))
    /\ successful_verifications (stats w')
       = if verified r then S (successful_verifications (stats w))
         else successful_verifications (stats w).

End ServerSpec.

(* ===================================================================== *)
(** * app.py: the two extraction endpoints and the server                 *)
(* ===================================================================== *)

Module AppExtract.
Import PyStr Extractor FaceProcessor App.
Local Open Scope Q_scope.

(** The world of the extraction endpoints: that of the other endpoints
    and the two entries of [stats] that only these two change. *)
Record xworld := XWorld {
  base : world;
  failed_extractions : nat;
  average_accuracy : Q
}.

Definition xio (A : Type) : Type := xworld -> result A * xworld.

#[export] Instance xio_ret : MRet xio := fun A a x => (Ok a, x).

#[export] Instance xio_bind : MBind xio := fun A B k m x =>
  match m x with
  | (Ok a, x') => k a x'
  | (Raise e, x') => (Raise e, x')
  end.

Definition xlift {A : Type} (r : result A) : xio A := fun x => (r, x).

(** A handler of the other endpoints, run in the larger world. *)
Definition in_base {A : Type} (m : io A) : xio A := fun x =>
  let '(r, w') := m (base x) in
  (r, XWorld w' (failed_extractions x) (average_accuracy x)).

Definition xupdate (f : xworld -> xworld) : xio unit :=
  fun x => (Ok tt, f x).

Definition try_xio {A : Type} (body : xio A) (handler : string -> xio A)
  : xio A :=
  fun x =>
    match body x with
    | (Ok a, x') => (Ok a, x')
    | (Raise e, x') => handler e x'
    end.

(** [stats['failed_extractions'] += 1] *)
Definition bump_failed (x : xworld) : xworld :=
  XWorld (base x) (S (failed_extractions x)) (average_accuracy x).

(** The statistics after an extraction with the given score. *)
Definition record_extraction (score : Q) (x : xworld) : xworld :=
  if Qgt_bool score 0 then
    let total := S (successful_extractions (stats (base x))) in
    let current_avg := average_accuracy x in
    XWorld
      (World {| total_requests := total_requests (stats (base x));
                successful_extractions := total;
                successful_verifications :=
                  successful_verifications (stats (base x));
                face_verifications := face_verifications (stats (base x)) |}
             (calls (base x)))
      (failed_extractions x)
      ((current_avg * inject_Z (Z.of_nat total - 1) + score)
       / inject_Z (Z.of_nat total))
  else bump_failed x.

(** The nearest integer, the even one of two. *)
Definition round_half_even (q : Q) : Z :=
  let f := Qfloor q in
  match Qcompare (q - inject_Z f) (1 # 2) with
  | Lt => f
  | Gt => (f + 1)%Z
  | Eq => if Z.even f then f else (f + 1)%Z
  end.

(** [f"{x:.1f}"] of a float whose value is the rational [x]. *)
Definition fmt_1f (x : Q) : pystr :=
  let magnitude := if Qle_bool 0 x then x else - x in
  let tenths := round_half_even (magnitude * 10) in
  (if Qle_bool 0 x then [] else u "-")
  ++ fmt_d (tenths / 10) ++ u "." ++ fmt_d (tenths mod 10).

(** The JSON body of /extract. *)
Record extract_request := {
  image : option pystr
}.

(** The uploaded file of /extract-file. *)
Record file_request (Bytes : Type) := {
  file : option (upload (Bytes := Bytes))
}.
Arguments file {Bytes} _.

(** The JSON responses.  [data] stands for the entries of the result
    that are not [None]; the name of the result file, which the response
    also gives, is made from the clock and is left out. *)
Inductive extract_response :=
| ExtractBadRequest (error : string)                              (* 400 *)
| Extracted (data : extraction) (accuracy : pystr)
    (filename : option pystr)                                     (* 200 *)
| ExtractServerError (error : string).                            (* 500 *)

(** [json.dump] of the result into its file. *)
Class ResultStore := {
  json_dump : extraction -> result unit
}.

Section WithEngines.
Context {Image Bytes : Type} `{UnicodeData} `{Engines Image}
  `{AppEngines Image Bytes} `{ResultStore}.

Definition extract (data : extract_request) : xio extract_response :=
  _ ← in_base (update_stats bump_total);
  try_xio
    (match image data with
     | Some image_data =>
         (* decode base64 image *)
         image_data ← xlift (strip_data_url image_data);
         image_bytes ← xlift (b64decode image_data);
         (* preprocess image *)
         preprocessed_images ← in_base (invoke CallPreprocess
                                          (preprocess image_bytes));
         (* extract data *)
         result ← in_base (invoke CallExtract
                             (Extractor.extract ocr preprocessed_images));
         (* update statistics *)
         _ ← xupdate (record_extraction (extraction_score result));
         (* save result *)
         _ ← in_base (invoke CallSave (json_dump result));
         mret (Extracted result (fmt_1f (extraction_score result) ++ u "%")
                 None)
     | None => mret (ExtractBadRequest "No image provided")
     end)
    (fun e => _ ← xupdate bump_failed; mret (ExtractServerError e)).

Definition extract_file (files : file_request Bytes) : xio extract_response :=
  _ ← in_base (update_stats bump_total);
  try_xio
    (match file files with
     | Some file =>
         if bool_decide (filename file = [])
         then mret (ExtractBadRequest "No file selected")
         else
           (* read file *)
           let image_bytes := content file in
           (* preprocess image *)
           preprocessed_images ← in_base (invoke CallPreprocess
                                            (preprocess image_bytes));
           (* extract data *)
           result ← in_base (invoke CallExtract
                               (Extractor.extract ocr preprocessed_images));
           (* update statistics *)
           _ ← xupdate (record_extraction (extraction_score result));
           (* save result *)
           _ ← in_base (invoke CallSave (json_dump result));
           mret (Extracted result (fmt_1f (extraction_score result) ++ u "%")
                   (Some (filename file)))
     | None => mret (ExtractBadRequest "No file uploaded")
     end)
    (fun e => _ ← xupdate bump_failed; mret (ExtractServerError e)).

End WithEngines.
End AppExtract.

Module Server.
Import PyStr Extractor FaceProcessor App AppExtract.

(** A request to one of the six POST endpoints. *)
Inductive request (Bytes : Type) :=
| PostExtract (data : extract_request)
| PostExtractFile (files : file_request Bytes)
| PostExtractFace (data : AppFaces.face_request)
| PostVerifyFaces (data : AppFaces.faces_request)
| PostVerifyPassport (data : passport_request)
| PostVerifyComplete (files : complete_request (Bytes := Bytes)).
Arguments PostExtract {Bytes} _.
Arguments PostExtractFile {Bytes} _.
Arguments PostExtractFace {Bytes} _.
Arguments PostVerifyFaces {Bytes} _.
Arguments PostVerifyPassport {Bytes} _.
Arguments PostVerifyComplete {Bytes} _.

Section WithEngines.
Context {Image Bytes : Type} `{UnicodeData} `{Engines Image}
  `{AppEngines Image Bytes} `{AppFaces.FaceStore Image} `{ResultStore}.
Variable config : Config.

(** The world after the request has been served; the response goes to
    the client. *)
Definition serve (r : request Bytes) (x : xworld) : xworld :=
  match r with
  | PostExtract data => snd (extract data x)
  | PostExtractFile files => snd (extract_file files x)
  | PostExtractFace data => snd (in_base (AppFaces.extract_face config data) x)
  | PostVerifyFaces data => snd (in_base (AppFaces.verify_faces config data) x)
  | PostVerifyPassport data => snd (in_base (verify_passport config data) x)
  | PostVerifyComplete files => snd (in_base (verify_complete config files) x)
  end.

Definition serve_all (rs : list (request Bytes)) (x : xworld) : xworld :=
  fold_left (fun x r => serve r x) rs x.

End WithEngines.

(** The world when the server starts. *)
Definition start : xworld :=
  XWorld (World {| total_requests := 0; successful_extractions := 0;
                   successful_verifications := 0; face_verifications := 0 |} [])
         0 0.

(** The counters that every sequence of requests keeps in order. *)
Definition counters_in_order (n : nat) (x : xworld) : Prop :=
  let s := stats (base x) in
  total_requests s = n
  /\ (successful_verifications s <= face_verifications s <= n)%nat
  /\ (successful_extractions s <= n)%nat
  /\ (failed_extractions x <= 2 * n)%nat.

End Server.

Module ExtractSpec.
Import PyStr Extractor App AppExtract.
Local Open Scope Q_scope.

(** The score of [k] extracted fields out of eight. *)
Definition score_of (k : nat) : Q :=
  inject_Z (Z.of_nat k) / inject_Z (Z.of_nat 8) * 100.

(** The accuracies that a response can show. *)
Definition accuracy_texts : list pystr :=
  [u "0.0%"; u "12.5%"; u "25.0%"; u "37.5%"; u "50.0%"; u "62.5%";
   u "75.0%"; u "87.5%"; u "100.0%"].

(** A run of an extraction endpoint from the world [x]: it returns a
    response and counts as one request; the counters of the face
    verifications stay; an extraction with a positive score is counted as
    successful and enters the running average, one with the score 0 is
    counted as failed, and so is every server error; a refused request
    changes nothing else. *)
Definition extraction_run (x : xworld) (out : result extract_response * xworld)
  : Prop :=
  exists resp x',
    out = (Ok resp, x')
    /\ total_requests (stats (base x')) = S (total_requests (stats (base x)))
    /\ face_verifications (stats (base x')) = face_verifications (stats (base x))
    /\ successful_verifications (stats (base x'))
       = successful_verifications (stats (base x))
    /\ (successful_extractions (stats (base x))
        <= successful_extractions (stats (base x'))
        <= S (successful_extractions (stats (base x))))%nat
    /\ (failed_extractions x <= failed_extractions x'
        <= 2 + failed_extractions x)%nat
    /\ (forall e accuracy name, resp = Extracted e accuracy name ->
          In accuracy accuracy_texts
          /\ if Qgt_bool (extraction_score e) 0
             then successful_extractions (stats (base x'))
                  = S (successful_extractions (stats (base x)))
                  /\ failed_extractions x' = failed_extractions x
                  /\ average_accuracy x'
                     * inject_Z (Z.of_nat (successful_extractions
                                             (stats (base x'))))
                     == average_accuracy x
                        * inject_Z (Z.of_nat (successful_extractions
                                                (stats (base x))))
                        + extraction_score e
             else successful_extractions (stats (base x'))
                  = successful_extractions (stats (base x))
                  /\ failed_extractions x' = S (failed_extractions x)
                  /\ average_accuracy x' = average_accuracy x)
    /\ (forall error, resp = ExtractBadRequest error ->
          successful_extractions (stats (base x'))
          = successful_extractions (stats (base x))
          /\ failed_extractions x' = failed_extractions x
          /\ average_accuracy x' = average_accuracy x
          /\ calls (base x') = calls (base x))
    /\ (forall error, resp = ExtractServerError error ->
          (S (failed_extractions x) <= failed_extractions x')%nat).

End ExtractSpec.

(** Engines for the concrete runs of the passes and of the endpoints. *)
Module PassScenario.
Import PyStr Extractor FaceProcessor App Passes AppExtract Scenario.
Local Open Scope Q_scope.

(** A page is given by the tokens that the recognition engine reads in
    it, each with its confidence. *)
Definition page : Type := list (conf_value * pystr).

(** An engine that reads every token, in every pass and in every
    region. *)
Definition reader : Tesseract page := {|
  image_to_string img _ _ := Ok (str_join (u " ") (map snd img));
  image_to_data img := Ok (map fst img, map snd img);
  shape _ := (600, 800)%Z;
  int_times n q := Qfloor (inject_Z n * q);
  slice img _ _ _ _ := img
|}.

(** An engine that is not installed: every call raises. *)
Definition blind_reader : Tesseract page := {|
  image_to_string _ _ _ := Raise "TesseractNotFoundError";
  image_to_data _ := Raise "TesseractNotFoundError";
  shape _ := (600, 800)%Z;
  int_times n q := Qfloor (inject_Z n * q);
  slice img _ _ _ _ := img
|}.

(** A passport number read with confidence 96, noise with 40, a place
    with 91.5. *)
Definition clear_page : page :=
  [(ConfInt 96, u "P12345678"); (ConfInt 40, u "~"); (ConfFloat 91.5, u "KHARTOUM")].

(** The same with a confidence that is not a number. *)
Definition odd_page : page :=
  [(ConfInt 96, u "P12345678"); (ConfStr (u "n/a"), u "KHARTOUM")].

Definition no_threshold : ExtractorConfig := {| confidence_threshold := None |}.

(** A page in which the primary engine finds two faces. *)
Definition crowded_page : scene := {|
  sc_faces := [a_face [1; 0] 0.5; a_face [0; 1] 0.9];
  sc_boxes := [];
  sc_encodings := [];
  sc_laplacian := 0; sc_saturation_mean := 0; sc_saturation_std := 0;
  sc_canny := 0; sc_texts := []
|}.

(** A page in which only the cascade classifier finds a face, at the
    lower right corner. *)
Definition corner_page : scene := {|
  sc_faces := [];
  sc_boxes := [(790, 590, 30, 30)%Z];
  sc_encodings := [];
  sc_laplacian := 0; sc_saturation_mean := 0; sc_saturation_std := 0;
  sc_canny := 0; sc_texts := []
|}.

(** A disk that is full. *)
Definition full_disk : ResultStore := {|
  json_dump _ := Raise "No space left on device"
|}.

End PassScenario.

(* ===================================================================== *)
(** * Properties of the matcher                                           *)
(* ===================================================================== *)

Section RegexFacts.
Import PyStr Regex.
Context `{UnicodeData}.
Variable ic : bool.

Lemma iter_app (R : mstate -> mstate -> Prop) n m s s1 s2 :
  iter n R s s1 -> iter m R s1 s2 -> iter (n + m) R s s2.
Proof.
  revert s. induction n as [|n IH]; simpl; intros s Hn Hm.
  - subst. exact Hm.
  - destruct Hn as (s' & Hs & Hn). exists s'. eauto.
Qed.

Lemma iter_snoc (R : mstate -> mstate -> Prop) n s s' :
  iter (S n) R s s' -> exists s1, iter n R s s1 /\ R s1 s'.
Proof.
  revert s. induction n as [|n IH]; intros s Hn.
  - destruct Hn as (s1 & Hs & ->). exists s. split; [reflexivity|exact Hs].
  - destruct Hn as (s1 & Hs & Hn). apply IH in Hn as (s2 & Hn & Hl).
    exists s2. split; [|exact Hl]. exists s1. auto.
Qed.

Section LoopsSound.
Variable body : mstate -> (mstate -> option mstate) -> option mstate.
Variable R : mstate -> mstate -> Prop.
Hypothesis body_sound : forall s k e,
  body s k = Some e -> exists s', R s s' /\ k s' = Some e.

Lemma rep_exact_sound n s k e :
  rep_exact body n s k = Some e ->
  exists s', iter n R s s' /\ k s' = Some e.
Proof using body_sound.
  revert s. induction n as [|n IH]; simpl; intros s Hm.
  - exists s. auto.
  - apply body_sound in Hm as (s1 & Hs & Hm).
    apply IH in Hm as (s' & Hi & Hk). exists s'. split; [|exact Hk].
    exists s1. auto.
Qed.

Lemma rep_upto_sound n s k e :
  rep_upto body n s k = Some e ->
  exists m s', (m <= n)%nat /\ iter m R s s' /\ k s' = Some e.
Proof using body_sound.
  revert s. induction n as [|n IH]; simpl; intros s Hm.
  - exists 0%nat, s. split; [lia|]. simpl. auto.
  - destruct (body s (fun s' => rep_upto body n s' k)) as [e'|] eqn:Hb.
    + injection Hm as ->.
      apply body_sound in Hb as (s1 & Hs & Hb).
      apply IH in Hb as (m & s' & Hle & Hi & Hk).
      exists (S m), s'. split; [lia|]. split; [|exact Hk]. exists s1. auto.
    + exists 0%nat, s. split; [lia|]. simpl. auto.
Qed.
End LoopsSound.

(** The matcher is sound: what it finds is a match, and the rest of the
    pattern succeeded from its end. *)
Lemma rmatch_sound r : forall s k e,
  rmatch ic r s k = Some e -> exists s', Sem ic r s s' /\ k s' = Some e.
Proof.
  induction r as [c|items| | | |a IHa b IHb|a IHa b IHb|lo hi a IHa|a IHa];
    intros s k e Hm; simpl in Hm.
  - destruct (m_after s) as [|x t] eqn:Ha; [discriminate|].
    destruct (lit_match ic c x) eqn:Hx; [|discriminate].
    exists (advance s x t). split; [|exact Hm]. exists x, t. auto.
  - destruct (m_after s) as [|x t] eqn:Ha; [discriminate|].
    destruct (cls_match ic items x) eqn:Hx; [|discriminate].
    exists (advance s x t). split; [|exact Hm]. exists x, t. auto.
  - destruct (at_boundary s) eqn:Hb; [|discriminate]. exists s. simpl. auto.
  - destruct (at_begin s) eqn:Hb; [|discriminate]. exists s. simpl. auto.
  - destruct (at_end s) eqn:Hb; [|discriminate]. exists s. simpl. auto.
  - apply IHa in Hm as (s1 & Hs1 & Hm). apply IHb in Hm as (s2 & Hs2 & Hm).
    exists s2. split; [|exact Hm]. exists s1. auto.
  - destruct (rmatch ic a s k) as [e'|] eqn:Hl.
    + injection Hm as ->. apply IHa in Hl as (s' & Hs & Hk).
      exists s'. split; [left|]; assumption.
    + apply IHb in Hm as (s' & Hs & Hk).
      exists s'. split; [right|]; assumption.
  - apply (rep_exact_sound _ _ IHa) in Hm as (s1 & Hi1 & Hm).
    apply (rep_upto_sound _ _ IHa) in Hm as (m & s2 & Hle & Hi2 & Hm).
    exists s2. split; [|exact Hm]. exists (lo + m)%nat.
    split; [lia|]. split.
    + destruct hi as [h|]; [|exact I]. simpl in Hle. lia.
    + eapply iter_app; eassumption.
  - apply IHa in Hm as (s1 & Hs1 & Hm).
    exists (set_group s1 (captured s s1)). split; [|exact Hm].
    exists s1. auto.
Qed.

Lemma span_refl s : span s [] s.
Proof. split; reflexivity. Qed.

Lemma span_trans s w1 s1 w2 s2 :
  span s w1 s1 -> span s1 w2 s2 -> span s (w1 ++ w2) s2.
Proof.
  intros [Hb1 Ha1] [Hb2 Ha2]. split.
  - rewrite Hb2, Hb1, rev_app_distr, <- app_assoc. reflexivity.
  - rewrite Ha1, Ha2, <- app_assoc. reflexivity.
Qed.

Lemma span_advance s x t : m_after s = x :: t -> span s [x] (advance s x t).
Proof. intros Ha. split; [reflexivity|exact Ha]. Qed.

Lemma span_set_group s w s1 g : span s w s1 -> span s w (set_group s1 g).
Proof. intros [Hb Ha]. split; assumption. Qed.

Lemma captured_before s w s' :
  m_before s' = rev w ++ m_before s -> captured s s' = w.
Proof.
  intros Hb. unfold captured. rewrite Hb, length_app, length_rev.
  replace (length w + length (m_before s) - length (m_before s))%nat
    with (length (rev w) + 0)%nat by (rewrite length_rev; lia).
  rewrite firstn_app_2. simpl. rewrite app_nil_r. apply rev_involutive.
Qed.

Lemma captured_span s w s' : span s w s' -> captured s s' = w.
Proof. intros [Hb _]. by apply captured_before. Qed.

Lemma iter_span (R : mstate -> mstate -> Prop) n :
  (forall s s', R s s' -> exists w, span s w s') ->
  forall s s', iter n R s s' -> exists w, span s w s'.
Proof.
  intros HR. induction n as [|n IH]; simpl; intros s s' Hi.
  - subst. exists []. apply span_refl.
  - destruct Hi as (s1 & Hs & Hi). apply HR in Hs as (w1 & Hw1).
    apply IH in Hi as (w2 & Hw2). exists (w1 ++ w2).
    eapply span_trans; eassumption.
Qed.

Lemma Sem_span r : forall s s', Sem ic r s s' -> exists w, span s w s'.
Proof.
  induction r as [c|items| | | |a IHa b IHb|a IHa b IHb|lo hi a IHa|a IHa];
    simpl; intros s s' Hs.
  - destruct Hs as (x & t & Ha & _ & ->). exists [x]. by apply span_advance.
  - destruct Hs as (x & t & Ha & _ & ->). exists [x]. by apply span_advance.
  - destruct Hs as [_ ->]. exists []. apply span_refl.
  - destruct Hs as [_ ->]. exists []. apply span_refl.
  - destruct Hs as [_ ->]. exists []. apply span_refl.
  - destruct Hs as (s1 & H1 & H2). apply IHa in H1 as (w1 & H1).
    apply IHb in H2 as (w2 & H2). exists (w1 ++ w2).
    eapply span_trans; eassumption.
  - destruct Hs as [Hs|Hs]; eauto.
  - destruct Hs as (n & _ & _ & Hi). eapply iter_span; eassumption.
  - destruct Hs as (s1 & H1 & ->). apply IHa in H1 as (w & Hw).
    exists w. by apply span_set_group.
Qed.

(** The last character of a match. *)
Lemma Sem_ends_with (P : N -> Prop) r : forall s s',
  ends_with ic P r -> Sem ic r s s' ->
  exists w x, span s (w ++ [x]) s' /\ P x.
Proof.
  induction r as [c|items| | | |a IHa b IHb|a IHa b IHb|lo hi a IHa|a IHa];
    simpl; intros s s' He Hs; try contradiction.
  - destruct Hs as (x & t & Ha & Hx & ->). exists [], x.
    split; [by apply span_advance|auto].
  - destruct Hs as (x & t & Ha & Hx & ->). exists [], x.
    split; [by apply span_advance|auto].
  - destruct Hs as (s1 & H1 & H2). apply Sem_span in H1 as (w1 & H1).
    destruct (IHb _ _ He H2) as (w2 & x & H2' & Hx).
    exists (w1 ++ w2), x. split; [|exact Hx].
    rewrite <- app_assoc. eapply span_trans; eassumption.
  - destruct He as [Hea Heb]. destruct Hs as [Hs|Hs]; eauto.
  - destruct He as [Hlo He]. destruct Hs as (n & Hn & _ & Hi).
    destruct n as [|n]; [lia|].
    apply iter_snoc in Hi as (s1 & Hi & Hl).
    apply (iter_span _ _ (Sem_span a)) in Hi as (w1 & H1).
    destruct (IHa _ _ He Hl) as (w2 & x & H2 & Hx).
    exists (w1 ++ w2), x. split; [|exact Hx].
    rewrite <- app_assoc. eapply span_trans; eassumption.
  - destruct Hs as (s1 & H1 & ->).
    destruct (IHa _ _ He H1) as (w & x & Hw & Hx).
    exists w, x. split; [by apply span_set_group|exact Hx].
Qed.

(** The last character of group 1, for a pattern that ends with it. *)
Lemma Sem_group_ends (P : N -> Prop) r : forall s s',
  group_ends ic P r -> Sem ic r s s' ->
  exists w x, m_group s' = Some (w ++ [x]) /\ P x.
Proof.
  induction r as [c|items| | | |a IHa b IHb|a IHa b IHb|lo hi a IHa|a IHa];
    simpl; intros s s' He Hs; try contradiction.
  - destruct Hs as (s1 & _ & H2). eauto.
  - destruct Hs as (s1 & H1 & ->).
    destruct (Sem_ends_with P a _ _ He H1) as (w & x & Hw & Hx).
    exists w, x. split; [|exact Hx]. simpl. f_equal. by apply captured_span.
Qed.

Lemma iter_preserves (I : mstate -> Prop) (R : mstate -> mstate -> Prop) n :
  (forall s s', R s s' -> I s -> I s') ->
  forall s s', iter n R s s' -> I s -> I s'.
Proof.
  intros HR. induction n as [|n IH]; simpl; intros s s' Hi HI.
  - by subst.
  - destruct Hi as (s1 & Hs & Hi). eauto.
Qed.

(** A group that is set stays set. *)
Lemma Sem_group_mono r : forall s s',
  Sem ic r s s' -> is_Some (m_group s) -> is_Some (m_group s').
Proof.
  induction r as [c|items| | | |a IHa b IHb|a IHa b IHb|lo hi a IHa|a IHa];
    simpl; intros s s' Hs Hg.
  - by destruct Hs as (x & t & _ & _ & ->).
  - by destruct Hs as (x & t & _ & _ & ->).
  - by destruct Hs as [_ ->].
  - by destruct Hs as [_ ->].
  - by destruct Hs as [_ ->].
  - destruct Hs as (s1 & H1 & H2). eauto.
  - destruct Hs as [Hs|Hs]; eauto.
  - destruct Hs as (n & _ & _ & Hi).
    eapply (iter_preserves (fun s => is_Some (m_group s))); eauto.
  - destruct Hs as (s1 & _ & ->). simpl. eauto.
Qed.

Lemma Sem_sets_group r : forall s s',
  sets_group r = true -> Sem ic r s s' -> is_Some (m_group s').
Proof.
  induction r as [c|items| | | |a IHa b IHb|a IHa b IHb|lo hi a IHa|a IHa];
    simpl; intros s s' Hg Hs; try discriminate.
  - destruct Hs as (s1 & H1 & H2). apply orb_true_iff in Hg as [Hg|Hg].
    + eapply Sem_group_mono; eauto.
    + eauto.
  - apply andb_true_iff in Hg as [Hga Hgb]. destruct Hs as [Hs|Hs]; eauto.
  - apply andb_true_iff in Hg as [Hlo Hg]. destruct lo as [|lo]; [discriminate|].
    destruct Hs as (n & Hn & _ & Hi). destruct n as [|n]; [lia|].
    apply iter_snoc in Hi as (s1 & _ & Hl). eauto.
  - destruct Hs as (s1 & _ & ->). simpl. eauto.
Qed.

Lemma ends_in_sound (P : N -> Prop) (ok : list citem -> bool) r :
  (forall items x, ok items = true -> cls_match ic items x = true -> P x) ->
  ends_in ok r = true -> ends_with ic P r.
Proof.
  intros Hok.
  induction r as [c|items| | | |a IHa b IHb|a IHa b IHb|lo hi a IHa|a IHa];
    simpl; intros He; try discriminate; eauto.
  - apply andb_true_iff in He as [Ha Hb]. auto.
  - destruct lo as [|lo]; [discriminate|]. split; [lia|auto].
Qed.

Lemma group_ends_in_sound (P : N -> Prop) (ok : list citem -> bool) r :
  (forall items x, ok items = true -> cls_match ic items x = true -> P x) ->
  group_ends_in ok r = true -> group_ends ic P r.
Proof.
  intros Hok.
  induction r as [c|items| | | |a IHa b IHb|a IHa b IHb|lo hi a IHa|a IHa];
    simpl; intros He; try discriminate; eauto using ends_in_sound.
Qed.

(** ** The matches that [re.finditer] yields *)

Lemma match_here_sound r before after e :
  match_here ic r before after = Some e ->
  Sem ic r (MState before after None) e.
Proof.
  intros Hm. apply rmatch_sound in Hm as (s' & Hs & Hk).
  injection Hk as <-. exact Hs.
Qed.

Lemma scan_Forall (Q : found -> Prop) r :
  (forall before after e,
     match_here ic r before after = Some e -> Q (found_of before e)) ->
  forall after skip before, Forall Q (scan ic r skip before after).
Proof.
  intros HQ. induction after as [|c t IH]; intros skip before.
  - destruct skip; simpl; [|constructor].
    destruct (match_here ic r before []) eqn:Hm; repeat constructor; eauto.
  - destruct skip; simpl; [|apply IH].
    destruct (match_here ic r before (c :: t)) eqn:Hm; [constructor|]; eauto.
Qed.

Lemma found_of_text before after e w :
  span (MState before after None) w e -> f_text (found_of before e) = w.
Proof. intros [Hb _]. unfold found_of. simpl. by apply captured_before. Qed.

(** Every match of a pattern that always goes through its group has
    group 1. *)
(** Every match is a piece of the text. *)
Lemma scan_pieces r : forall after skip before,
  Forall (fun m => exists pre post,
            rev before ++ after = pre ++ f_text m ++ post)
    (scan ic r skip before after).
Proof.
  induction after as [|c t IH]; intros skip before.
  - destruct skip; simpl; [|constructor].
    destruct (match_here ic r before []) as [e|] eqn:Hm; [|constructor].
    constructor; [|constructor].
    apply match_here_sound, Sem_span in Hm as [w Hw].
    rewrite (found_of_text _ _ _ _ Hw). destruct Hw as [_ Ha]. simpl in Ha.
    exists (rev before), (m_after e). by rewrite Ha.
  - assert (Hrest : forall n,
              Forall (fun m => exists pre post,
                        rev before ++ c :: t = pre ++ f_text m ++ post)
                (scan ic r n (c :: before) t)).
    { intros n. eapply List.Forall_impl; [|apply IH].
      intros m (pre & post & E). exists pre, post. rewrite <- E. simpl.
      by rewrite <- app_assoc. }
    destruct skip; simpl; [|apply Hrest].
    destruct (match_here ic r before (c :: t)) as [e|] eqn:Hm;
      [constructor|]; try apply Hrest.
    apply match_here_sound, Sem_span in Hm as [w Hw].
    rewrite (found_of_text _ _ _ _ Hw). destruct Hw as [_ Ha]. simpl in Ha.
    exists (rev before), (m_after e). by rewrite Ha.
Qed.

Lemma findall_pieces r text piece :
  has_group r = false -> In piece (re_findall ic r text) ->
  exists pre post, text = pre ++ piece ++ post.
Proof.
  intros Hg Hin. unfold re_findall, re_finditer in Hin. rewrite Hg in Hin.
  apply in_map_iff in Hin as (m & <- & Hm).
  pose proof (scan_pieces r text 0 []) as Hall.
  rewrite List.Forall_forall in Hall. by apply Hall in Hm.
Qed.

Lemma finditer_group_set r text :
  sets_group r = true ->
  Forall (fun m => is_Some (f_group m)) (re_finditer ic r text).
Proof.
  intros Hg. apply scan_Forall. intros before after e Hm.
  apply match_here_sound in Hm. simpl. eapply Sem_sets_group; eassumption.
Qed.

(** The last character of group 0. *)
Lemma finditer_text_ends (P : N -> Prop) r text :
  ends_with ic P r ->
  Forall (fun m => exists w x, f_text m = w ++ [x] /\ P x)
    (re_finditer ic r text).
Proof.
  intros He. apply scan_Forall. intros before after e Hm.
  apply match_here_sound in Hm.
  destruct (Sem_ends_with P r _ _ He Hm) as (w & x & Hw & Hx).
  exists w, x. split; [|exact Hx]. eapply found_of_text; eassumption.
Qed.

(** The last character of group 1. *)
Lemma finditer_group_ends (P : N -> Prop) r text :
  group_ends ic P r ->
  Forall (fun m => exists w x, f_group m = Some (w ++ [x]) /\ P x)
    (re_finditer ic r text).
Proof.
  intros He. apply scan_Forall. intros before after e Hm.
  apply match_here_sound in Hm. simpl. eapply Sem_group_ends; eassumption.
Qed.

(** A run of one character set. *)
Lemma iter_cls items n : forall s s',
  iter n (Sem ic (Cls items)) s s' ->
  exists w, length w = n /\ Forall (fun x => cls_match ic items x = true) w
            /\ span s w s' /\ m_group s' = m_group s.
Proof.
  induction n as [|n IH]; simpl; intros s s' Hi.
  - subst. exists []. repeat split; auto.
  - destruct Hi as (s1 & (x & t & Ha & Hx & ->) & Hi).
    apply IH in Hi as (w & Hl & Hw & Hs & Hg).
    exists (x :: w). split; [simpl; lia|]. split; [by constructor|].
    split; [|exact Hg]. apply (span_trans _ [x] _ w _ (span_advance _ _ _ Ha) Hs).
Qed.

End RegexFacts.

(* ===================================================================== *)
(** * The passport number                                                 *)
(* ===================================================================== *)

Section PassportFacts.
Import PyStr Regex Extractor Spec.
Context `{UnicodeData}.

Lemma d09_match x : cls_match false [rng "0" "9"] x = ascii_isdigit x.
Proof. unfold cls_match. simpl. apply orb_false_r. Qed.

Lemma passport_shape_inv v :
  passport_shape v = true ->
  exists ds, v = 80%N :: ds /\ (8 <= length ds <= 9)%nat
             /\ Forall is_digit_char ds.
Proof.
  destruct v as [|c ds]; unfold passport_shape; [discriminate|]. intros Hv.
  apply andb_true_iff in Hv as [Hv Hd]. apply andb_true_iff in Hv as [Hv H9].
  apply andb_true_iff in Hv as [Hc H8].
  apply N.eqb_eq in Hc. apply Nat.leb_le in H8, H9. subst c.
  exists ds. split; [reflexivity|]. split; [lia|].
  apply List.Forall_forall. intros x Hx. rewrite forallb_forall in Hd. by apply Hd.
Qed.

Lemma passport_shape_intro ds :
  (8 <= length ds <= 9)%nat -> Forall is_digit_char ds ->
  passport_shape (80%N :: ds) = true.
Proof.
  intros [H8 H9] Hd. unfold passport_shape.
  apply Nat.leb_le in H8, H9. rewrite H8, H9, N.eqb_refl. simpl.
  apply forallb_forall. rewrite List.Forall_forall in Hd. exact Hd.
Qed.

(** What the validation accepts: the shape, or the shape and a final
    line feed (which [$] tolerates). *)
Lemma valid_passport_sound c :
  valid_passport c = true ->
  passport_shape c = true
  \/ exists c', c = c' ++ [10%N] /\ passport_shape c' = true.
Proof.
  unfold valid_passport, re_match. intros Hv.
  apply bool_decide_eq_true in Hv as [f Hf].
  destruct (match_here false passport_format [] c) as [e|] eqn:Hm;
    [|discriminate].
  apply match_here_sound in Hm. simpl in Hm.
  destruct Hm as (s1 & [_ ->] & s2 & (x & t & Ha & Hx & ->) & s3 & Hr & He & ->).
  destruct Hr as (n & Hn & Hn' & Hi). simpl in Ha. subst c.
  unfold lit_match in Hx. simpl in Hx. apply N.eqb_eq in Hx. subst x.
  apply iter_cls in Hi as (w & Hl & Hw & [_ Hs] & _). simpl in Hs. subst t.
  assert (Hd : Forall is_digit_char w).
  { eapply List.Forall_impl; [|exact Hw]. intros x Hx. simpl in Hx.
    unfold is_digit_char. by rewrite <- d09_match. }
  unfold at_end in He. destruct (m_after s3) as [|y [|? ?]] eqn:Ha;
    [|apply N.eqb_eq in He; subst y|discriminate].
  - left. rewrite app_nil_r. apply passport_shape_intro; [lia|exact Hd].
  - right. exists (80%N :: w). split; [reflexivity|].
    apply passport_shape_intro; [lia|exact Hd].
Qed.

(** The validation accepts every text of the shape. *)
Lemma valid_passport_complete c :
  passport_shape c = true -> valid_passport c = true.
Proof.
  intros Hc. apply passport_shape_inv in Hc as (ds & -> & Hl & Hd).
  unfold valid_passport. apply bool_decide_eq_true.
  assert (Hsplit : exists w t, ds = w ++ t /\ length w = 8%nat
                     /\ (t = [] \/ exists y, t = [y])).
  { exists (firstn 8 ds), (skipn 8 ds). split; [by rewrite firstn_skipn|].
    split; [rewrite length_firstn; lia|].
    assert (Hk : (length (skipn 8 ds) <= 1)%nat) by (rewrite length_skipn; lia).
    destruct (skipn 8 ds) as [|y [|? ?]]; simpl in Hk; eauto; lia. }
  destruct Hsplit as (w & t & -> & Hw8 & Ht). clear Hl.
  apply Forall_app in Hd as [Hd1 Hd2].
  do 8 (destruct w as [|? w]; [discriminate Hw8|]).
  destruct w; [|discriminate Hw8]. clear Hw8.
  repeat match goal with
         | Hf : Forall _ (_ :: _) |- _ => inversion Hf; clear Hf; subst
         end.
  unfold is_digit_char in *.
  destruct Ht as [->|[y ->]];
    repeat match goal with
           | Hf : Forall _ (_ :: _) |- _ => inversion Hf; clear Hf; subst
           end;
    unfold re_match, match_here; simpl; rewrite !d09_match;
    repeat match goal with
           | Hx : ascii_isdigit _ = true |- _ => rewrite Hx; clear Hx
           end; simpl; eauto.
Qed.

Lemma no_blank_sound items x :
  no_blank items = true -> cls_match true items x = true ->
  x <> 10%N /\ x <> 32%N.
Proof.
  unfold no_blank. intros Hn Hx. apply andb_true_iff in Hn as [H10 H32].
  apply negb_true_iff in H10, H32. split; intros ->; congruence.
Qed.

Lemma passport_patterns_checked :
  forallb (fun p => Bool.eqb (has_group p) (sets_group p)
                    && if has_group p then group_ends_in no_blank p
                       else ends_in no_blank p)
    PassportPatterns.passport_number = true.
Proof. vm_compute. reflexivity. Qed.

(** Every match of a passport pattern offers a candidate, and the
    candidate ends with a character that is neither line feed nor blank. *)
Lemma passport_candidate p text :
  In p PassportPatterns.passport_number ->
  Forall (fun m => exists w x, group1_or_0 p m = Some (w ++ [x])
                               /\ x <> 10%N /\ x <> 32%N)
    (re_finditer true p text).
Proof.
  intros Hp. pose proof passport_patterns_checked as Hc.
  rewrite forallb_forall in Hc. specialize (Hc p Hp).
  apply andb_true_iff in Hc as [_ Hc]. unfold group1_or_0.
  destruct (has_group p).
  - apply (finditer_group_ends true (fun x => x <> 10%N /\ x <> 32%N)).
    eapply group_ends_in_sound; [|exact Hc]. apply no_blank_sound.
  - eapply List.Forall_impl;
      [|apply (finditer_text_ends true (fun x => x <> 10%N /\ x <> 32%N));
        eapply ends_in_sound; [|exact Hc]; apply no_blank_sound].
    intros m (w & x & -> & Hx). eauto.
Qed.

Lemma upper_char_last x :
  x <> 10%N -> exists w y, upper_char x = w ++ [y] /\ y <> 10%N.
Proof.
  intros Hx. unfold upper_char. destruct (is_ascii x) eqn:Ha.
  - exists [], (ascii_upper x). split; [reflexivity|].
    unfold ascii_upper, in_range.
    destruct ((97 <=? x)%N && (x <=? 122)%N) eqn:Hr; [|exact Hx].
    apply andb_true_iff in Hr as [Hlo _]. apply N.leb_le in Hlo. lia.
  - unfold is_ascii in Ha. apply N.ltb_ge in Ha.
    destruct (ucd_upper_ok x Ha) as [Hne Hnl].
    destruct (exists_last Hne) as (w & y & Hw). exists w, y.
    split; [exact Hw|]. intros ->. apply Hnl. rewrite Hw.
    apply in_or_app. right. left. reflexivity.
Qed.

Lemma clean_passport_last w x :
  x <> 10%N -> x <> 32%N ->
  exists w' y, clean_passport (w ++ [x]) = w' ++ [y] /\ y <> 10%N.
Proof.
  intros H10 H32. unfold clean_passport.
  set (x' := if (x =? 79)%N then 48%N else x).
  assert (Hx' : x' <> 10%N /\ x' <> 32%N).
  { unfold x'. destruct (x =? 79)%N; [split; discriminate|auto]. }
  destruct Hx' as [H10' H32'].
  assert (E1 : str_replace 79 (u "0") (w ++ [x])
               = str_replace 79 (u "0") w ++ [x']).
  { unfold str_replace, x'. rewrite flat_map_app. simpl.
    destruct (x =? 79)%N; reflexivity. }
  rewrite E1. set (a := str_replace 79 (u "0") w).
  assert (E2 : str_replace 32 [] (a ++ [x']) = str_replace 32 [] a ++ [x']).
  { unfold str_replace. rewrite flat_map_app. simpl.
    apply N.eqb_neq in H32'. rewrite H32'. reflexivity. }
  rewrite E2. unfold str_upper. rewrite flat_map_app. simpl.
  rewrite app_nil_r.
  destruct (upper_char_last x' H10') as (w' & y & -> & Hy).
  eexists _, y. split; [|exact Hy]. rewrite app_assoc. reflexivity.
Qed.

(** On the candidates of the patterns the validation decides the shape. *)
Lemma valid_passport_shape w x :
  x <> 10%N -> x <> 32%N ->
  valid_passport (clean_passport (w ++ [x]))
  = passport_shape (clean_passport (w ++ [x])).
Proof.
  intros H10 H32.
  destruct (clean_passport_last w x H10 H32) as (w' & y & Hc & Hy).
  destruct (valid_passport _) eqn:Hv.
  - apply valid_passport_sound in Hv as [Hs|(c' & Hc' & _)]; [by rewrite Hs|].
    rewrite Hc in Hc'. apply app_inj_tail in Hc' as [_ ->]. contradiction.
  - destruct (passport_shape _) eqn:Hs; [|reflexivity].
    apply valid_passport_complete in Hs. congruence.
Qed.

(** The three loops compute the first candidate of the right shape. *)
Lemma passport_in_matches_spec p ms :
  Forall (fun m => exists w x, group1_or_0 p m = Some (w ++ [x])
                               /\ x <> 10%N /\ x <> 32%N) ms ->
  passport_in_matches p ms
  = Ok (find passport_shape
          (omap (fun m => clean_passport <$> group1_or_0 p m) ms)).
Proof.
  induction 1 as [|m ms (w & x & Hg & H10 & H32) _ IH]; simpl; [reflexivity|].
  rewrite Hg. simpl. rewrite (valid_passport_shape w x H10 H32).
  destruct (passport_shape _); [reflexivity|exact IH].
Qed.

Lemma find_app {A : Type} (f : A -> bool) (l1 l2 : list A) :
  find f (l1 ++ l2) = match find f l1 with Some x => Some x | None => find f l2 end.
Proof.
  induction l1 as [|a l1 IH]; simpl; [reflexivity|].
  destruct (f a); [reflexivity|exact IH].
Qed.

Lemma passport_in_patterns_spec ps text :
  (forall p, In p ps -> In p PassportPatterns.passport_number) ->
  passport_in_patterns ps text
  = Ok (find passport_shape
          (flat_map (fun p =>
             omap (fun m => clean_passport <$> group1_or_0 p m)
               (re_finditer true p text)) ps)).
Proof.
  induction ps as [|p ps IH]; intros Hps; simpl; [reflexivity|].
  rewrite (passport_in_matches_spec p _ (passport_candidate p text (Hps p (or_introl eq_refl)))).
  rewrite find_app. simpl.
  destruct (find passport_shape (omap _ (re_finditer true p text))) as [c|];
    [reflexivity|].
  apply IH. intros q Hq. apply Hps. by right.
Qed.

Lemma observation_accepted text :
  passport_in_patterns PassportPatterns.passport_number text
  = Ok (find passport_shape (observation_candidates text)).
Proof. apply passport_in_patterns_spec. auto. Qed.

Lemma extract_passport_number_spec d bag :
  _extract_passport_number d bag
  = Ok match first_accepted bag with
       | Some (source, c) =>
           set_confidence "passport_number" 0.95
             (set_method "passport_number" source
               (set_field "passport_number" (Some c) d))
       | None => d
       end.
Proof.
  induction bag as [|[source text] bag IH]; [reflexivity|].
  cbn [_extract_passport_number first_accepted].
  rewrite observation_accepted. unfold mbind, result_bind.
  destruct (find passport_shape (observation_candidates text)); [reflexivity|].
  exact IH.
Qed.

End PassportFacts.

(* ===================================================================== *)
(** * Dates                                                               *)
(* ===================================================================== *)

Section DateFacts.
Import PyStr Regex Extractor Spec.
Context `{UnicodeData}.

(** ** Splitting and reading what the resolver has written *)

Lemma str_split_nonempty sep s : str_split sep s <> [].
Proof.
  destruct s as [|c t]; simpl; [discriminate|].
  destruct (c =? sep)%N; [discriminate|].
  destruct (str_split sep t); discriminate.
Qed.

Lemma str_split_no_sep sep a :
  existsb (N.eqb sep) a = false -> str_split sep a = [a].
Proof.
  induction a as [|c a IH]; simpl; [reflexivity|]. intros Hn.
  apply orb_false_iff in Hn as [Hc Ha]. rewrite N.eqb_sym, Hc, (IH Ha).
  reflexivity.
Qed.

Lemma str_split_app sep a b :
  existsb (N.eqb sep) a = false ->
  str_split sep (a ++ sep :: b) = a :: str_split sep b.
Proof.
  induction a as [|c a IH]; simpl; intros Hn.
  - by rewrite N.eqb_refl.
  - apply orb_false_iff in Hn as [Hc Ha]. rewrite N.eqb_sym, Hc, (IH Ha).
    reflexivity.
Qed.

Lemma in_Z_range lo len n :
  (Z.of_nat lo <= n < Z.of_nat lo + Z.of_nat len)%Z ->
  In n (map Z.of_nat (seq lo len)).
Proof.
  intros Hn. apply in_map_iff. exists (Z.to_nat n). split; [lia|].
  apply in_seq. lia.
Qed.

Lemma days_read_back :
  forallb (reads_back fmt_02d) (map Z.of_nat (seq 1 31)) = true.
Proof. vm_compute. reflexivity. Qed.

Lemma years_read_back :
  forallb (reads_back fmt_d) (map Z.of_nat (seq 1900 201)) = true.
Proof. vm_compute. reflexivity. Qed.

Lemma reads_back_elim f n :
  reads_back f n = true ->
  existsb (N.eqb 45) (f n) = false /\ py_int (f n) = Some n /\ f n <> [].
Proof.
  unfold reads_back. intros Hr.
  apply andb_true_iff in Hr as [Hr Hne]. apply andb_true_iff in Hr as [Hd Hi].
  apply negb_true_iff in Hd, Hne.
  apply bool_decide_eq_true in Hi. apply bool_decide_eq_false in Hne. auto.
Qed.

Lemma fmt_02d_reads_back n :
  (1 <= n <= 31)%Z -> reads_back fmt_02d n = true.
Proof.
  intros Hn. pose proof days_read_back as Hall.
  rewrite forallb_forall in Hall. apply Hall. apply in_Z_range. lia.
Qed.

Lemma fmt_d_reads_back n :
  (1900 <= n <= 2100)%Z -> reads_back fmt_d n = true.
Proof.
  intros Hn. pose proof years_read_back as Hall.
  rewrite forallb_forall in Hall. apply Hall. apply in_Z_range. lia.
Qed.

Lemma date_of_split k :
  valid_ymd k ->
  let '(year, month, day) := k in
  str_split 45 (date_of k) = [fmt_02d day; fmt_02d month; fmt_d year].
Proof.
  destruct k as [[year month] day]. intros (Hd & Hm & Hy).
  destruct (reads_back_elim _ _ (fmt_02d_reads_back day Hd)) as (Hd1 & _ & _).
  destruct (reads_back_elim _ _ (fmt_02d_reads_back month ltac:(lia))) as (Hm1 & _ & _).
  destruct (reads_back_elim _ _ (fmt_d_reads_back year Hy)) as (Hy1 & _ & _).
  unfold date_of, fmt_date. change (u "-") with [45%N]. simpl app.
  rewrite (str_split_app _ _ _ Hd1). rewrite (str_split_app _ _ _ Hm1).
  by rewrite (str_split_no_sep _ _ Hy1).
Qed.

(** The sort key of a stored date is the date. *)
Lemma date_key_date_of k : valid_ymd k -> date_key (date_of k) = Ok k.
Proof.
  intros Hk. pose proof (date_of_split k Hk) as Hs.
  destruct k as [[year month] day]. destruct Hk as (Hd & Hm & Hy).
  destruct (reads_back_elim _ _ (fmt_02d_reads_back day Hd)) as (_ & Hd1 & _).
  destruct (reads_back_elim _ _ (fmt_02d_reads_back month ltac:(lia))) as (_ & Hm1 & _).
  destruct (reads_back_elim _ _ (fmt_d_reads_back year Hy)) as (_ & Hy1 & _).
  unfold date_key. rewrite Hs. unfold py_index. simpl.
  unfold int_or_raise. rewrite Hy1, Hm1, Hd1. reflexivity.
Qed.

Lemma date_of_nonempty k : valid_ymd k -> date_of k <> [].
Proof.
  destruct k as [[year month] day]. intros (Hd & _ & _).
  destruct (reads_back_elim _ _ (fmt_02d_reads_back day Hd)) as (_ & _ & Hne).
  unfold date_of, fmt_date. intros Happ. apply app_eq_nil in Happ as [? _].
  contradiction.
Qed.

(** What the validation loop keeps is a stored date of a valid triple. *)
Lemma validate_date_valid date s :
  validate_date date = Some s -> exists k, valid_ymd k /\ s = date_of k.
Proof.
  unfold validate_date.
  destruct (str_split 45 _) as [|p0 [|p1 [|p2 [|? ?]]]]; try discriminate.
  destruct (py_int p0) as [day|]; [|discriminate].
  destruct (py_int p1) as [month|]; [|discriminate].
  destruct (py_int p2) as [year|]; [|discriminate].
  destruct (_ && _)%bool eqn:Hr; [|discriminate].
  intros [= <-]. exists (year, month, day). split; [|reflexivity].
  repeat (apply andb_true_iff in Hr as [Hr ?]). unfold valid_ymd. lia.
Qed.

Lemma date_texts_valid text :
  Forall (fun s => exists k, valid_ymd k /\ s = date_of k) (date_texts text).
Proof.
  unfold date_texts. apply List.Forall_forall. intros s Hs.
  apply list_elem_of_In, list_elem_of_omap in Hs as (date & _ & Hv).
  by apply validate_date_valid in Hv.
Qed.

(** ** Sorting *)

Lemma key_le_total a b : key_le a b = true \/ key_le b a = true.
Proof.
  destruct a as [[y1 m1] d1], b as [[y2 m2] d2]. unfold key_le.
  destruct (Z.ltb_spec y1 y2), (Z.ltb_spec y2 y1),
           (Z.eqb_spec y1 y2), (Z.eqb_spec y2 y1),
           (Z.ltb_spec m1 m2), (Z.ltb_spec m2 m1),
           (Z.eqb_spec m1 m2), (Z.eqb_spec m2 m1),
           (Z.leb_spec d1 d2), (Z.leb_spec d2 d1); simpl; auto; lia.
Qed.

Lemma key_le_spec a b : key_le a b = true <-> ymd_lt a b \/ a = b.
Proof.
  destruct a as [[y1 m1] d1], b as [[y2 m2] d2]. unfold key_le, ymd_lt.
  destruct (Z.ltb_spec y1 y2), (Z.eqb_spec y1 y2),
           (Z.ltb_spec m1 m2), (Z.eqb_spec m1 m2),
           (Z.leb_spec d1 d2); simpl; split;
    try (intros [?|[= -> -> ->]]); try discriminate; try lia; try tauto;
    intros _; destruct (Z.eq_dec d1 d2); try (right; congruence);
    left; lia.
Qed.

Lemma ymd_lt_trans a b c : ymd_lt a b -> ymd_lt b c -> ymd_lt a c.
Proof.
  destruct a as [[y1 m1] d1], b as [[y2 m2] d2], c as [[y3 m3] d3].
  unfold ymd_lt. lia.
Qed.

Lemma key_le_trans a b c :
  key_le a b = true -> key_le b c = true -> key_le a c = true.
Proof.
  rewrite !key_le_spec. intros [Hab| ->] [Hbc| ->]; eauto using ymd_lt_trans.
Qed.

Lemma insert_keyed_perm x l : Permutation (insert_keyed x l) (x :: l).
Proof.
  induction l as [|y l IH]; simpl; [reflexivity|].
  destruct (key_le (fst x) (fst y)); [reflexivity|].
  rewrite IH. apply perm_swap.
Qed.

Lemma sort_keyed_perm l : Permutation (sort_keyed l) l.
Proof.
  induction l as [|x l IH]; simpl; [reflexivity|].
  rewrite insert_keyed_perm. by constructor.
Qed.

Lemma insert_keyed_sorted x l :
  StronglySorted keyed_le l -> StronglySorted keyed_le (insert_keyed x l).
Proof.
  induction 1 as [|y l Hl IH Hy]; simpl; [repeat constructor|].
  destruct (key_le (fst x) (fst y)) eqn:Hxy.
  - constructor; [by constructor|]. constructor; [exact Hxy|].
    eapply List.Forall_impl; [|exact Hy]. intros z Hz.
    eapply key_le_trans; eassumption.
  - constructor; [exact IH|].
    eapply Permutation_Forall; [symmetry; apply insert_keyed_perm|].
    constructor; [|exact Hy].
    destruct (key_le_total (fst x) (fst y)); [congruence|assumption].
Qed.

Lemma sort_keyed_sorted l : StronglySorted keyed_le (sort_keyed l).
Proof.
  induction l as [|x l IH]; simpl; [constructor|].
  by apply insert_keyed_sorted.
Qed.

Lemma sorted_nodup_strict (ks : list (Z * Z * Z)) :
  StronglySorted (fun a b => key_le a b = true) ks -> List.NoDup ks ->
  StronglySorted ymd_lt ks.
Proof.
  induction 1 as [|k ks Hs IH Hk]; intros Hnd; [constructor|].
  inversion Hnd as [|? ? Hnin Hnd']; subst. constructor; [auto|].
  rewrite List.Forall_forall in Hk |- *. intros z Hz.
  destruct (proj1 (key_le_spec k z) (Hk z Hz)) as [Hlt| ->]; [exact Hlt|].
  contradiction.
Qed.

Lemma traverse_map {A B : Type} (f : A -> result B) (g : A -> B) xs :
  Forall (fun x => f x = Ok (g x)) xs -> traverse f xs = Ok (map g xs).
Proof.
  induction 1 as [|x xs Hx _ IH]; simpl; [reflexivity|].
  rewrite Hx, IH. reflexivity.
Qed.

Lemma Forall_exists_map {A B : Type} (P : B -> Prop) (f : B -> A) xs :
  Forall (fun x => exists k, P k /\ x = f k) xs ->
  exists ks, xs = map f ks /\ Forall P ks.
Proof.
  induction 1 as [|x xs (k & Hk & ->) _ (ks & -> & Hks)].
  - exists []. auto.
  - exists (k :: ks). auto.
Qed.

Lemma traverse_dates ks :
  Forall valid_ymd ks ->
  traverse (fun x => k ← date_key x; mret (k, x)) (map date_of ks)
  = Ok (map (fun k => (k, date_of k)) ks).
Proof.
  induction 1 as [|k ks Hk _ IH]; [reflexivity|].
  cbn [map traverse]. rewrite (date_key_date_of k Hk), IH. reflexivity.
Qed.

(** Sorting stored dates: the result is the ascending list of the dates,
    whatever the order of the input. *)
Lemma sorted_by_date_spec xs :
  Forall (fun s => exists k, valid_ymd k /\ s = date_of k) xs ->
  List.NoDup xs ->
  exists ks, sorted_by_date xs = Ok (map date_of ks)
             /\ Forall valid_ymd ks /\ StronglySorted ymd_lt ks
             /\ (forall s, In s xs <-> In s (map date_of ks)).
Proof.
  intros Hxs Hnd. apply Forall_exists_map in Hxs as (ks0 & -> & Hv).
  set (keyed := map (fun k => (k, date_of k)) ks0).
  pose proof (sort_keyed_perm keyed) as Hperm.
  pose proof (sort_keyed_sorted keyed) as Hsorted.
  assert (Hsnd : Forall (fun p => snd p = date_of (fst p)) (sort_keyed keyed)).
  { eapply Permutation_Forall; [symmetry; exact Hperm|].
    unfold keyed. apply List.Forall_forall. intros p Hp.
    apply in_map_iff in Hp as (k & <- & _). reflexivity. }
  assert (Hfst : Permutation (map fst (sort_keyed keyed)) ks0).
  { rewrite Hperm. unfold keyed. rewrite map_map. simpl. by rewrite map_id. }
  exists (map fst (sort_keyed keyed)). split; [|split; [|split]].
  - unfold sorted_by_date. rewrite (traverse_dates ks0 Hv). fold keyed.
    cbn [mbind result_bind mret result_ret]. f_equal.
    rewrite map_map. apply map_ext_Forall. exact Hsnd.
  - eapply Permutation_Forall; [symmetry; exact Hfst|exact Hv].
  - apply sorted_nodup_strict.
    + clear -Hsorted. induction Hsorted as [|p l Hl IH Hp]; simpl; constructor;
        [exact IH|]. apply Forall_map. exact Hp.
    + eapply Permutation_NoDup; [symmetry; exact Hfst|].
      eapply NoDup_map_inv. exact Hnd.
  - intros s0. split; intros Hin.
    + eapply Permutation_in; [|exact Hin]. apply Permutation_map.
      symmetry. exact Hfst.
    + eapply Permutation_in; [|exact Hin]. apply Permutation_map. exact Hfst.
Qed.

Lemma list_of_set_spec xs :
  List.NoDup (list_of_set xs) /\ (forall s, In s (list_of_set xs) <-> In s xs).
Proof.
  unfold list_of_set. split.
  - apply NoDup_ListNoDup, NoDup_elements.
  - intros s0. rewrite <- !list_elem_of_In, elem_of_elements.
    apply elem_of_list_to_set.
Qed.

(** ** Python indices *)

Lemma py_index_nat {A : Type} (xs : list A) (n : nat) x :
  xs !! n = Some x -> py_index xs (Z.of_nat n) = Ok x.
Proof.
  intros Hx. unfold py_index.
  assert (E : (Z.of_nat n <? 0)%Z = false) by (apply Z.ltb_ge; lia).
  by rewrite !E, Nat2Z.id, Hx.
Qed.

Lemma py_index_neg {A : Type} (xs : list A) (n : nat) x :
  (1 <= n <= length xs)%nat -> xs !! (length xs - n)%nat = Some x ->
  py_index xs (- Z.of_nat n) = Ok x.
Proof.
  intros Hn Hx. unfold py_index.
  assert (E1 : (- Z.of_nat n <? 0)%Z = true) by (apply Z.ltb_lt; lia).
  assert (E2 : (- Z.of_nat n + Z.of_nat (length xs) <? 0)%Z = false)
    by (apply Z.ltb_ge; lia).
  rewrite E1, E2.
  replace (Z.to_nat (- Z.of_nat n + Z.of_nat (length xs)))
    with (length xs - n)%nat by lia.
  by rewrite Hx.
Qed.

Lemma lookup_map_date ks (i : nat) :
  map date_of ks !! i = date_of <$> ks !! i.
Proof. apply (list_lookup_fmap date_of ks i). Qed.

(** ** What [_extract_dates] does *)

Lemma extract_dates_spec d text :
  exists ks,
    Forall valid_ymd ks /\ StronglySorted ymd_lt ks
    /\ (forall s, In s (date_texts text) <-> In s (map date_of ks))
    /\ _extract_dates d text = Ok (assign_dates ks d).
Proof.
  destruct (list_of_set_spec (date_texts text)) as [Hnd Hin].
  destruct (sorted_by_date_spec (list_of_set (date_texts text))) as
    (ks & Hs & Hv & Hsorted & Hmem); [|exact Hnd|].
  { apply List.Forall_forall. intros s0 Hs0. apply Hin in Hs0.
    pose proof (date_texts_valid text) as Hall.
    rewrite List.Forall_forall in Hall. auto. }
  exists ks. split; [exact Hv|]. split; [exact Hsorted|]. split.
  { intros s0. rewrite <- Hmem. symmetry. apply Hin. }
  unfold _extract_dates. rewrite Hs. cbn [mbind result_bind].
  rewrite length_map. unfold assign_dates.
  destruct ks as [|a [|b [|c rest]]]; try reflexivity.
  set (ks := a :: b :: c :: rest).
  assert (Hlen : (3 <= length ks)%nat) by (simpl; lia).
  assert (E3 : (3 <=? length ks)%nat = true) by (by apply Nat.leb_le).
  assert (E2 : (2 <=? length ks)%nat = true) by (apply Nat.leb_le; lia).
  assert (E1 : (1 <=? length ks)%nat = true) by (apply Nat.leb_le; lia).
  rewrite E1, E2, E3.
  destruct (lookup_lt_is_Some_2 ks (length ks - 2)%nat ltac:(lia)) as [ki Hki].
  destruct (lookup_lt_is_Some_2 ks (length ks - 1)%nat ltac:(lia)) as [ke Hke].
  assert (Hexpiry : expiry_of ks = Some ke).
  { unfold expiry_of. rewrite E3, last_lookup, <- Hke. f_equal; lia. }
  assert (Hissue : issue_of ks = Some ki).
  { rewrite <- Hki. unfold ks. reflexivity. }
  assert (Hbirth : birth_of ks = Some a) by reflexivity.
  rewrite Hissue, Hexpiry, Hbirth.
  assert (P0 : py_index (map date_of ks) 0 = Ok (date_of a)) by reflexivity.
  assert (P2 : py_index (map date_of ks) (-2) = Ok (date_of ki)).
  { apply (py_index_neg (map date_of ks) 2); rewrite length_map; [lia|].
    rewrite lookup_map_date, Hki. reflexivity. }
  assert (P1 : py_index (map date_of ks) (-1) = Ok (date_of ke)).
  { apply (py_index_neg (map date_of ks) 1); rewrite length_map; [lia|].
    rewrite lookup_map_date, Hke. reflexivity. }
  rewrite P0, P2, P1. reflexivity.
Qed.

End DateFacts.

(* ===================================================================== *)
(** * The result record                                                   *)
(* ===================================================================== *)

Section RecordFacts.
Import PyStr Regex Extractor Spec.
Context `{UnicodeData}.

Lemma not_in_cons {A : Type} (x y : A) l : ~ In x (y :: l) -> x <> y /\ ~ In x l.
Proof. simpl. intros Hn. split; [intros ->|]; tauto. Qed.

Lemma frame_refl ks d : frame ks d d.
Proof. intros k _. auto. Qed.

Lemma frame_trans ks1 ks2 d1 d2 d3 :
  frame ks1 d1 d2 -> frame ks2 d2 d3 -> frame (ks1 ++ ks2) d1 d3.
Proof.
  intros H12 H23 k Hk.
  destruct (H12 k) as (? & ? & ?); [intros ?; apply Hk, in_or_app; auto|].
  destruct (H23 k) as (? & ? & ?); [intros ?; apply Hk, in_or_app; auto|].
  repeat split; congruence.
Qed.

Lemma stores_frame k d d' : stores k d d' -> frame [k] d d'.
Proof.
  intros [->|(v & q & Hf & Hc & Hm & _)]; [apply frame_refl|].
  intros j Hj. apply not_in_cons in Hj as [Hj _].
  rewrite Hf, Hc, !lookup_insert_ne by congruence. auto.
Qed.

Lemma get_insert d d' k v j :
  fields d' = <[k := v]> (fields d) ->
  get d' j = if decide (k = j) then v else get d j.
Proof.
  intros Hf. unfold get. rewrite Hf, lookup_insert.
  by destruct (decide (k = j)).
Qed.

Lemma stores_covered but k d d' :
  stores k d d' -> covered but d -> covered but d'.
Proof.
  intros [->|(v & q & Hf & Hc & _ & _)] Hcov; [exact Hcov|].
  intros j Hj Hg. rewrite Hc, lookup_insert.
  rewrite (get_insert d d' k v j Hf) in Hg.
  destruct (decide (k = j)); [eauto|]. by apply Hcov.
Qed.

Lemma stores_nonempty k d d' :
  stores k d d' -> all_nonempty d -> all_nonempty d'.
Proof.
  intros [->|(v & q & Hf & _ & _ & Hv)] Hne; [exact Hne|].
  intros j x Hg. rewrite (get_insert d d' k v j Hf) in Hg.
  destruct (decide (k = j)); [by apply Hv|by apply (Hne j)].
Qed.

Lemma stores_assign k v q d :
  (forall x, v = Some x -> x <> []) -> stores k d (assign k v q d).
Proof.
  intros Hv. destruct v as [x|]; [|by left]. right. exists (Some x), q.
  simpl. auto.
Qed.

(** ** The initial record *)

Lemma initial_get k : get initial_data k = None.
Proof.
  unfold get, initial_data. simpl.
  repeat (rewrite lookup_insert; case_decide; [reflexivity|]).
  by rewrite lookup_empty.
Qed.

Lemma initial_covered but : covered but initial_data.
Proof. intros k _ Hk. by rewrite initial_get in Hk. Qed.

Lemma initial_nonempty : all_nonempty initial_data.
Proof. intros k v Hk. by rewrite initial_get in Hk. Qed.

(** ** The steps of the resolver *)

Lemma passport_shape_nonempty c : passport_shape c = true -> c <> [].
Proof. by destruct c. Qed.

Lemma find_some_In {A : Type} (f : A -> bool) l x :
  find f l = Some x -> In x l /\ f x = true.
Proof. apply find_some. Qed.

Lemma first_accepted_shape bag source c :
  first_accepted bag = Some (source, c) -> passport_shape c = true.
Proof.
  induction bag as [|[src text] bag IH]; simpl; [discriminate|].
  destruct (find passport_shape (observation_candidates text)) eqn:Hf.
  - intros [= <- <-]. by apply find_some in Hf as [_ Hf].
  - exact IH.
Qed.

Lemma extract_passport_number_stores d bag :
  exists d', _extract_passport_number d bag = Ok d'
             /\ stores "passport_number" d d'.
Proof.
  eexists. split; [apply extract_passport_number_spec|].
  destruct (first_accepted bag) as [[source c]|] eqn:Hf; [|by left].
  right. exists (Some c), 0.95%Q. simpl. repeat split; auto.
  - intros j Hj. by rewrite lookup_insert_ne.
  - intros x [= <-]. eapply passport_shape_nonempty, first_accepted_shape.
    exact Hf.
Qed.

Lemma national_id_patterns_checked :
  forallb (fun p => Bool.eqb (has_group p) (sets_group p))
    PassportPatterns.national_id = true.
Proof. reflexivity. Qed.

Lemma national_id_candidate p text :
  In p PassportPatterns.national_id ->
  Forall (fun m => is_Some (group1_or_0 p m)) (re_finditer false p text).
Proof.
  intros Hp. pose proof national_id_patterns_checked as Hc.
  rewrite forallb_forall in Hc. specialize (Hc p Hp).
  apply eqb_prop in Hc. unfold group1_or_0.
  destruct (has_group p).
  - apply finditer_group_set. by symmetry.
  - apply List.Forall_forall. eauto.
Qed.

Lemma national_id_empty_invalid :
  re_match false national_id_format [] = None.
Proof. reflexivity. Qed.

Lemma national_id_in_matches_ok p ms :
  Forall (fun m => is_Some (group1_or_0 p m)) ms ->
  exists o, national_id_in_matches p ms = Ok o
            /\ forall c, o = Some c -> c <> [].
Proof.
  induction 1 as [|m ms [c Hc] _ (o & IH & Hne)]; simpl.
  - exists None. split; [reflexivity|discriminate].
  - rewrite Hc.
    destruct (bool_decide _) eqn:Hv; [|eauto].
    exists (Some (clean_national_id c)). split; [reflexivity|].
    intros c' [= <-] Hnil. rewrite Hnil, national_id_empty_invalid in Hv.
    apply bool_decide_eq_true in Hv. by destruct Hv.
Qed.

Lemma national_id_in_patterns_ok ps text :
  (forall p, In p ps -> In p PassportPatterns.national_id) ->
  exists o, national_id_in_patterns ps text = Ok o
            /\ forall c, o = Some c -> c <> [].
Proof.
  induction ps as [|p ps IH]; intros Hps; simpl.
  - exists None. split; [reflexivity|discriminate].
  - destruct (national_id_in_matches_ok p _
                (national_id_candidate p text (Hps p (or_introl eq_refl))))
      as (o & -> & Hne).
    cbn [mbind result_bind]. destruct o as [c|]; [eauto|].
    apply IH. intros q Hq. apply Hps. by right.
Qed.

Lemma extract_national_id_stores d text :
  exists d', _extract_national_id d text = Ok d' /\ stores "national_id" d d'.
Proof.
  unfold _extract_national_id.
  destruct (national_id_in_patterns_ok PassportPatterns.national_id text)
    as (o & -> & Hne); [auto|].
  cbn [mbind result_bind]. destruct o as [c|].
  - eexists. split; [reflexivity|]. right. exists (Some c), 0.9%Q.
    simpl. auto.
  - exists d. split; [reflexivity|by left].
Qed.

(** Dates *)

Lemma issue_of_In ks k : issue_of ks = Some k -> In k ks.
Proof.
  unfold issue_of. intros Hk. apply list_elem_of_In.
  destruct (length ks) as [|[|[|n]]]; try discriminate;
    eapply list_elem_of_lookup_2; exact Hk.
Qed.

Lemma expiry_of_In ks k : expiry_of ks = Some k -> In k ks.
Proof.
  unfold expiry_of. destruct (3 <=? length ks)%nat; [|discriminate].
  rewrite last_lookup. intros Hk. apply list_elem_of_In.
  eapply list_elem_of_lookup_2; exact Hk.
Qed.

Lemma birth_of_In ks k : birth_of ks = Some k -> In k ks.
Proof. destruct ks; simpl; [discriminate|]. intros [= ->]. by left. Qed.

Lemma date_value_nonempty ks (o : option (Z * Z * Z)) :
  Forall valid_ymd ks -> (forall k, o = Some k -> In k ks) ->
  forall x, date_of <$> o = Some x -> x <> [].
Proof.
  intros Hv Ho x. destruct o as [k|]; [|discriminate]. intros [= <-].
  apply date_of_nonempty. rewrite List.Forall_forall in Hv. auto.
Qed.

Lemma assign_dates_stores ks d :
  Forall valid_ymd ks ->
  exists d1 d2, stores "date_of_birth" d d1 /\ stores "date_of_issue" d1 d2
                /\ stores "date_of_expiry" d2 (assign_dates ks d).
Proof.
  intros Hv. unfold assign_dates. eexists _, _.
  split; [|split]; apply stores_assign; apply (date_value_nonempty ks _ Hv).
  - apply birth_of_In.
  - apply issue_of_In.
  - apply expiry_of_In.
Qed.

(** Full name *)

Lemma name_candidates_ok bag :
  Forall (fun c => name_ok (fst c) = true) (name_candidates bag).
Proof.
  unfold name_candidates, names_in_text. apply List.Forall_forall. intros c Hc.
  apply in_flat_map in Hc as (st & _ & Hc).
  apply in_flat_map in Hc as (pattern & _ & Hc).
  apply in_flat_map in Hc as (m & _ & Hc).
  destruct (name_ok (str_strip m)) eqn:Hok; [|contradiction].
  destruct Hc as [<-|[]]. exact Hok.
Qed.

Lemma name_ok_nonempty name : name_ok name = true -> name <> [].
Proof.
  unfold name_ok. intros Hok Hnil. subst name.
  apply andb_true_iff in Hok as [Hok _]. apply andb_true_iff in Hok as [_ Hl].
  discriminate.
Qed.

Lemma first_preferred_In sources cands c :
  first_preferred sources cands = Some c -> In c cands.
Proof.
  induction sources as [|source rest IH]; simpl; [discriminate|].
  unfold from_source.
  destruct (find _ cands) eqn:Hf; [|exact IH].
  intros [= <-]. by apply find_some in Hf as [Hf _].
Qed.

Lemma longest_from_In cands : forall best,
  In (longest_from best cands) (best :: cands).
Proof.
  induction cands as [|c cands IH]; intros best; simpl; [by left|].
  destruct (length (fst best) <? length (fst c))%nat.
  - right. apply IH.
  - destruct (IH best) as [Hb|Hc]; auto.
Qed.

Lemma extract_name_stores d bag :
  stores "full_name" d (_extract_name d bag).
Proof.
  unfold _extract_name. pose proof (name_candidates_ok bag) as Hok.
  rewrite List.Forall_forall in Hok.
  destruct (name_candidates bag) as [|c cs]; [by left|].
  destruct (first_preferred preferred_sources (c :: cs)) as [[name src]|] eqn:Hp.
  - right. exists (Some name), 0.85%Q. simpl. repeat split; auto.
    + intros j Hj. by rewrite lookup_insert_ne.
    + intros x [= <-]. apply first_preferred_In in Hp.
      apply (name_ok_nonempty name), (Hok _ Hp).
  - right. exists (Some (fst (longest_from c cs))), 0.75%Q. simpl.
    repeat split; auto.
    + intros j Hj. by rewrite lookup_insert_ne.
    + intros x [= <-]. apply name_ok_nonempty, Hok, longest_from_In.
Qed.

(** Sex *)

Lemma upper_char_nonempty c : upper_char c <> [].
Proof.
  unfold upper_char. destruct (is_ascii c) eqn:Ha; [discriminate|].
  unfold is_ascii in Ha. apply N.ltb_ge in Ha.
  by destruct (ucd_upper_ok c Ha).
Qed.

Lemma sex_in_patterns_stores ps d text :
  stores "sex" d (sex_in_patterns ps d text).
Proof.
  induction ps as [|pattern rest IH]; simpl; [by left|].
  destruct (re_search true pattern text) as [m|]; [|exact IH].
  right. exists (sex_value (group1_or_0 pattern m)), 0.95%Q. simpl.
  repeat split; auto.
  intros x. unfold sex_value.
  destruct (group1_or_0 pattern m) as [[|c ?]|]; try discriminate.
  intros [= <-]. apply upper_char_nonempty.
Qed.

(** Place of birth *)

Lemma places_nonempty :
  forallb (fun place => negb (bool_decide (place = [])))
    PassportPatterns.sudan_places = true.
Proof. reflexivity. Qed.

Lemma extract_place_of_birth_stores d text :
  stores "place_of_birth" d (_extract_place_of_birth d text).
Proof.
  unfold _extract_place_of_birth.
  destruct (find _ PassportPatterns.sudan_places) as [place|] eqn:Hf;
    [|by left].
  right. exists (Some place), 0.85%Q. simpl. repeat split; auto.
  intros x [= <-]. apply find_some in Hf as [Hin _].
  pose proof places_nonempty as Hall. rewrite forallb_forall in Hall.
  specialize (Hall _ Hin). apply negb_true_iff, bool_decide_eq_false in Hall.
  exact Hall.
Qed.

(** Nationality *)

Lemma extract_nationality_cases d text :
  _extract_nationality d text = d
  \/ _extract_nationality d text
     = set_confidence "nationality" 0.95
         (set_field "passport_type" (Some (u "PC"))
           (set_field "country_code" (Some (u "SDN"))
             (set_field "nationality" (Some (u "SUDANESE")) d))).
Proof. unfold _extract_nationality. destruct (existsb _ _); auto. Qed.

Lemma extract_nationality_frame d text :
  frame nationality_keys d (_extract_nationality d text).
Proof.
  destruct (extract_nationality_cases d text) as [-> | ->];
    [apply frame_refl|].
  intros k Hk. apply not_in_cons in Hk as [H1 Hk].
  apply not_in_cons in Hk as [H2 Hk]. apply not_in_cons in Hk as [H3 _].
  simpl. rewrite !lookup_insert_ne by congruence. auto.
Qed.

Lemma extract_nationality_covered d text :
  covered ["country_code"; "passport_type"]%string d ->
  covered ["country_code"; "passport_type"]%string (_extract_nationality d text).
Proof.
  intros Hcov. destruct (extract_nationality_cases d text) as [-> | ->];
    [exact Hcov|].
  intros k Hk. apply not_in_cons in Hk as [H1 Hk].
  apply not_in_cons in Hk as [H2 _]. unfold get. simpl.
  rewrite !lookup_insert_ne by congruence.
  rewrite !lookup_insert. destruct (decide ("nationality"%string = k)); [eauto|].
  intros Hg. apply Hcov; [|exact Hg]. simpl. intuition congruence.
Qed.

Lemma extract_nationality_nonempty d text :
  all_nonempty d -> all_nonempty (_extract_nationality d text).
Proof.
  intros Hne. destruct (extract_nationality_cases d text) as [-> | ->];
    [exact Hne|].
  intros k v. unfold get. simpl. rewrite !lookup_insert.
  repeat (case_decide; [by intros [= <-]|]). apply (Hne k v).
Qed.

(** The three nationality fields are set together or not at all. *)
Lemma extract_nationality_together d text :
  get d "nationality" = None -> get d "country_code" = None ->
  get d "passport_type" = None ->
  present (_extract_nationality d text) "country_code"
  = present (_extract_nationality d text) "nationality"
  /\ present (_extract_nationality d text) "passport_type"
     = present (_extract_nationality d text) "nationality".
Proof.
  intros Hn Hc Hp. unfold present.
  destruct (extract_nationality_cases d text) as [-> | ->].
  - by rewrite Hn, Hc, Hp.
  - unfold get. simpl. rewrite !lookup_insert.
    split; repeat (case_decide; try done).
Qed.

(** ** The chain of the steps *)

Ltac not_in := simpl; intuition discriminate.

Lemma frame_get ks d d' k :
  frame ks d d' -> ~ In k ks -> get d' k = get d k.
Proof. intros Hf Hk. unfold get. by destruct (Hf k Hk) as (-> & _ & _). Qed.

Lemma frame_confidence ks d d' k :
  frame ks d d' -> ~ In k ks ->
  confidence_scores d' !! k = confidence_scores d !! k.
Proof. intros Hf Hk. by destruct (Hf k Hk) as (_ & -> & _). Qed.


(** The record after each step of [_smart_field_extraction]. *)
Lemma smart_field_extraction_steps bag :
  exists d1 d2 ks d3 d4 d5 d6,
    _extract_passport_number initial_data bag = Ok d1
    /\ stores "national_id" d1 d2
    /\ (Forall valid_ymd ks /\ StronglySorted ymd_lt ks
        /\ forall s, In s (date_texts (combined_text bag))
                     <-> In s (map date_of ks))
    /\ d3 = assign_dates ks d2
    /\ d4 = _extract_name d3 bag
    /\ d5 = _extract_sex d4 (combined_text bag)
    /\ d6 = _extract_place_of_birth d5 (combined_text bag)
    /\ _smart_field_extraction bag
       = Ok (_extract_nationality d6 (combined_text bag)).
Proof.
  unfold _smart_field_extraction. fold (combined_text bag).
  destruct (extract_passport_number_stores initial_data bag) as (d1 & E1 & _).
  destruct (extract_national_id_stores d1 (combined_text bag)) as (d2 & E2 & S2).
  destruct (extract_dates_spec d2 (combined_text bag)) as (ks & Hv & Hs & Hm & E3).
  exists d1, d2, ks. eexists _, _, _, _.
  split; [exact E1|]. split; [exact S2|]. split; [auto|].
  split; [reflexivity|]. split; [reflexivity|]. split; [reflexivity|].
  split; [reflexivity|].
  rewrite E1. cbn [mbind result_bind]. rewrite E2. cbn [mbind result_bind].
  rewrite E3. reflexivity.
Qed.

(** The frames of the steps after the first and after the dates. *)
Lemma frame_after_dates d3 bag text :
  frame (["full_name"; "sex"; "place_of_birth"]%string ++ nationality_keys) d3
    (_extract_nationality
       (_extract_place_of_birth (_extract_sex (_extract_name d3 bag) text) text)
       text).
Proof.
  change (["full_name"; "sex"; "place_of_birth"]%string ++ nationality_keys)
    with ((["full_name"%string] ++ ["sex"%string] ++ ["place_of_birth"%string])
          ++ nationality_keys).
  eapply frame_trans; [|apply extract_nationality_frame].
  eapply frame_trans; [apply stores_frame, extract_name_stores|].
  eapply frame_trans; [apply stores_frame, sex_in_patterns_stores|].
  apply stores_frame, extract_place_of_birth_stores.
Qed.

Lemma frame_dates ks d :
  Forall valid_ymd ks ->
  frame ["date_of_birth"; "date_of_issue"; "date_of_expiry"]%string d
    (assign_dates ks d).
Proof.
  intros Hv. destruct (assign_dates_stores ks d Hv) as (d1 & d2 & S1 & S2 & S3).
  change ["date_of_birth"; "date_of_issue"; "date_of_expiry"]%string
    with (["date_of_birth"%string] ++ ["date_of_issue"%string]
          ++ ["date_of_expiry"%string]).
  eapply frame_trans; [apply stores_frame, S1|].
  eapply frame_trans; apply stores_frame; eassumption.
Qed.

(** The resolver returns; in its record every field with a value, the
    country code and the document type apart, has a confidence entry, and
    no stored string is empty. *)
Lemma smart_field_extraction_invariants bag :
  exists d, _smart_field_extraction bag = Ok d
            /\ covered ["country_code"; "passport_type"]%string d
            /\ all_nonempty d
            /\ present d "country_code" = present d "nationality"
            /\ present d "passport_type" = present d "nationality".
Proof.
  destruct (smart_field_extraction_steps bag)
    as (d1 & d2 & ks & d3 & d4 & d5 & d6 & E1 & S2 & (Hv & _ & _) & -> & -> & -> & -> & E).
  destruct (extract_passport_number_stores initial_data bag) as (d1' & E1' & S1).
  rewrite E1 in E1'. injection E1' as <-.
  destruct (assign_dates_stores ks d2 Hv) as (da & db & Sa & Sb & Sc).
  eexists. split; [exact E|]. split; [|split].
  - apply extract_nationality_covered.
    eapply stores_covered; [apply extract_place_of_birth_stores|].
    eapply stores_covered; [apply sex_in_patterns_stores|].
    eapply stores_covered; [apply extract_name_stores|].
    eapply stores_covered; [exact Sc|]. eapply stores_covered; [exact Sb|].
    eapply stores_covered; [exact Sa|]. eapply stores_covered; [exact S2|].
    eapply stores_covered; [exact S1|]. apply initial_covered.
  - apply extract_nationality_nonempty.
    eapply stores_nonempty; [apply extract_place_of_birth_stores|].
    eapply stores_nonempty; [apply sex_in_patterns_stores|].
    eapply stores_nonempty; [apply extract_name_stores|].
    eapply stores_nonempty; [exact Sc|]. eapply stores_nonempty; [exact Sb|].
    eapply stores_nonempty; [exact Sa|]. eapply stores_nonempty; [exact S2|].
    eapply stores_nonempty; [exact S1|]. apply initial_nonempty.
  - assert (Hf : frame (["passport_number"%string] ++ ["national_id"%string]
                        ++ ["date_of_birth"; "date_of_issue"; "date_of_expiry"]%string
                        ++ ["full_name"%string] ++ ["sex"%string]
                        ++ ["place_of_birth"%string])
                   initial_data
                   (_extract_place_of_birth
                      (_extract_sex (_extract_name (assign_dates ks d2) bag)
                         (combined_text bag)) (combined_text bag))).
    { eapply frame_trans; [apply stores_frame, S1|].
      eapply frame_trans; [apply stores_frame, S2|].
      eapply frame_trans; [apply frame_dates, Hv|].
      eapply frame_trans; [apply stores_frame, extract_name_stores|].
      eapply frame_trans; [apply stores_frame, sex_in_patterns_stores|].
      apply stores_frame, extract_place_of_birth_stores. }
    apply extract_nationality_together;
      (rewrite (frame_get _ _ _ _ Hf); [apply initial_get|not_in]).
Qed.

End RecordFacts.

(* ===================================================================== *)
(** * The field resolver: the properties of the specification             *)
(* ===================================================================== *)

Section ResolverProperties.
Import PyStr Regex Extractor Spec.
Context `{UnicodeData}.

Ltac not_in := simpl; intuition discriminate.

Lemma get_assign k v q d j :
  get (assign k v q d) j
  = if decide (k = j) then match v with Some x => Some x | None => get d j end
    else get d j.
Proof.
  destruct v as [x|]; simpl; [|by destruct (decide (k = j))].
  unfold get. simpl. rewrite lookup_insert. by destruct (decide (k = j)).
Qed.

Lemma confidence_assign k v q d j :
  confidence_scores (assign k v q d) !! j
  = if decide (k = j)
    then match v with Some _ => Some q | None => confidence_scores d !! j end
    else confidence_scores d !! j.
Proof.
  destruct v as [x|]; simpl; [|by destruct (decide (k = j))].
  rewrite lookup_insert. by destruct (decide (k = j)).
Qed.

Lemma sorted_lookup_lt {A : Type} (R : A -> A -> Prop) (l : list A) :
  StronglySorted R l ->
  forall (i j : nat) x y, l !! i = Some x -> l !! j = Some y -> (i < j)%nat -> R x y.
Proof.
  induction 1 as [|a l Hl IH Ha]; intros i j x y Hi Hj Hij.
  - by rewrite lookup_nil in Hi.
  - destruct j as [|j]; [lia|]. simpl in Hj. destruct i as [|i].
    + simpl in Hi. injection Hi as <-. rewrite List.Forall_forall in Ha.
      apply Ha, list_elem_of_In. by eapply list_elem_of_lookup_2.
    + simpl in Hi. apply (IH i j); [assumption..|lia].
Qed.

(** When all three dates are assigned they are in strict order. *)
Lemma three_dates_ordered ks b i x :
  StronglySorted ymd_lt ks ->
  birth_of ks = Some b -> issue_of ks = Some i -> expiry_of ks = Some x ->
  ymd_lt b i /\ ymd_lt i x.
Proof.
  intros Hs Hb Hi Hx. unfold expiry_of in Hx.
  destruct (3 <=? length ks)%nat eqn:Hlen; [|discriminate].
  apply Nat.leb_le in Hlen. rewrite last_lookup in Hx.
  assert (Hi' : ks !! (length ks - 2)%nat = Some i).
  { unfold issue_of in Hi. destruct (length ks) as [|[|[|n]]]; try lia. exact Hi. }
  assert (Hb' : ks !! 0%nat = Some b) by (by destruct ks).
  split.
  - apply (sorted_lookup_lt _ _ Hs 0 (length ks - 2)); [assumption..|lia].
  - apply (sorted_lookup_lt _ _ Hs (length ks - 2) (pred (length ks)));
      [assumption..|lia].
Qed.

Lemma dates_in_record ks d :
  get d "date_of_birth" = None -> get d "date_of_issue" = None ->
  get d "date_of_expiry" = None ->
  confidence_scores d !! "date_of_birth" = None ->
  confidence_scores d !! "date_of_issue" = None ->
  confidence_scores d !! "date_of_expiry" = None ->
  let d' := assign_dates ks d in
  get d' "date_of_birth" = date_of <$> birth_of ks
  /\ get d' "date_of_issue" = date_of <$> issue_of ks
  /\ get d' "date_of_expiry" = date_of <$> expiry_of ks
  /\ confidence_scores d' !! "date_of_birth" = (fun _ => 0.85%Q) <$> birth_of ks
  /\ confidence_scores d' !! "date_of_issue" = (fun _ => 0.8%Q) <$> issue_of ks
  /\ confidence_scores d' !! "date_of_expiry" = (fun _ => 0.85%Q) <$> expiry_of ks.
Proof.
  intros G1 G2 G3 C1 C2 C3. unfold assign_dates. cbv zeta.
  rewrite !get_assign, !confidence_assign.
  repeat (case_decide; try done).
  rewrite G1, G2, G3, C1, C2, C3.
  by destruct (birth_of ks), (issue_of ks), (expiry_of ks).
Qed.

Lemma initial_confidence k : confidence_scores initial_data !! k = None.
Proof. apply lookup_empty. Qed.

Lemma initial_method k : extraction_method initial_data !! k = None.
Proof. apply lookup_empty. Qed.

(** What the validation loop keeps of one date-like piece. *)
Lemma validate_date_found piece s :
  validate_date piece = Some s
  <-> exists day month year p0 p1 p2,
        str_split 45 (hyphenated piece) = [p0; p1; p2]
        /\ py_int p0 = Some day /\ py_int p1 = Some month
        /\ py_int p2 = Some year
        /\ valid_ymd (year, month, day) /\ s = date_of (year, month, day).
Proof.
  unfold validate_date. fold (hyphenated piece). split.
  - destruct (str_split 45 (hyphenated piece)) as [|p0 [|p1 [|p2 [|? ?]]]];
      try discriminate.
    destruct (py_int p0) as [day|] eqn:I0; [|discriminate].
    destruct (py_int p1) as [month|] eqn:I1; [|discriminate].
    destruct (py_int p2) as [year|] eqn:I2; [|discriminate].
    destruct (_ && _)%bool eqn:Hr; [|discriminate]. intros [= <-].
    exists day, month, year, p0, p1, p2.
    do 4 (split; [first [reflexivity|assumption]|]). split; [|reflexivity].
    unfold valid_ymd. repeat (apply andb_prop in Hr as [Hr ?]). lia.
  - intros (day & month & year & p0 & p1 & p2 & -> & -> & -> & -> & Hv & ->).
    unfold valid_ymd in Hv.
    replace ((1 <=? day) && (day <=? 31) && (1 <=? month) && (month <=? 12)
             && (1900 <=? year) && (year <=? 2100))%Z with true; [reflexivity|].
    symmetry. repeat (apply andb_true_intro; split); lia.
Qed.

(** The texts that the resolver sorts are those of the dates found in
    the text. *)
Lemma date_texts_found text s :
  In s (date_texts text) <-> exists k, found_date text k /\ s = date_of k.
Proof.
  unfold date_texts. rewrite <- list_elem_of_In, list_elem_of_omap. split.
  - intros (piece & Hp & Hs). apply list_elem_of_In, in_flat_map in Hp.
    destruct Hp as (pattern & Hpat & Hp).
    apply validate_date_found in Hs
      as (day & month & year & p0 & p1 & p2 & E & I0 & I1 & I2 & Hv & ->).
    exists (year, month, day). split; [|reflexivity].
    split; [exact Hv|]. exists pattern, piece, p0, p1, p2.
    do 2 (split; [assumption|]). split; [|auto].
    apply (findall_pieces false pattern); [|exact Hp].
    assert (Hall : forallb (fun r => negb (has_group r)) PassportPatterns.date
                   = true) by reflexivity.
    rewrite forallb_forall in Hall. apply negb_true_iff. by apply Hall.
  - intros ([[year month] day] & (Hv & pattern & piece & p0 & p1 & p2
                                  & Hpat & Hp & _ & E & I0 & I1 & I2) & ->).
    exists piece. split.
    + apply list_elem_of_In, in_flat_map. eauto.
    + apply validate_date_found. exists day, month, year, p0, p1, p2. auto 10.
Qed.

Lemma date_of_inj k k' :
  valid_ymd k -> valid_ymd k' -> date_of k = date_of k' -> k = k'.
Proof.
  intros Hk Hk' E. pose proof (date_key_date_of k Hk) as E1.
  rewrite E, (date_key_date_of k' Hk') in E1. congruence.
Qed.

Lemma found_date_valid text k : found_date text k -> valid_ymd k.
Proof. destruct k as [[year month] day]. by intros [Hv _]. Qed.

(** The sorted list holds exactly the dates found in the text. *)
Lemma sorted_dates_found text ks :
  Forall valid_ymd ks ->
  (forall s, In s (date_texts text) <-> In s (map date_of ks)) ->
  forall k, In k ks <-> found_date text k.
Proof.
  intros Hv Hm k. rewrite List.Forall_forall in Hv. split.
  - intros Hk. assert (Hs : In (date_of k) (date_texts text)).
    { apply Hm, in_map, Hk. }
    apply date_texts_found in Hs as (k' & Hf & E).
    apply date_of_inj in E; [by subst|by apply Hv|by eapply found_date_valid].
  - intros Hf. assert (Hs : In (date_of k) (map date_of ks)).
    { apply Hm, date_texts_found. eauto. }
    apply in_map_iff in Hs as (k' & E & Hk').
    apply date_of_inj in E; [by subst|by apply Hv|by eapply found_date_valid].
Qed.

(** C5: every date that the resolver assigns is the text of a day in
    1..31, a month in 1..12 and a year in 1900..2100.  With [ks] the dates
    found in the text (the pieces that a date pattern matches and that
    read as a day, a month and a year in these ranges), each once and in
    ascending order of (year, month, day), the earliest is date_of_birth
    (confidence 0.85), the second to last (the second of two) is
    date_of_issue (0.8) and the latest of three or more is date_of_expiry
    (0.85); without a date no one of the three is assigned; three assigned
    dates are in chronological order (strictly, as they are distinct). *)
Theorem dates_valid_and_positional (bag : list (pystr * pystr)) :
  exists e ks,
    extract_texts bag = Ok e
    /\ Forall valid_ymd ks /\ StronglySorted ymd_lt ks
    /\ (forall k, In k ks <-> found_date (combined_text bag) k)
    /\ get (e_data e) "date_of_birth" = date_of <$> birth_of ks
    /\ get (e_data e) "date_of_issue" = date_of <$> issue_of ks
    /\ get (e_data e) "date_of_expiry" = date_of <$> expiry_of ks
    /\ confidence_scores (e_data e) !! "date_of_birth"
       = (fun _ => 0.85%Q) <$> birth_of ks
    /\ confidence_scores (e_data e) !! "date_of_issue"
       = (fun _ => 0.8%Q) <$> issue_of ks
    /\ confidence_scores (e_data e) !! "date_of_expiry"
       = (fun _ => 0.85%Q) <$> expiry_of ks
    /\ (forall b i x,
          birth_of ks = Some b -> issue_of ks = Some i -> expiry_of ks = Some x ->
          ymd_lt b i /\ ymd_lt i x).
Proof.
  destruct (smart_field_extraction_steps bag)
    as (d1 & d2 & ks & d3 & d4 & d5 & d6 & E1 & S2 & (Hv & Hs & Hm) & -> & -> & -> & -> & E).
  destruct (extract_passport_number_stores initial_data bag) as (d1' & E1' & S1).
  rewrite E1 in E1'. injection E1' as <-.
  assert (Hf : frame (["passport_number"%string] ++ ["national_id"%string])
                 initial_data d2).
  { eapply frame_trans; apply stores_frame; eassumption. }
  pose proof (frame_after_dates (assign_dates ks d2) bag (combined_text bag)) as Hf'.
  eexists _, ks. split; [unfold extract_texts; rewrite E; reflexivity|].
  split; [exact Hv|]. split; [exact Hs|].
  split; [by apply sorted_dates_found|]. simpl.
  rewrite !(frame_get _ _ _ _ Hf') by not_in.
  rewrite !(frame_confidence _ _ _ _ Hf') by not_in.
  destruct (dates_in_record ks d2) as (G1 & G2 & G3 & C1 & C2 & C3);
    try (rewrite (frame_get _ _ _ _ Hf) by not_in; apply initial_get);
    try (rewrite (frame_confidence _ _ _ _ Hf) by not_in; apply initial_confidence).
  repeat (split; [assumption|]).
  intros b i x. by apply three_dates_ordered.
Qed.


Lemma truthy_present d k :
  all_nonempty d -> truthy (get d k) = present d k.
Proof.
  intros Hne. unfold present. destruct (get d k) as [[|c v]|] eqn:Hg; try reflexivity.
  by destruct (Hne k [] Hg).
Qed.

Lemma count_extracted_present ks d :
  all_nonempty d -> count_extracted ks d = count_present ks d.
Proof.
  intros Hne. unfold count_extracted, count_present. f_equal.
  apply List.filter_ext. intros k. by apply truthy_present.
Qed.

Lemma score_of_count (k : nat) :
  (k <= 8)%nat ->
  let score := (inject_Z (Z.of_nat k) / inject_Z (Z.of_nat 8) * 100)%Q in
  (score == 100 * inject_Z (Z.of_nat k) / 8)%Q
  /\ (0 <= score)%Q /\ (score <= 100)%Q.
Proof.
  intros Hk. cbv zeta. unfold Qeq, Qle, Qdiv, Qmult, Qinv, inject_Z. simpl.
  lia.
Qed.

(** C9: the extraction score is 100 k / 8, with k the number of the
    fields passport_number, full_name, nationality, date_of_birth,
    date_of_issue, date_of_expiry, national_id and sex that are not absent;
    it lies between 0 and 100. *)
Theorem extraction_score_is_ratio (bag : list (pystr * pystr)) :
  exists e,
    extract_texts bag = Ok e
    /\ let k :=
         count_present
           ["passport_number"; "full_name"; "nationality"; "date_of_birth";
            "date_of_issue"; "date_of_expiry"; "national_id"; "sex"]%string
           (e_data e) in
       (k <= 8)%nat
       /\ (extraction_score e == 100 * inject_Z (Z.of_nat k) / 8)%Q
       /\ (0 <= extraction_score e)%Q /\ (extraction_score e <= 100)%Q.
Proof.
  destruct (smart_field_extraction_invariants bag) as (d & E & _ & Hne & _).
  exists (Extraction d (_calculate_score d) (_generate_summary d)).
  split; [unfold extract_texts; rewrite E; reflexivity|]. cbv zeta.
  cbn [e_data extraction_score].
  set (scored := ["passport_number"; "full_name"; "nationality";
                  "date_of_birth"; "date_of_issue"; "date_of_expiry";
                  "national_id"; "sex"]%string).
  assert (Hk : (count_present scored d <= 8)%nat).
  { unfold count_present. etransitivity; [apply List.filter_length_le|]. simpl. lia. }
  split; [exact Hk|].
  unfold _calculate_score. change important_fields with scored.
  rewrite (count_extracted_present _ _ Hne).
  apply (score_of_count _ Hk).
Qed.

(** C3, as amended: in the record that [extract] returns every field
    that holds a value, the country code and the document type apart, has
    a confidence entry; these two hold a value exactly when nationality
    does, with which they are set. *)
Theorem fields_covered_but_nationality_codes (bag : list (pystr * pystr)) :
  exists e,
    extract_texts bag = Ok e
    /\ covered ["country_code"; "passport_type"]%string (e_data e)
    /\ present (e_data e) "country_code" = present (e_data e) "nationality"
    /\ present (e_data e) "passport_type" = present (e_data e) "nationality".
Proof.
  destruct (smart_field_extraction_invariants bag) as (d & E & Hc & _ & H1 & H2).
  exists (Extraction d (_calculate_score d) (_generate_summary d)).
  split; [unfold extract_texts; rewrite E; reflexivity|]. auto.
Qed.

End ResolverProperties.

Import PyStr Regex Extractor Spec.

(** C3, as stated, fails: on a text that shows "SUDAN" the country code
    holds a value and has no confidence entry. *)
Lemma country_code_has_no_confidence :
  exists e,
    @extract_texts plain_ucd [(u "standard", u "SUDAN")] = Ok e
    /\ ~ covered [] (e_data e).
Proof.
  eexists. split; [vm_compute; reflexivity|].
  intros Hc. destruct (Hc "country_code"%string) as [q Hq].
  - simpl. tauto.
  - vm_compute. discriminate.
  - vm_compute in Hq. discriminate.
Qed.

(** C7: on a text with a date written with slashes the resolver stores
    the slash as the sex, although the text shows "Sex: M". *)
Theorem sex_is_a_slash :
  exists e,
    @extract_texts plain_ucd
      [(u "standard", u "Sex: M  Date of birth: 15/03/1990")] = Ok e
    /\ get (e_data e) "sex" = Some (u "/")
    /\ confidence_scores (e_data e) !! "sex"%string = Some 0.95%Q.
Proof.
  eexists. split; [vm_compute; reflexivity|].
  split; vm_compute; reflexivity.
Qed.


(* ===================================================================== *)
(** * Face verification                                                   *)
(* ===================================================================== *)

Section FaceProperties.
Import FaceProcessor FaceSpec.
Context {Image : Type} `{Engines Image}.
Variable config : Config.
Local Open Scope Q_scope.

Lemma verify_primary_method id_face selfie_face md r :
  verify_primary config id_face selfie_face md = Ok r ->
  verification_method r = "insightface"%string.
Proof.
  unfold verify_primary.
  destruct (face_app_get selfie_face) as [faces|e]; [|discriminate].
  cbn [mbind result_bind].
  destruct (match md with Some _ => _ | None => _ end) as [ea|];
    [|discriminate].
  destruct faces as [|f fs]; [discriminate|].
  destruct (_cosine_similarity (Some ea) (embedding f)); [|discriminate].
  cbn [mbind result_bind]. by intros [= <-].
Qed.

Lemma fallback_method id_face selfie_face r :
  _verify_with_face_recognition config id_face selfie_face = Ok r ->
  verification_method r = "face_recognition"%string.
Proof.
  unfold _verify_with_face_recognition.
  destruct (face_encodings id_face) as [ids|]; [|discriminate].
  destruct (face_encodings selfie_face) as [selfies|]; [|discriminate].
  cbn [mbind result_bind].
  destruct ids as [|id0 ?]; [discriminate|].
  destruct selfies as [|selfie0 ?]; [discriminate|].
  destruct (py_min _); [|discriminate]. cbn [mbind result_bind].
  destruct (face_locations_of id_face); [|discriminate].
  destruct (face_locations_of selfie_face); [|discriminate].
  cbn [mbind result_bind]. by intros [= <-].
Qed.

(** C4: [verify_faces] always returns.  It returns the result of the
    primary comparison if that does not raise; if it raises, for whatever
    reason, the result of the fallback comparison; and only if that raises
    too, the result with verified = false, confidence = 0, method "failed"
    and the message of the fallback's error. *)
Theorem verify_faces_never_raises (id_face selfie_face : Image)
  (id_metadata : option Metadata) :
  exists r,
    verify_faces config id_face selfie_face id_metadata = Ok r
    /\ match verify_primary config id_face selfie_face id_metadata with
       | Ok r1 => r = r1
       | Raise _ =>
           match _verify_with_face_recognition config id_face selfie_face with
           | Ok r2 => r = r2
           | Raise e2 =>
               verified r = false /\ confidence r = 0
               /\ verification_method r = "failed"%string /\ error r = Some e2
           end
       end
    /\ (verification_method r = "failed"%string
        <-> raises (verify_primary config id_face selfie_face id_metadata)
            /\ raises (_verify_with_face_recognition config id_face selfie_face)).
Proof.
  unfold verify_faces, try_except.
  destruct (verify_primary config id_face selfie_face id_metadata)
    as [r1|e1] eqn:E1.
  - exists r1. split; [reflexivity|]. split; [reflexivity|].
    rewrite (verify_primary_method _ _ _ _ E1). simpl. split; [discriminate|tauto].
  - destruct (_verify_with_face_recognition config id_face selfie_face)
      as [r2|e2] eqn:E2.
    + exists r2. split; [reflexivity|]. split; [reflexivity|].
      rewrite (fallback_method _ _ _ E2). simpl. split; [discriminate|tauto].
    + exists (failed_result e2). simpl. tauto.
Qed.

(** The object in [verified] is a bool only in the result of a failed
    comparison; a comparison that ran left a numpy.bool_. *)
Lemma verify_faces_class id_face selfie_face md r :
  verify_faces config id_face selfie_face md = Ok r ->
  (verified_class r = Numpy /\ verification_method r <> "failed"%string)
  \/ (verified_class r = Python /\ verified r = false /\ confidence r = 0
      /\ verification_method r = "failed"%string /\ is_Some (error r)).
Proof.
  unfold verify_faces, try_except.
  destruct (verify_primary config id_face selfie_face md) as [r1|e] eqn:Hp.
  - intros [= <-]. left. revert Hp. unfold verify_primary.
    destruct (face_app_get selfie_face) as [faces|?]; [|discriminate].
    cbn [mbind result_bind].
    destruct (match md with Some _ => _ | None => _ end) as [ea|];
      [|discriminate].
    destruct faces as [|f fs]; [discriminate|].
    destruct (_cosine_similarity (Some ea) (embedding f)); [|discriminate].
    cbn [mbind result_bind]. by intros [= <-].
  - destruct (_verify_with_face_recognition config id_face selfie_face)
      as [r2|e2] eqn:Hb.
    + intros [= <-]. left. revert Hb. unfold _verify_with_face_recognition.
      destruct (face_encodings id_face) as [ids|]; [|discriminate].
      destruct (face_encodings selfie_face) as [selfies|]; [|discriminate].
      cbn [mbind result_bind].
      destruct ids as [|id0 ?]; [discriminate|].
      destruct selfies as [|selfie0 ?]; [discriminate|].
      destruct (py_min _); [|discriminate]. cbn [mbind result_bind].
      destruct (face_locations_of id_face); [|discriminate].
      destruct (face_locations_of selfie_face); [|discriminate].
      cbn [mbind result_bind]. by intros [= <-].
    + intros [= <-]. right. simpl. eauto 10.
Qed.

(** ** Symmetry *)

Lemma dot_sum_comm (a : list Q) : forall b,
  Qsum (map (fun xy => fst xy * snd xy) (zip a b))
  == Qsum (map (fun xy => fst xy * snd xy) (zip b a)).
Proof.
  induction a as [|x a IH]; intros [|y b]; simpl; try reflexivity.
  rewrite (IH b), (Qmult_comm x y). reflexivity.
Qed.

Lemma np_dot_comm a b : agree Qeq (np_dot a b) (np_dot b a).
Proof.
  unfold np_dot. rewrite (Nat.eqb_sym (length b)).
  destruct (length a =? length b)%nat; simpl; [apply dot_sum_comm|exact I].
Qed.

Lemma cosine_comm e1 e2 :
  agree Qeq (_cosine_similarity e1 e2) (_cosine_similarity e2 e1).
Proof.
  unfold _cosine_similarity. destruct e1 as [a|], e2 as [b|]; simpl; auto.
  pose proof (np_dot_comm a b) as Hd.
  destruct (np_dot a b) as [x|], (np_dot b a) as [y|]; simpl in *; auto.
  rewrite Hd, (Qmult_comm (np_norm a)). reflexivity.
Qed.

(** The primary comparison of two images (no metadata) is symmetric. *)
Lemma verify_primary_symmetric a b :
  agree same_confidence (verify_primary config a b None)
    (verify_primary config b a None).
Proof.
  unfold verify_primary, extract_embedding.
  destruct (face_app_get a) as [[|fa fas]|ea], (face_app_get b) as [[|fb fbs]|eb];
    cbn [mbind result_bind agree]; auto;
    try (destruct (embedding fa); exact I);
    try (destruct (embedding fb); exact I).
  pose proof (cosine_comm (embedding fa) (embedding fb)) as Hc.
  destruct (embedding fa) as [va|] eqn:Ea, (embedding fb) as [vb|] eqn:Eb;
    simpl in Hc |- *; auto.
  all: destruct (np_dot va vb), (np_dot vb va); simpl in *; auto.
Qed.

(** The fallback comparison is symmetric on images with at most one
    face each. *)
Lemma fallback_symmetric a b :
  (forall x y, euclidean x y == euclidean y x) ->
  one_encoding_at_most a -> one_encoding_at_most b ->
  agree same_confidence (_verify_with_face_recognition config a b)
    (_verify_with_face_recognition config b a).
Proof.
  intros Hsym Ha Hb. unfold _verify_with_face_recognition.
  destruct (face_encodings a) as [la|] eqn:Ea, (face_encodings b) as [lb|] eqn:Eb;
    cbn [mbind result_bind agree]; auto.
  specialize (Ha la Ea). specialize (Hb lb Eb).
  destruct la as [|ea [|? ?]]; [|clear Ha|simpl in Ha; lia];
    (destruct lb as [|eb [|? ?]]; [|clear Hb|simpl in Hb; lia]);
    cbn [mbind result_bind agree]; auto.
  simpl.
  destruct (face_locations_of a), (face_locations_of b);
    cbn [mbind result_bind agree]; auto.
  unfold same_confidence. simpl. rewrite (Hsym ea eb). reflexivity.
Qed.

(** C10, as amended: the confidence of [verify_faces] (without metadata)
    does not depend on the order of the two images when the primary
    comparison decides, and, for a symmetric distance, when the fallback
    comparison finds at most one face in each image. *)
Theorem verify_confidence_symmetric (a b : Image) (r1 r2 : FaceVerificationResult) :
  verify_faces config a b None = Ok r1 ->
  verify_faces config b a None = Ok r2 ->
  verification_method r1 = "insightface"%string
  \/ ((forall x y, euclidean x y == euclidean y x)
      /\ one_encoding_at_most a /\ one_encoding_at_most b) ->
  confidence r1 == confidence r2.
Proof.
  unfold verify_faces, try_except. intros E1 E2 Hcase.
  pose proof (verify_primary_symmetric a b) as Hp.
  destruct (verify_primary config a b None) as [p1|],
           (verify_primary config b a None) as [p2|]; simpl in Hp;
    try contradiction.
  - injection E1 as <-. injection E2 as <-. exact Hp.
  - destruct Hcase as [Hm|(Hsym & Ha & Hb)].
    + destruct (_verify_with_face_recognition config a b) as [f1|] eqn:F1.
      * injection E1 as <-. rewrite (fallback_method _ _ _ F1) in Hm.
        discriminate.
      * injection E1 as <-. discriminate.
    + pose proof (fallback_symmetric a b Hsym Ha Hb) as Hf.
      destruct (_verify_with_face_recognition config a b) as [f1|],
               (_verify_with_face_recognition config b a) as [f2|];
        simpl in Hf; try contradiction.
      * injection E1 as <-. injection E2 as <-. exact Hf.
      * injection E1 as <-. injection E2 as <-. reflexivity.
Qed.

(** ** Liveness *)

Lemma Qmin_unit x : 0 <= x -> 0 <= Qmin x 1 /\ Qmin x 1 <= 1.
Proof.
  intros Hx. split.
  - apply Q.min_glb; [exact Hx|discriminate].
  - apply Q.le_min_r.
Qed.

(** C2, as amended: the liveness score is the sum of the signals that
    are there, each times its fixed weight 0.25, 0.25, 0.30, 0.20, the
    first three signals capped at 1; without the detector signal (no face,
    or a confidence of zero) the other weights stay as they are, so the
    score is at most 0.8; with signals in 0..1 the score lies in 0..1. *)
Theorem check_liveness_weighted_sum (face_image gray hsv : Image)
  (variance edges : Q) (faces : list Face) :
  to_gray face_image = Ok gray ->
  laplacian_var gray = Ok variance ->
  to_hsv face_image = Ok hsv ->
  canny_mean gray = Ok edges ->
  face_app_get face_image = Ok faces ->
  let blur := Qmin (variance / 1000) 1 in
  let color := Qmin (saturation_mean hsv * saturation_std hsv / 5000) 1 in
  let texture := Qmin (edges / 255 * 10) 1 in
  exists score,
    check_liveness face_image = Ok score
    /\ score == weighted_sum blur color texture (detector_signal faces)
    /\ (0 <= variance -> 0 <= saturation_mean hsv * saturation_std hsv ->
        0 <= edges ->
        (forall q, detector_signal faces = Some q -> 0 <= q /\ q <= 1) ->
        0 <= score /\ score <= 1
        /\ (detector_signal faces = None -> score <= 0.8)).
Proof.
  intros Eg El Eh Ec Ef blur color texture.
  unfold check_liveness, _analyze_texture.
  rewrite Eg. cbn [mbind result_bind]. rewrite El. cbn [mbind result_bind].
  rewrite Eh. cbn [mbind result_bind]. rewrite Ec. cbn [mbind result_bind].
  rewrite Ef. cbn [mbind result_bind mret result_ret].
  fold blur color texture.
  assert (Hsum : Qsum (map (fun sw => fst sw * snd sw)
              (zip match faces with
                   | [] => ([blur] ++ [color]) ++ [texture]
                   | f :: _ =>
                       if negb (Qeq_bool (det_score f) 0)
                       then (([blur] ++ [color]) ++ [texture]) ++ [det_score f]
                       else ([blur] ++ [color]) ++ [texture]
                   end
                   (firstn (length match faces with
                        | [] => ([blur] ++ [color]) ++ [texture]
                        | f :: _ =>
                            if negb (Qeq_bool (det_score f) 0)
                            then (([blur] ++ [color]) ++ [texture]) ++ [det_score f]
                            else ([blur] ++ [color]) ++ [texture]
                        end) liveness_weights)))
            == weighted_sum blur color texture (detector_signal faces)).
  { unfold weighted_sum, detector_signal.
    destruct faces as [|f fs]; [simpl; ring|].
    destruct (Qeq_bool (det_score f) 0); simpl; ring. }
  eexists. split; [reflexivity|]. split; [exact Hsum|].
  intros Hv Hs He Hd. rewrite Hsum.
  assert (Hb : 0 <= blur /\ blur <= 1).
  { apply Qmin_unit. apply Qle_shift_div_l; [reflexivity|]. by rewrite Qmult_0_l. }
  assert (Hc : 0 <= color /\ color <= 1).
  { apply Qmin_unit. apply Qle_shift_div_l; [reflexivity|]. by rewrite Qmult_0_l. }
  assert (Ht : 0 <= texture /\ texture <= 1).
  { apply Qmin_unit. apply Qmult_le_0_compat; [|discriminate].
    apply Qle_shift_div_l; [reflexivity|]. by rewrite Qmult_0_l. }
  destruct Hb as [Hb0 Hb1], Hc as [Hc0 Hc1], Ht as [Ht0 Ht1].
  unfold weighted_sum.
  destruct (detector_signal faces) as [q|].
  - destruct (Hd q eq_refl) as [Hq0 Hq1].
    split; [|split; [|discriminate]]; lra.
  - split; [|split; [|intros _]]; lra.
Qed.

End FaceProperties.
Import FaceProcessor FaceSpec App AppSpec Scenario.

(* ===================================================================== *)
(** * The endpoints                                                       *)
(* ===================================================================== *)

Section EndpointProperties.
Context {Image Bytes : Type} `{UnicodeData} `{Engines Image}
  `{AppEngines Image Bytes}.
Variable config : Config.

Lemma no_face_extracts_none document_image document_type :
  no_face_in document_image document_type ->
  extract_face_from_document config document_image document_type = (None, None).
Proof.
  intros (Hf & gray & Hg & Hc). unfold extract_face_from_document.
  rewrite Hf. cbn [mbind result_bind]. rewrite Hg. cbn [mbind result_bind].
  rewrite Hc. reflexivity.
Qed.

(** [extract] returns on every set of image variants. *)
Lemma extract_returns (preprocessed_images : list (pystr * Image)) :
  exists e, extract ocr preprocessed_images = Ok e.
Proof.
  unfold extract, extract_texts.
  destruct (smart_field_extraction_invariants
              (flat_map (fun pi : pystr * Image =>
                 map (fun mt : pystr * pystr =>
                        (fst pi ++ u "_" ++ fst mt, snd mt)) (ocr (snd pi)))
                 preprocessed_images)) as (d & -> & _).
  eauto.
Qed.

Ltac io_unfold :=
  unfold try_io, mbind, io_bind, mret, io_ret, lift, invoke, update_stats.

(** ** What the encoders write *)

Lemma serializable_extraction (e : extraction) :
  serializable (object_of_extraction e) = true.
Proof.
  unfold object_of_extraction. cbn [serializable]. rewrite forallb_app.
  apply andb_true_intro. split.
  - apply forallb_forall. intros entry Hin.
    apply in_map_iff in Hin as ([k [v|]] & <- & _); reflexivity.
  - cbn [forallb snd serializable]. rewrite !andb_true_r.
    apply andb_true_intro. split; apply forallb_forall; intros entry Hin;
      apply in_map_iff in Hin as (kv & <- & _); reflexivity.
Qed.

Lemma serializable_without_none (obj : pyobject) :
  serializable obj = true -> serializable (without_none obj) = true.
Proof.
  destruct obj; try (intros; assumption). cbn [without_none serializable].
  rewrite !forallb_forall. intros Hall entry Hin.
  apply List.filter_In in Hin as [Hin _]. auto.
Qed.

(** The file of the result is written only for a comparison that
    failed: the numpy.bool_ of a comparison that ran raises TypeError. *)
Lemma passport_result_class (ocr_result : extraction) (r : FaceVerificationResult) :
  json_encode
    (PyDict [("timestamp"%string, PyString);
             ("ocr_results"%string, object_of_extraction ocr_result);
             ("face_verification"%string, saved_verification r);
             ("overall_verified"%string,
              PyBool (and_class (verified r) (verified_class r) Python))])
  = match verified_class r with
    | Python => Ok tt
    | Numpy => Raise "TypeError: Object is not JSON serializable"
    end.
Proof.
  unfold json_encode, saved_verification.
  cbn [serializable forallb snd]. rewrite serializable_extraction.
  destruct (verified_class r), (verified r); reflexivity.
Qed.

Lemma complete_result_class (ocr_result : extraction) (r : FaceVerificationResult) :
  json_encode
    (PyDict [("timestamp"%string, PyString);
             ("passport_file"%string, PyString);
             ("selfie_file"%string, PyString);
             ("ocr_results"%string, object_of_extraction ocr_result);
             ("face_verification"%string, saved_verification r)])
  = match verified_class r with
    | Python => Ok tt
    | Numpy => Raise "TypeError: Object is not JSON serializable"
    end.
Proof.
  unfold json_encode, saved_verification.
  cbn [serializable forallb snd]. rewrite serializable_extraction.
  destruct (verified_class r); reflexivity.
Qed.

(** The complete response is written only if, moreover, the liveness
    score is a float. *)
Lemma complete_class (ocr_result : extraction) (r : FaceVerificationResult)
  (class_of_liveness : pyclass) :
  jsonify (complete_object ocr_result r class_of_liveness)
  = match verified_class r, class_of_liveness with
    | Python, Python => Ok tt
    | _, _ => Raise "TypeError: Object is not JSON serializable"
    end.
Proof.
  unfold jsonify, json_encode, complete_object.
  cbn [serializable forallb snd].
  rewrite (serializable_without_none _ (serializable_extraction ocr_result)).
  destruct (verified_class r), class_of_liveness; reflexivity.
Qed.

Lemma verify_passport_no_face data w p selfie s bytes :
  passport_image data = Some p -> selfie_image data = Some selfie ->
  strip_data_url p = Ok s -> b64decode s = Ok bytes ->
  no_face_in (imdecode bytes) "passport" ->
  exists resp w',
    verify_passport config data w = (Ok resp, w')
    /\ made_no_call CallVerifyFaces w w'
    /\ (forall c, resp <> Complete c)
    /\ (forall selfie_img imgs,
          decode_base64_to_image selfie = Ok selfie_img ->
          preprocess bytes = Ok imgs ->
          exists ocr_result,
            extract ocr imgs = Ok ocr_result
            /\ resp = NoFaceDetected "No face detected in passport" ocr_result).
Proof.
  intros Hp Hs Hstrip Hb Hno. apply no_face_extracts_none in Hno.
  unfold verify_passport. io_unfold. simpl. rewrite Hp, Hs, Hstrip, Hb.
  rewrite Hno.
  destruct (decode_base64_to_image selfie) as [selfie_img|e] eqn:Hd.
  - destruct (preprocess bytes) as [imgs|e] eqn:Hpre.
    + destruct (extract_returns imgs) as [ocr_result He]. rewrite He.
      eexists _, _. split; [reflexivity|]. split; [|split].
      * eexists. simpl. rewrite <- !app_assoc. split; [reflexivity|].
        simpl. intuition discriminate.
      * discriminate.
      * intros ? ? [= <-] [= <-]. eauto.
    + eexists _, _. split; [reflexivity|]. split; [|split].
      * eexists. simpl. split; [reflexivity|]. simpl. intuition discriminate.
      * discriminate.
      * discriminate.
  - eexists _, _. split; [reflexivity|]. split; [|split].
    + exists []. simpl. rewrite app_nil_r. auto.
    + discriminate.
    + discriminate.
Qed.

Lemma verify_complete_no_face files w passport_file selfie_file :
  passport files = Some passport_file -> selfie files = Some selfie_file ->
  no_face_in (imdecode (content passport_file)) "passport" ->
  exists resp w',
    verify_complete config files w = (Ok resp, w')
    /\ made_no_call CallVerifyFaces w w'
    /\ (forall c, resp <> Complete c)
    /\ (forall imgs,
          filename passport_file <> [] -> filename selfie_file <> [] ->
          preprocess (content passport_file) = Ok imgs ->
          exists ocr_result,
            extract ocr imgs = Ok ocr_result
            /\ resp = NoFaceDetected "No face detected in passport" ocr_result).
Proof.
  intros Hp Hs Hno. apply no_face_extracts_none in Hno.
  unfold verify_complete. io_unfold. simpl. rewrite Hp, Hs.
  destruct (bool_decide (filename passport_file = [])
            || bool_decide (filename selfie_file = [])) eqn:Hnames.
  - eexists _, _. split; [reflexivity|]. split; [|split].
    + exists []. simpl. rewrite app_nil_r. auto.
    + discriminate.
    + intros imgs Hn1 Hn2. apply orb_true_iff in Hnames as [Hn|Hn];
        apply bool_decide_eq_true in Hn; contradiction.
  - rewrite Hno. destruct (preprocess (content passport_file)) as [imgs|e] eqn:Hpre.
    + destruct (extract_returns imgs) as [ocr_result He]. rewrite He.
      eexists _, _. split; [reflexivity|]. split; [|split].
      * eexists. simpl. rewrite <- !app_assoc. split; [reflexivity|].
        simpl. intuition discriminate.
      * discriminate.
      * intros ? _ _ [= <-]. eauto.
    + eexists _, _. split; [reflexivity|]. split; [|split].
      * eexists. simpl. split; [reflexivity|]. simpl. intuition discriminate.
      * discriminate.
      * discriminate.
Qed.

(** C8: when neither detector finds a face in the region of the
    photograph, [extract_face_from_document] returns (None, None); each of
    the two endpoints returns without a call of [verify_faces], its
    response is never the complete one (so never VERIFIED), and, once the
    text has been extracted, it is the failure response that carries the
    OCR result. *)
Theorem no_face_no_verification (data : passport_request)
  (files : complete_request) (w : world) (p selfie_b64 s : pystr) (bytes : Bytes)
  (passport_file selfie_file : upload) :
  passport_image data = Some p -> selfie_image data = Some selfie_b64 ->
  strip_data_url p = Ok s -> b64decode s = Ok bytes ->
  no_face_in (imdecode bytes) "passport" ->
  passport files = Some passport_file -> selfie files = Some selfie_file ->
  no_face_in (imdecode (content passport_file)) "passport" ->
  extract_face_from_document config (imdecode bytes) "passport" = (None, None)
  /\ extract_face_from_document config (imdecode (content passport_file))
       "passport" = (None, None)
  /\ (exists resp w',
        verify_passport config data w = (Ok resp, w')
        /\ made_no_call CallVerifyFaces w w'
        /\ (forall c, resp <> Complete c)
        /\ (forall selfie_img imgs,
              decode_base64_to_image selfie_b64 = Ok selfie_img ->
              preprocess bytes = Ok imgs ->
              exists ocr_result,
                extract ocr imgs = Ok ocr_result
                /\ resp = NoFaceDetected "No face detected in passport"
                            ocr_result))
  /\ (exists resp w',
        verify_complete config files w = (Ok resp, w')
        /\ made_no_call CallVerifyFaces w w'
        /\ (forall c, resp <> Complete c)
        /\ (forall imgs,
              filename passport_file <> [] -> filename selfie_file <> [] ->
              preprocess (content passport_file) = Ok imgs ->
              exists ocr_result,
                extract ocr imgs = Ok ocr_result
                /\ resp = NoFaceDetected "No face detected in passport"
                            ocr_result)).
Proof.
  intros Hp Hs Hstrip Hb Hno Hpf Hsf Hno'.
  split; [by apply no_face_extracts_none|].
  split; [by apply no_face_extracts_none|].
  split.
  - by eapply verify_passport_no_face.
  - by eapply verify_complete_no_face.
Qed.

(** ** Complete responses *)

Local Arguments json_encode : simpl never.
Local Arguments jsonify : simpl never.





End EndpointProperties.

(* ===================================================================== *)
(** * Concrete runs                                                       *)
(* ===================================================================== *)

Local Open Scope Q_scope.


(** A selfie of the holder that is blurred and flat: the comparison of
    the face processor's own pipeline is not verified, as the liveness
    check fails. *)
Lemma pipeline_rejects_failed_liveness :
  exists v,
    verification (process_verification_request _default_config
                    (Array passport_page) (Array flat_selfie) "passport")
    = Some v
    /\ ve_verified v = false.
Proof. eexists. split; vm_compute; reflexivity. Qed.

(** C2, as stated, fails: on a sharp, colourful, textured image without
    a detected face the three signals are 1 and the score is 0.8, not the
    renormalized 1. *)
Lemma liveness_is_not_renormalized :
  exists score,
    check_liveness sharp_print = Ok score
    /\ detector_signal (sc_faces sharp_print) = None
    /\ score == 0.8
    /\ ~ score == renormalized_sum
                    (Qmin (sc_laplacian sharp_print / 1000) 1)
                    (Qmin (sc_saturation_mean sharp_print
                           * sc_saturation_std sharp_print / 5000) 1)
                    (Qmin (sc_canny sharp_print / 255 * 10) 1)
                    (detector_signal (sc_faces sharp_print)).
Proof.
  eexists. split; [vm_compute; reflexivity|]. split; [reflexivity|].
  split; vm_compute; congruence.
Qed.

(** The weighted sum on the flat selfie, where the detector reports a
    face. *)
Lemma check_liveness_weighted_sum_witness :
  to_gray flat_selfie = Ok flat_selfie
  /\ laplacian_var flat_selfie = Ok 100
  /\ to_hsv flat_selfie = Ok flat_selfie
  /\ canny_mean flat_selfie = Ok 2.55
  /\ face_app_get flat_selfie = Ok [a_face [1; 0] 0.9]
  /\ exists score,
       check_liveness flat_selfie = Ok score
       /\ score == weighted_sum (Qmin (100 / 1000) 1)
                     (Qmin (saturation_mean flat_selfie
                            * saturation_std flat_selfie / 5000) 1)
                     (Qmin (2.55 / 255 * 10) 1)
                     (detector_signal [a_face [1; 0] 0.9]).
Proof.
  repeat (split; [reflexivity|]).
  destruct (@check_liveness_weighted_sum scene scene_engines
              flat_selfie flat_selfie flat_selfie
              100 2.55 [a_face [1; 0] 0.9]
              eq_refl eq_refl eq_refl eq_refl eq_refl) as (score & Hs & He & _).
  exists score. split; assumption.
Defined.

(** C10, as stated, fails on the fallback path: against a single face
    that equals the second face of a group, the group first gives
    confidence 1, the single face first gives confidence 0. *)
Lemma fallback_confidence_depends_on_order :
  exists r1 r2,
    verify_faces _default_config group_photo single_photo None = Ok r1
    /\ verify_faces _default_config single_photo group_photo None = Ok r2
    /\ verification_method r1 = "face_recognition"%string
    /\ ~ confidence r1 == confidence r2.
Proof.
  eexists _, _. split; [vm_compute; reflexivity|].
  split; [vm_compute; reflexivity|]. split; [reflexivity|].
  vm_compute. congruence.
Qed.

(** The passport page and the selfie, compared in both orders by the
    primary path. *)
Lemma verify_confidence_symmetric_witness :
  exists r1 r2,
    verify_faces _default_config passport_page flat_selfie None = Ok r1
    /\ verify_faces _default_config flat_selfie passport_page None = Ok r2
    /\ verification_method r1 = "insightface"%string
    /\ confidence r1 == confidence r2.
Proof.
  eexists _, _. split; [reflexivity|]. split; [reflexivity|].
  split; [reflexivity|].
  apply (@verify_confidence_symmetric scene scene_engines _default_config
           passport_page flat_selfie);
    [reflexivity|reflexivity|left; reflexivity].
Defined.

(** A request with a passport page in which no detector finds a face. *)
Lemma no_face_no_verification_witness :
  no_face_in (imdecode (u "faceless")) "passport"
  /\ exists resp w',
       verify_passport (H := plain_ucd) _default_config
         {| passport_image := Some (u "faceless");
            selfie_image := Some (u "flat selfie") |} fresh_world
       = (Ok resp, w')
       /\ made_no_call CallVerifyFaces fresh_world w'
       /\ forall c, resp <> Complete c.
Proof.
  assert (Hno : no_face_in (imdecode (u "faceless")) "passport").
  { split; [reflexivity|]. exists faceless_page. split; reflexivity. }
  split; [exact Hno|].
  destruct (@no_face_no_verification scene pystr plain_ucd scene_engines
              scene_app _default_config
              {| passport_image := Some (u "faceless");
                 selfie_image := Some (u "flat selfie") |}
              {| passport := Some {| filename := u "passport.jpg";
                                     content := u "faceless" |};
                 selfie := Some {| filename := u "selfie.jpg";
                                   content := u "flat selfie" |} |}
              fresh_world (u "faceless") (u "flat selfie") (u "faceless")
              (u "faceless")
              {| filename := u "passport.jpg"; content := u "faceless" |}
              {| filename := u "selfie.jpg"; content := u "flat selfie" |}
              eq_refl eq_refl eq_refl eq_refl Hno eq_refl eq_refl Hno)
    as (_ & _ & (resp & w' & Hr & Hc & Hn & _) & _).
  exists resp, w'. auto.
Defined.

(* ===================================================================== *)
(** * The scenarios of the specification                                  *)
(* ===================================================================== *)

(** The scan stops at the first observation that offers a candidate:
    what follows it in the bag is not looked at. *)
Lemma first_accepted_stops `{UnicodeData} pre source text post c :
  Forall (fun o => find passport_shape (observation_candidates (snd o)) = None)
    pre ->
  find passport_shape (observation_candidates text) = Some c ->
  first_accepted (pre ++ (source, text) :: post) = Some (source, c).
Proof.
  intros Hpre Hc. induction Hpre as [|[src txt] pre Hnone _ IH]; simpl.
  - by rewrite Hc.
  - simpl in Hnone. by rewrite Hnone.
Qed.

(** A passport number and three dates. *)
Example scenario_number_and_dates :
  exists e,
    @extract_texts plain_ucd
      [(u "standard", u "P12345678 01-01-1990 15-03-2015 15-03-2025")] = Ok e
    /\ get (e_data e) "passport_number" = Some (u "P12345678")
    /\ get (e_data e) "date_of_birth" = Some (u "01-01-1990")
    /\ get (e_data e) "date_of_issue" = Some (u "15-03-2015")
    /\ get (e_data e) "date_of_expiry" = Some (u "15-03-2025").
Proof.
  eexists. split; [vm_compute; reflexivity|].
  repeat split; vm_compute; reflexivity.
Qed.

(** A text that shows "SUDAN". *)
Example scenario_sudan :
  exists e,
    @extract_texts plain_ucd [(u "standard", u "SUDAN")] = Ok e
    /\ get (e_data e) "nationality" = Some (u "SUDANESE")
    /\ get (e_data e) "country_code" = Some (u "SDN")
    /\ get (e_data e) "passport_type" = Some (u "PC").
Proof.
  eexists. split; [vm_compute; reflexivity|].
  repeat split; vm_compute; reflexivity.
Qed.

(** Three dates, written with three separators and not in their order:
    the earliest is the date of birth. *)
Lemma dates_valid_and_positional_witness :
  let text := u "Expires 15/03/2025  Born 01.01.1990  Issued 15-03-2015" in
  exists e,
    @extract_texts plain_ucd [(u "standard", text)] = Ok e
    /\ get (e_data e) "date_of_birth" = Some (u "01-01-1990")
    /\ get (e_data e) "date_of_issue" = Some (u "15-03-2015")
    /\ get (e_data e) "date_of_expiry" = Some (u "15-03-2025")
    /\ @found_date plain_ucd text (1990, 1, 1)%Z.
Proof.
  intros text.
  destruct (@dates_valid_and_positional plain_ucd [(u "standard", text)])
    as (e & ks & He & Hv & _ & Hf & Gb & Gi & Gx & _).
  exists e. split; [exact He|].
  assert (Hg : get (e_data e) "date_of_birth" = Some (u "01-01-1990")
               /\ get (e_data e) "date_of_issue" = Some (u "15-03-2015")
               /\ get (e_data e) "date_of_expiry" = Some (u "15-03-2025")).
  { revert He. vm_compute. intros [= <-]. repeat split; reflexivity. }
  destruct Hg as (Hb & Hi & Hx).
  do 3 (split; [assumption|]).
  rewrite Hb in Gb. destruct (birth_of ks) as [k|] eqn:Hk; [|discriminate].
  assert (Hin : In k ks).
  { destruct ks; simpl in Hk; [discriminate|left; congruence]. }
  apply Hf in Hin. change (combined_text [(u "standard", text)]) with text in Hin.
  injection Gb as Gb.
  assert (E : k = (1990, 1, 1)%Z).
  { apply (@date_of_inj plain_ucd).
    - by eapply found_date_valid.
    - unfold valid_ymd. lia.
    - rewrite <- Gb. reflexivity. }
  by rewrite <- E.
Defined.

(* ===================================================================== *)
(** * Further properties of the code                                      *)
(* ===================================================================== *)

Local Close Scope Q_scope.

Section StringFacts.
Import PyStr.

Lemma str_startswith_spec p s :
  str_startswith p s = true <-> exists r, s = p ++ r.
Proof.
  revert s. induction p as [|a p IH]; intros s; simpl.
  - split; eauto.
  - destruct s as [|b s].
    + split; [discriminate|]. intros (r & Hr). discriminate.
    + rewrite andb_true_iff, N.eqb_eq, IH. split.
      * intros (-> & r & ->). eauto.
      * intros (r & [= -> ->]). eauto.
Qed.

Lemma str_contains_spec a t :
  str_contains a t = true <-> exists pre post, t = pre ++ a ++ post.
Proof.
  induction t as [|c t IH]; simpl.
  - rewrite orb_false_r, str_startswith_spec. split.
    + intros (r & Hr). exists [], r. exact Hr.
    + intros (pre & post & Hp). destruct pre; [eauto|discriminate].
  - rewrite orb_true_iff, str_startswith_spec, IH. split.
    + intros [(r & ->)|(pre & post & ->)]; [by exists [], r|].
      by exists (c :: pre), post.
    + intros (pre & post & Hp). destruct pre as [|x pre].
      * left. eauto.
      * right. injection Hp as -> ->. eauto.
Qed.

Lemma str_contains_trans a b t :
  str_contains a b = true -> str_contains b t = true ->
  str_contains a t = true.
Proof.
  rewrite !str_contains_spec.
  intros (p1 & q1 & ->) (p2 & q2 & ->).
  exists (p2 ++ p1), (q1 ++ q2). by rewrite <- !app_assoc.
Qed.

End StringFacts.

Section ResolverMore.
Import PyStr Regex Extractor Spec ResolverSpec.
Context `{UnicodeData}.

(** ** Nationality *)

Lemma indicators_hold_needles :
  forallb (fun i => existsb (fun n => str_contains n i) sudan_needles)
    PassportPatterns.sudan_indicators = true
  /\ forallb (fun n => existsb (pystr_eqb n) PassportPatterns.sudan_indicators)
       sudan_needles = true.
Proof. split; reflexivity. Qed.

Lemma indicator_iff_needle t :
  existsb (fun i => str_contains i t) PassportPatterns.sudan_indicators
  = existsb (fun n => str_contains n t) sudan_needles.
Proof.
  destruct indicators_hold_needles as [H1 H2].
  rewrite forallb_forall in H1, H2.
  apply eq_true_iff_eq. rewrite !existsb_exists. split.
  - intros (i & Hi & Hc). specialize (H1 i Hi).
    apply existsb_exists in H1 as (n & Hn & Hni).
    exists n. split; [exact Hn|]. eapply str_contains_trans; eassumption.
  - intros (n & Hn & Hc). specialize (H2 n Hn).
    apply existsb_exists in H2 as (i & Hi & He).
    apply bool_decide_eq_true in He. subst i. eauto.
Qed.

(** X1: the nationality step writes its three fields exactly when the
    uppercased text holds SDN, SUDAN or one of the two Arabic words; the
    four longer indicators decide nothing. *)
Theorem nationality_by_four_needles (d : data) (text : pystr) :
  (_extract_nationality d text = sudanese d
   /\ exists n, In n sudan_needles /\ occurs_in n (str_upper text))
  \/ (_extract_nationality d text = d
      /\ forall n, In n sudan_needles -> ~ occurs_in n (str_upper text)).
Proof.
  unfold _extract_nationality. rewrite indicator_iff_needle.
  destruct (existsb _ sudan_needles) eqn:He.
  - left. split; [reflexivity|]. apply existsb_exists in He as (n & Hn & Hc).
    exists n. split; [exact Hn|]. by apply str_contains_spec.
  - right. split; [reflexivity|]. intros n Hn Ho.
    apply str_contains_spec in Ho.
    assert (Ht : existsb (fun n => str_contains n (str_upper text)) sudan_needles
                 = true) by (apply existsb_exists; eauto).
    congruence.
Qed.

(** ** Full name *)

Lemma name_candidates_source bag name source :
  In (name, source) (name_candidates bag) -> exists text, In (source, text) bag.
Proof.
  unfold name_candidates, names_in_text. intros Hc.
  apply in_flat_map in Hc as ([src text] & Hb & Hc). cbn [fst snd] in Hc.
  apply in_flat_map in Hc as (pattern & _ & Hc).
  apply in_flat_map in Hc as (m & _ & Hc).
  destruct (name_ok (str_strip m)); [|contradiction].
  destruct Hc as [[= _ <-]|[]]. eauto.
Qed.

Lemma first_preferred_some sources cands c :
  first_preferred sources cands = Some c ->
  exists p, In p sources /\ str_contains p (snd c) = true.
Proof.
  induction sources as [|source rest IH]; simpl; [discriminate|].
  unfold from_source. destruct (find _ cands) eqn:Hf.
  - intros [= <-]. apply find_some in Hf as [_ Hf]. eauto.
  - intros Hc. destruct (IH Hc) as (p & Hp & Hs). eauto.
Qed.

Lemma first_preferred_none sources cands :
  first_preferred sources cands = None ->
  forall c p, In c cands -> In p sources -> str_contains p (snd c) = false.
Proof.
  induction sources as [|source rest IH]; simpl; [contradiction|].
  unfold from_source. destruct (find _ cands) eqn:Hf; [discriminate|].
  intros Hn c p Hc [<-|Hp]; [|by apply IH].
  apply (find_none _ _ Hf c Hc).
Qed.

Lemma longest_from_max cands : forall best c,
  In c (best :: cands) ->
  (length (fst c) <= length (fst (longest_from best cands)))%nat.
Proof.
  induction cands as [|x cands IH]; intros best c Hc; simpl.
  - destruct Hc as [<-|[]]. lia.
  - destruct (Nat.ltb_spec (length (fst best)) (length (fst x))).
    + destruct Hc as [<-|Hc]; [|by apply IH].
      etransitivity; [|apply (IH x x); by left]. lia.
    + destruct Hc as [<-|[<-|Hc]].
      * apply IH. by left.
      * etransitivity; [|apply (IH best best); by left]. lia.
      * apply IH. by right.
Qed.

Lemma name_ok_elim name :
  name_ok name = true ->
  (10 <= length name <= 60)%nat
  /\ forall w, In w PassportPatterns.non_name_words -> ~ occurs_in w name.
Proof.
  unfold name_ok. intros Hok.
  apply andb_true_iff in Hok as [Hok H60]. apply andb_true_iff in Hok as [Hw H10].
  apply Nat.leb_le in H10, H60. split; [lia|].
  intros w Hin Ho. apply str_contains_spec in Ho.
  apply negb_true_iff in Hw.
  assert (Ht : existsb (fun word => str_contains word name)
                 PassportPatterns.non_name_words = true)
    by (apply existsb_exists; eauto).
  congruence.
Qed.

(** X2: the name step.  Without a candidate the record is unchanged.
    Otherwise the stored name is a candidate of 10 to 60 characters that
    holds no stop word, its method is the label of the observation it was
    read from, and the confidence is 0.85 if that label names a preferred
    pass; if no candidate comes from a preferred pass it is 0.75 and no
    candidate is longer than the stored one. *)
Theorem full_name_is_preferred_or_longest (d : data) (bag : list (pystr * pystr)) :
  (name_candidates bag = [] /\ _extract_name d bag = d)
  \/ exists name source,
       In (name, source) (name_candidates bag)
       /\ (exists text, In (source, text) bag)
       /\ (10 <= length name <= 60)%nat
       /\ (forall w, In w PassportPatterns.non_name_words -> ~ occurs_in w name)
       /\ get (_extract_name d bag) "full_name" = Some name
       /\ extraction_method (_extract_name d bag) !! "full_name"%string
          = Some source
       /\ ((preferred source = true
            /\ confidence_scores (_extract_name d bag) !! "full_name"%string
               = Some 0.85%Q)
           \/ ((forall c, In c (name_candidates bag) -> preferred (snd c) = false)
               /\ (forall c, In c (name_candidates bag) ->
                     (length (fst c) <= length name)%nat)
               /\ confidence_scores (_extract_name d bag) !! "full_name"%string
                  = Some 0.75%Q)).
Proof.
  unfold _extract_name. pose proof (name_candidates_ok bag) as Hok.
  rewrite List.Forall_forall in Hok.
  pose proof (name_candidates_source bag) as Hsrc.
  destruct (name_candidates bag) as [|c cs]; [by left|]. right.
  destruct (first_preferred preferred_sources (c :: cs)) as [[name src]|] eqn:Hp.
  - exists name, src. pose proof (first_preferred_In _ _ _ Hp) as Hin.
    destruct (name_ok_elim name (Hok _ Hin)) as [Hl Hw].
    split; [exact Hin|]. split; [eauto|]. split; [exact Hl|].
    split; [exact Hw|]. unfold get. simpl. rewrite !lookup_insert_eq.
    split; [reflexivity|]. split; [reflexivity|]. left. split; [|reflexivity].
    apply first_preferred_some in Hp as (p & Hp & Hs).
    unfold preferred. apply existsb_exists. eauto.
  - pose proof (longest_from_In cs c) as Hin.
    destruct (longest_from c cs) as [name src] eqn:Hlong.
    exists name, src.
    destruct (name_ok_elim name (Hok _ Hin)) as [Hl Hw].
    split; [exact Hin|]. split; [eauto|]. split; [exact Hl|].
    split; [exact Hw|]. unfold get. simpl. rewrite !lookup_insert_eq.
    split; [reflexivity|]. split; [reflexivity|]. right.
    split; [|split; [|reflexivity]].
    + intros x Hx. unfold preferred.
      destruct (existsb _ preferred_sources) eqn:He; [|reflexivity].
      apply existsb_exists in He as (p & Hpin & Hc).
      by rewrite (first_preferred_none _ _ Hp x p Hx Hpin) in Hc.
    + intros x Hx. pose proof (longest_from_max cs c x Hx) as Hm.
      by rewrite Hlong in Hm.
Qed.

End ResolverMore.

Section MatchFacts.
Import PyStr Regex RecordSpec.
Context `{UnicodeData}.
Variable ic : bool.

(** A match of a pattern that consumes is not empty. *)
Lemma Sem_consumes r : forall s s',
  consumes r = true -> Sem ic r s s' -> exists w, w <> [] /\ span s w s'.
Proof.
  induction r as [c|items| | | |a IHa b IHb|a IHa b IHb|lo hi a IHa|a IHa];
    simpl; intros s s' Hc Hs; try discriminate.
  - destruct Hs as (x & t & Ha & _ & ->). exists [x].
    split; [discriminate|by apply span_advance].
  - destruct Hs as (x & t & Ha & _ & ->). exists [x].
    split; [discriminate|by apply span_advance].
  - destruct Hs as (s1 & H1 & H2). apply orb_true_iff in Hc as [Hc|Hc].
    + destruct (IHa _ _ Hc H1) as (w1 & Hn & Hw1).
      apply (Sem_span ic) in H2 as (w2 & Hw2). exists (w1 ++ w2).
      split; [by destruct w1|]. eapply span_trans; eassumption.
    + destruct (IHb _ _ Hc H2) as (w2 & Hn & Hw2).
      apply (Sem_span ic) in H1 as (w1 & Hw1). exists (w1 ++ w2).
      split; [by destruct w1, w2|]. eapply span_trans; eassumption.
  - apply andb_true_iff in Hc as [Hca Hcb]. destruct Hs as [Hs|Hs]; eauto.
  - apply andb_true_iff in Hc as [Hlo Hc]. destruct lo as [|lo]; [discriminate|].
    destruct Hs as (n & Hn & _ & Hi). destruct n as [|n]; [lia|].
    destruct Hi as (s1 & H1 & Hi).
    destruct (IHa _ _ Hc H1) as (w1 & Hne & Hw1).
    apply (iter_span _ _ (Sem_span ic a)) in Hi as (w2 & Hw2).
    exists (w1 ++ w2). split; [by destruct w1|].
    eapply span_trans; eassumption.
  - destruct Hs as (s1 & H1 & ->). destruct (IHa _ _ Hc H1) as (w & Hn & Hw).
    exists w. split; [exact Hn|by apply span_set_group].
Qed.

(** A group that consumes is not the empty string. *)
Lemma Sem_groups_consume r : forall s s',
  groups_consume r = true -> Sem ic r s s' ->
  m_group s <> Some [] -> m_group s' <> Some [].
Proof.
  induction r as [c|items| | | |a IHa b IHb|a IHa b IHb|lo hi a IHa|a IHa];
    simpl; intros s s' Hc Hs Hg.
  - by destruct Hs as (x & t & _ & _ & ->).
  - by destruct Hs as (x & t & _ & _ & ->).
  - by destruct Hs as [_ ->].
  - by destruct Hs as [_ ->].
  - by destruct Hs as [_ ->].
  - apply andb_true_iff in Hc as [Hca Hcb]. destruct Hs as (s1 & H1 & H2). eauto.
  - apply andb_true_iff in Hc as [Hca Hcb]. destruct Hs as [Hs|Hs]; eauto.
  - destruct Hs as (n & _ & _ & Hi).
    eapply (iter_preserves (fun s => m_group s <> Some [])); eauto.
  - destruct Hs as (s1 & H1 & ->). simpl.
    destruct (Sem_consumes a _ _ Hc H1) as (w & Hn & Hw).
    rewrite (captured_span _ _ _ Hw). congruence.
Qed.

(** The matches of a pattern that consumes, and whose groups consume, have
    a group 0 and a group 1 that are not empty. *)
Lemma finditer_not_empty r text :
  consumes r = true -> groups_consume r = true ->
  Forall (fun m => f_text m <> [] /\ f_group m <> Some [])
    (re_finditer ic r text).
Proof.
  intros Hc Hg. apply scan_Forall. intros before after e Hm.
  apply match_here_sound in Hm. split.
  - destruct (Sem_consumes r _ _ Hc Hm) as (w & Hn & Hw).
    by rewrite (found_of_text _ _ _ _ Hw).
  - simpl. eapply Sem_groups_consume; eauto.
Qed.

End MatchFacts.

Section SubstitutionFacts.
Import PyStr Regex.
Context `{UnicodeData}.

(** [re.sub] of a character set, case observed: every character of the
    set gives way to the replacement. *)
Lemma sub_scan_cls items repl : forall after before,
  sub_scan false (Cls items) repl 0 before after
  = flat_map (fun c => if cls_match false items c then repl else [c]) after.
Proof.
  induction after as [|c t IH]; intros before; [reflexivity|].
  cbn [sub_scan flat_map]. unfold match_here. cbn [rmatch m_after].
  destruct (cls_match false items c) eqn:Hc.
  - unfold match_len, advance. cbn [m_before length].
    replace (S (length before) - length before)%nat with 1%nat by lia.
    f_equal. destruct t as [|c' t']; [reflexivity|]. apply IH.
  - simpl. f_equal. apply IH.
Qed.

Lemma re_sub_cls items repl text :
  re_sub false (Cls items) repl text
  = flat_map (fun c => if cls_match false items c then repl else [c]) text.
Proof. apply sub_scan_cls. Qed.

End SubstitutionFacts.

Section NationalIdFacts.
Import PyStr Regex Extractor Spec RecordSpec.
Context `{UnicodeData}.

Lemma digit_match x : cls_match false [CDigit] x = py_isdecimal x.
Proof. unfold cls_match. simpl. apply orb_false_r. Qed.

Lemma iter_digits n s s' :
  iter n (Sem false digit) s s' ->
  exists w, length w = n /\ Forall (fun x => py_isdecimal x = true) w
            /\ span s w s'.
Proof.
  intros Hi. apply iter_cls in Hi as (w & Hl & Hw & Hs & _).
  exists w. split; [exact Hl|]. split; [|exact Hs].
  eapply List.Forall_impl; [|exact Hw]. intros x Hx. simpl in Hx.
  by rewrite <- digit_match.
Qed.

Lemma hyphen_match s s' :
  Sem false (Lit (chr "-")) s s' -> span s [45%N] s'.
Proof.
  intros (x & t & Ha & Hx & ->). unfold lit_match in Hx. simpl in Hx.
  apply N.eqb_eq in Hx. subst x. by apply span_advance.
Qed.

(** What the validation accepts: the three groups, and after them
    nothing or a final line feed (which [$] tolerates). *)
Lemma national_id_format_sound c :
  is_Some (re_match false national_id_format c) ->
  exists v rest, c = v ++ rest /\ national_id_shape v
                 /\ (rest = [] \/ rest = [10%N]).
Proof.
  unfold re_match. intros [f Hf].
  destruct (match_here false national_id_format [] c) as [e|] eqn:Hm;
    [|discriminate].
  apply match_here_sound in Hm. simpl in Hm.
  destruct Hm as (s1 & [_ ->] & s2 & (n1 & Hn1 & Hn1' & Hi1) & s3 & Hh1
                  & s4 & (n2 & Hn2 & Hn2' & Hi2) & s5 & Hh2
                  & s6 & (n3 & Hn3 & Hn3' & Hi3) & He & ->).
  apply iter_digits in Hi1 as (a & Hla & Hda & [_ Ha]).
  apply hyphen_match in Hh1 as [_ Hb1].
  apply iter_digits in Hi2 as (b & Hlb & Hdb & [_ Hb]).
  apply hyphen_match in Hh2 as [_ Hb2].
  apply iter_digits in Hi3 as (cc & Hlc & Hdc & [_ Hc]).
  simpl in Ha. rewrite Hb1, Hb, Hb2, Hc in Ha.
  exists (a ++ [45%N] ++ b ++ [45%N] ++ cc), (m_after s6).
  split; [by rewrite Ha, <- !app_assoc|]. split.
  - exists a, b, cc. split; [reflexivity|]. repeat split; try lia.
    apply Forall_app. split; [exact Hda|]. apply Forall_app. by split.
  - unfold at_end in He. destruct (m_after s6) as [|y [|? ?]];
      [by left| |discriminate].
    apply N.eqb_eq in He. subst y. by right.
Qed.

(** The cleaned candidate holds no white space and no full stop. *)
Lemma clean_national_id_no_blank raw x :
  In x (clean_national_id raw) ->
  cls_match false [CSpace; ch "."] x = false.
Proof.
  unfold clean_national_id. rewrite re_sub_cls. intros Hx.
  apply in_flat_map in Hx as (c & _ & Hx).
  destruct (cls_match false [CSpace; ch "."] c) eqn:Hc.
  - destruct Hx as [<-|[]]. reflexivity.
  - destruct Hx as [<-|[]]. exact Hc.
Qed.

Lemma clean_national_id_valid raw :
  is_Some (re_match false national_id_format (clean_national_id raw)) ->
  national_id_shape (clean_national_id raw).
Proof.
  intros Hv. destruct (national_id_format_sound _ Hv) as (v & rest & Hc & Hs & Hr).
  destruct Hr as [->| ->]; [by rewrite Hc, app_nil_r|].
  assert (Hin : In 10%N (clean_national_id raw))
    by (rewrite Hc; apply in_or_app; right; by left).
  apply clean_national_id_no_blank in Hin. discriminate.
Qed.

Lemma national_id_in_matches_shape p ms :
  Forall (fun m => is_Some (group1_or_0 p m)) ms ->
  exists o, national_id_in_matches p ms = Ok o
            /\ forall c, o = Some c -> national_id_shape c.
Proof.
  induction 1 as [|m ms [c Hc] _ (o & IH & Hne)]; simpl.
  - exists None. split; [reflexivity|discriminate].
  - rewrite Hc.
    destruct (bool_decide _) eqn:Hv; [|eauto].
    exists (Some (clean_national_id c)). split; [reflexivity|].
    intros c' [= <-]. apply bool_decide_eq_true in Hv.
    by apply clean_national_id_valid.
Qed.

Lemma national_id_in_patterns_shape ps text :
  (forall p, In p ps -> In p PassportPatterns.national_id) ->
  exists o, national_id_in_patterns ps text = Ok o
            /\ forall c, o = Some c -> national_id_shape c.
Proof.
  induction ps as [|p ps IH]; intros Hps; simpl.
  - exists None. split; [reflexivity|discriminate].
  - destruct (national_id_in_matches_shape p _
                (national_id_candidate p text (Hps p (or_introl eq_refl))))
      as (o & -> & Hne).
    cbn [mbind result_bind]. destruct o as [c|]; [eauto|].
    apply IH. intros q Hq. apply Hps. by right.
Qed.

(** X3: the national-ID step returns; it leaves the record as it is or
    stores, with confidence 0.9, three groups of 3, 4 and 4 or 5 decimal
    digits joined by hyphens. *)
Theorem national_id_is_three_digit_groups (d : data) (text : pystr) :
  exists d',
    _extract_national_id d text = Ok d'
    /\ (d' = d
        \/ exists v, national_id_shape v
                     /\ d' = set_confidence "national_id" 0.9
                               (set_field "national_id" (Some v) d)).
Proof.
  unfold _extract_national_id.
  destruct (national_id_in_patterns_shape PassportPatterns.national_id text)
    as (o & -> & Hs); [auto|].
  cbn [mbind result_bind]. destruct o as [c|].
  - eexists. split; [reflexivity|]. right. exists c. split; [|reflexivity].
    by apply Hs.
  - exists d. split; [reflexivity|by left].
Qed.

End NationalIdFacts.

Section SexFacts.
Import PyStr Regex Extractor Spec RecordSpec.
Context `{UnicodeData}.

Lemma sex_patterns_checked :
  forallb (fun p => consumes p && groups_consume p
                    && Bool.eqb (has_group p) (sets_group p))
    PassportPatterns.sex = true.
Proof. reflexivity. Qed.

(** The value that a match of a sex pattern offers is not empty: the
    branch [else None] of the assignment is never taken. *)
Lemma sex_match_value p text m :
  In p PassportPatterns.sex -> re_search true p text = Some m ->
  exists c rest, group1_or_0 p m = Some (c :: rest).
Proof.
  intros Hp Hm. pose proof sex_patterns_checked as Hc.
  rewrite forallb_forall in Hc. specialize (Hc p Hp).
  apply andb_true_iff in Hc as [Hc Hg]. apply andb_true_iff in Hc as [Hc Hgc].
  apply eqb_prop in Hg.
  pose proof (finditer_not_empty true p text Hc Hgc) as Hne.
  unfold re_search in Hm. unfold group1_or_0.
  destruct (re_finditer true p text) as [|m0 ms] eqn:Hf; [discriminate|].
  injection Hm as ->. inversion Hne as [|? ? [Ht Hgr] _]; subst.
  destruct (has_group p).
  - assert (Hs : is_Some (f_group m)).
    { pose proof (finditer_group_set true p text (eq_sym Hg)) as Hall.
      rewrite Hf in Hall. by inversion Hall. }
    destruct Hs as [g Hs]. rewrite Hs in *. destruct g; [congruence|eauto].
  - destruct (f_text m); [congruence|eauto].
Qed.

End SexFacts.

Section WritesFacts.
Import PyStr Regex Extractor Spec ResolverSpec RecordSpec.
Context `{UnicodeData}.

(** ** The steps as writes *)

Lemma first_accepted_label bag source c :
  first_accepted bag = Some (source, c) -> In source (map fst bag).
Proof.
  induction bag as [|[src text] bag IH]; simpl; [discriminate|].
  destruct (find passport_shape (observation_candidates text)).
  - intros [= <- _]. by left.
  - intros Hf. right. by apply IH.
Qed.

Lemma passport_number_writes d bag :
  exists d', _extract_passport_number d bag = Ok d'
             /\ writes (map fst bag) "passport_number" [0.95%Q] true d d'.
Proof.
  eexists. split; [apply extract_passport_number_spec|].
  destruct (first_accepted bag) as [[source c]|] eqn:Hf; [|by left].
  right. exists c, 0.95%Q. simpl. split; [by left|].
  split; [reflexivity|]. split; [reflexivity|].
  exists source. split; [|reflexivity]. by eapply first_accepted_label.
Qed.

Lemma national_id_writes labels d text :
  exists d', _extract_national_id d text = Ok d'
             /\ writes labels "national_id" [0.9%Q] false d d'.
Proof.
  unfold _extract_national_id.
  destruct (national_id_in_patterns_ok PassportPatterns.national_id text)
    as (o & -> & _); [auto|].
  cbn [mbind result_bind]. destruct o as [c|].
  - eexists. split; [reflexivity|]. right. exists c, 0.9%Q. simpl.
    split; [by left|]. auto.
  - exists d. split; [reflexivity|by left].
Qed.

Lemma assign_writes labels k (o : option pystr) q d :
  writes labels k [q] false d (assign k o q d).
Proof.
  destruct o as [x|]; [|by left]. right. exists x, q. simpl.
  split; [by left|]. auto.
Qed.

Lemma name_writes d bag :
  writes (map fst bag) "full_name" [0.85%Q; 0.75%Q] true d (_extract_name d bag).
Proof.
  unfold _extract_name. pose proof (name_candidates_source bag) as Hsrc.
  destruct (name_candidates bag) as [|c cs]; [by left|].
  assert (Hl : forall x, In x (c :: cs) -> In (snd x) (map fst bag)).
  { intros [name src] Hx. destruct (Hsrc name src Hx) as (text & Ht).
    apply in_map_iff. by exists (src, text). }
  destruct (first_preferred preferred_sources (c :: cs)) as [[name src]|] eqn:Hp.
  - right. exists name, 0.85%Q. simpl. split; [by left|].
    split; [reflexivity|]. split; [reflexivity|].
    exists src. split; [|reflexivity].
    apply (Hl (name, src)). by eapply first_preferred_In.
  - right. exists (fst (longest_from c cs)), 0.75%Q. simpl.
    split; [right; by left|]. split; [reflexivity|]. split; [reflexivity|].
    exists (snd (longest_from c cs)). split; [|reflexivity].
    apply Hl, longest_from_In.
Qed.

Lemma sex_writes labels ps d text :
  (forall p, In p ps -> In p PassportPatterns.sex) ->
  writes labels "sex" [0.95%Q] false d (sex_in_patterns ps d text).
Proof.
  induction ps as [|pattern rest IH]; intros Hps; simpl; [by left|].
  destruct (re_search true pattern text) as [m|] eqn:Hm.
  - destruct (sex_match_value pattern text m (Hps _ (or_introl eq_refl)) Hm)
      as (c & w & ->).
    right. exists (upper_char c), 0.95%Q. simpl. split; [by left|]. auto.
  - apply IH. intros p Hp. apply Hps. by right.
Qed.

Lemma place_writes labels d text :
  writes labels "place_of_birth" [0.85%Q] false d (_extract_place_of_birth d text).
Proof.
  unfold _extract_place_of_birth.
  destruct (find _ PassportPatterns.sudan_places) as [place|]; [|by left].
  right. exists place, 0.85%Q. simpl. split; [by left|]. auto.
Qed.

(** ** What a write keeps *)

Lemma writes_confidence labels k qs m d d' :
  In (k, qs) confidence_table ->
  writes labels k qs m d d' -> confidence_sound d -> confidence_sound d'.
Proof.
  intros Hk [->|(x & q & Hq & Hf & Hc & _)] Hs; [exact Hs|].
  intros j r. rewrite Hc, lookup_insert, (get_insert d d' k (Some x) j Hf).
  destruct (decide (k = j)) as [<-|Hj].
  - intros [= <-]. split; eauto.
  - apply Hs.
Qed.

Lemma writes_method labels k qs m d d' :
  (m = true <-> In k method_keys) ->
  writes labels k qs m d d' -> method_sound labels d -> method_sound labels d'.
Proof.
  intros Hm [->|(x & q & _ & Hf & _ & Hw)] [H1 H2]; [by split|].
  split.
  - intros j s. rewrite (get_insert d d' k (Some x) j Hf).
    destruct m.
    + destruct Hw as (s0 & Hs0 & ->). rewrite lookup_insert.
      destruct (decide (k = j)) as [<-|Hj]; [|apply H1].
      intros [= <-]. split; [by apply Hm|]. eauto.
    + rewrite Hw. destruct (decide (k = j)) as [<-|Hj]; [|apply H1].
      intros Hs. destruct (H1 _ _ Hs) as (Hin & _). apply Hm in Hin.
      discriminate.
  - intros j Hj. rewrite (get_insert d d' k (Some x) j Hf).
    destruct m.
    + destruct Hw as (s0 & Hs0 & ->). rewrite lookup_insert.
      destruct (decide (k = j)); [eauto|by apply H2].
    + rewrite Hw. destruct (decide (k = j)) as [<-|Hkj]; [|by apply H2].
      apply Hm in Hj. discriminate.
Qed.

Lemma nationality_confidence d text :
  confidence_sound d -> confidence_sound (_extract_nationality d text).
Proof.
  intros Hs. destruct (extract_nationality_cases d text) as [-> | ->];
    [exact Hs|].
  intros j r. unfold get. simpl. rewrite !lookup_insert.
  destruct (decide ("nationality"%string = j)) as [<-|Hj].
  - intros [= <-]. repeat (case_decide; try done).
    split; [eauto|]. exists [0.95%Q]. split; [simpl; tauto|by left].
  - intros Hr. destruct (Hs j r Hr) as [Hg Hq]. split; [|exact Hq].
    repeat (case_decide; [eauto|]). exact Hg.
Qed.

Lemma nationality_method labels d text :
  method_sound labels d -> method_sound labels (_extract_nationality d text).
Proof.
  intros [H1 H2]. destruct (extract_nationality_cases d text) as [-> | ->];
    [by split|].
  split.
  - intros j s Hs. simpl in Hs. destruct (H1 j s Hs) as (Hj & Hl & Hg).
    split; [exact Hj|]. split; [exact Hl|]. unfold get. simpl.
    rewrite !lookup_insert. repeat (case_decide; [eauto|]). exact Hg.
  - intros j Hj. unfold get. simpl. rewrite !lookup_insert.
    destruct Hj as [<-|[<-|[]]]; repeat (case_decide; try done); apply H2;
      simpl; auto.
Qed.

Lemma initial_sound labels :
  confidence_sound initial_data /\ method_sound labels initial_data.
Proof.
  split; [|split].
  - intros k q Hq. by rewrite initial_confidence in Hq.
  - intros k s Hs. by rewrite initial_method in Hs.
  - intros k _ [x Hx]. by rewrite initial_get in Hx.
Qed.

(** The resolver returns a record whose confidences and methods are
    sound. *)
Lemma smart_field_extraction_sound bag :
  exists d, _smart_field_extraction bag = Ok d
            /\ confidence_sound d /\ method_sound (map fst bag) d.
Proof.
  unfold _smart_field_extraction. fold (combined_text bag).
  set (labels := map fst bag). set (text := combined_text bag).
  destruct (initial_sound labels) as [C0 M0].
  destruct (passport_number_writes initial_data bag) as (d1 & -> & W1).
  destruct (national_id_writes labels d1 text) as (d2 & E2 & W2).
  destruct (extract_dates_spec d2 text) as (ks & _ & _ & _ & E3).
  cbn [mbind result_bind]. rewrite E2. cbn [mbind result_bind]. rewrite E3.
  cbn [mbind result_bind mret result_ret]. eexists. split; [reflexivity|].
  pose proof (assign_writes labels "date_of_birth" (date_of <$> birth_of ks)
                0.85%Q d2) as W3.
  pose proof (fun d => assign_writes labels "date_of_issue"
                (date_of <$> issue_of ks) 0.8%Q d) as W4'.
  pose proof (fun d => assign_writes labels "date_of_expiry"
                (date_of <$> expiry_of ks) 0.85%Q d) as W5.
  pose proof (fun d => name_writes d bag) as W6.
  pose proof (fun d => sex_writes labels PassportPatterns.sex d text
                         (fun p Hp => Hp)) as W7.
  pose proof (fun d => place_writes labels d text) as W8.
  unfold assign_dates. split.
  - apply nationality_confidence.
    eapply writes_confidence; [|apply W8|]; [simpl; tauto|].
    eapply writes_confidence; [|apply W7|]; [simpl; tauto|].
    eapply writes_confidence; [|apply W6|]; [simpl; tauto|].
    eapply writes_confidence; [|apply W5|]; [simpl; tauto|].
    eapply writes_confidence; [|apply W4'|]; [simpl; tauto|].
    eapply writes_confidence; [|apply W3|]; [simpl; tauto|].
    eapply writes_confidence; [|apply W2|]; [simpl; tauto|].
    eapply writes_confidence; [|apply W1|]; [simpl; tauto|]. exact C0.
  - assert (Hno : forall k : string,
              k <> "passport_number"%string -> k <> "full_name"%string ->
              false = true <-> In k method_keys).
    { intros k Hk1 Hk2. simpl. split; [discriminate|]. intros [?|[?|[]]]; congruence. }
    assert (Hyes : forall k : string, In k method_keys -> true = true <-> In k method_keys)
      by tauto.
    apply nationality_method.
    eapply writes_method; [|apply W8|]; [by apply Hno|].
    eapply writes_method; [|apply W7|]; [by apply Hno|].
    eapply writes_method; [|apply W6|]; [apply Hyes; simpl; tauto|].
    eapply writes_method; [|apply W5|]; [by apply Hno|].
    eapply writes_method; [|apply W4'|]; [by apply Hno|].
    eapply writes_method; [|apply W3|]; [by apply Hno|].
    eapply writes_method; [|apply W2|]; [by apply Hno|].
    eapply writes_method; [|apply W1|]; [apply Hyes; simpl; tauto|]. exact M0.
Qed.

(** X4: in the record that [extract] returns a confidence is recorded
    only for a field that holds a string, and its value is the one that
    the step of that field attaches: 0.95 for the passport number, the sex
    and the nationality, 0.9 for the national ID, 0.85 for the dates of
    birth and expiry and the place of birth, 0.8 for the date of issue,
    0.85 or 0.75 for the name. *)
Theorem confidence_only_for_stored_fields (bag : list (pystr * pystr)) :
  exists e,
    extract_texts bag = Ok e
    /\ forall k q, confidence_scores (e_data e) !! k = Some q ->
         is_Some (get (e_data e) k)
         /\ exists qs, In (k, qs) confidence_table /\ In q qs.
Proof.
  destruct (smart_field_extraction_sound bag) as (d & E & Hc & _).
  exists (Extraction d (_calculate_score d) (_generate_summary d)).
  split; [unfold extract_texts; rewrite E; reflexivity|]. exact Hc.
Qed.

(** X5: the extraction method is recorded for the passport number and the
    full name and for no other field, exactly when the field holds a
    value, and it is the label of one of the observations. *)
Theorem method_recorded_for_number_and_name (bag : list (pystr * pystr)) :
  exists e,
    extract_texts bag = Ok e
    /\ (forall k s, extraction_method (e_data e) !! k = Some s ->
          In k method_keys /\ In s (map fst bag) /\ is_Some (get (e_data e) k))
    /\ (forall k, In k method_keys -> is_Some (get (e_data e) k) ->
          is_Some (extraction_method (e_data e) !! k)).
Proof.
  destruct (smart_field_extraction_sound bag) as (d & E & _ & Hm).
  exists (Extraction d (_calculate_score d) (_generate_summary d)).
  split; [unfold extract_texts; rewrite E; reflexivity|]. exact Hm.
Qed.

(** ** The summary *)

Lemma filter_length_cons {A : Type} (f : A -> bool) x l :
  length (List.filter f (x :: l))
  = ((if f x then 1 else 0) + length (List.filter f l))%nat.
Proof. simpl. by destruct (f x). Qed.

(** X6: the summary counts the eight fields of the score, the place of
    birth and the country code, which is there exactly when the
    nationality is: it reads n/10 with n the number of scored fields, plus
    one for a place of birth, plus one more for a nationality. *)
Theorem summary_counts_nationality_twice (bag : list (pystr * pystr)) :
  exists e,
    extract_texts bag = Ok e
    /\ let n := (count_present important_fields (e_data e)
                 + (if present (e_data e) "place_of_birth" then 1 else 0)
                 + (if present (e_data e) "nationality" then 1 else 0))%nat in
       extraction_summary e
       = str_of_N (N.of_nat n) ++ u "/10 fields extracted"
       /\ (n <= 10)%nat.
Proof.
  destruct (smart_field_extraction_invariants bag) as (d & E & _ & Hne & Hcc & _).
  exists (Extraction d (_calculate_score d) (_generate_summary d)).
  split; [unfold extract_texts; rewrite E; reflexivity|]. cbn [e_data extraction_summary].
  assert (Hn : count_extracted summary_fields d
               = (count_present important_fields d
                  + (if present d "place_of_birth" then 1 else 0)
                  + (if present d "nationality" then 1 else 0))%nat).
  { rewrite (count_extracted_present _ _ Hne). rewrite <- Hcc.
    unfold count_present, summary_fields, important_fields.
    rewrite !filter_length_cons. simpl. lia. }
  split.
  - unfold _generate_summary. rewrite Hn. reflexivity.
  - rewrite <- Hn. unfold count_extracted.
    etransitivity; [apply List.filter_length_le|]. simpl. lia.
Qed.

End WritesFacts.

Section PassesFacts.
Import PyStr Extractor Spec RecordSpec Passes PassesSpec.
Context `{UnicodeData} {Image : Type} `{Tesseract Image}.
Variable config : ExtractorConfig.

Lemma str_lstrip_nil s :
  str_lstrip s = [] <-> forallb py_isspace s = true.
Proof.
  induction s as [|c s IH]; simpl; [tauto|].
  destruct (py_isspace c); simpl; [exact IH|]. split; discriminate.
Qed.

Lemma forallb_rev {A : Type} (f : A -> bool) l :
  forallb f (rev l) = forallb f l.
Proof.
  apply eq_true_iff_eq. rewrite !forallb_forall.
  split; intros Hf x Hx; apply Hf; [by apply in_rev in Hx|by apply in_rev].
Qed.

(** A text is blank exactly if it holds white space only. *)
Lemma nonblank_spec text :
  nonblank text = negb (forallb py_isspace text).
Proof.
  unfold nonblank, str_strip.
  destruct (forallb py_isspace text) eqn:Hall.
  - apply str_lstrip_nil in Hall. rewrite Hall. reflexivity.
  - destruct (rev (str_lstrip (rev (str_lstrip text)))) eqn:Hr; [|reflexivity].
    apply (f_equal (@rev N)) in Hr. rewrite rev_involutive in Hr. simpl in Hr.
    apply str_lstrip_nil in Hr. rewrite forallb_rev in Hr.
    assert (Hl : str_lstrip text <> []).
    { intros Hl. apply str_lstrip_nil in Hl. congruence. }
    destruct text as [|c t]; [discriminate|].
    exfalso. clear Hl. revert Hr Hall. generalize (c :: t). intros s.
    induction s as [|x s IH]; simpl; [discriminate|].
    destruct (py_isspace x) eqn:Hx; simpl; [exact IH|].
    rewrite Hx. discriminate.
Qed.

Lemma string_pass_spec label r x :
  In x (string_pass label r) -> fst x = label /\ nonblank (snd x) = true.
Proof.
  unfold string_pass. destruct r as [text|e]; [|contradiction].
  destruct (nonblank text) eqn:Hn; [|contradiction].
  intros [<-|[]]. auto.
Qed.

Lemma string_pass_sublist label r :
  sublist (map fst (string_pass label r)) [label].
Proof.
  unfold string_pass. destruct r as [text|e]; [|apply sublist_nil_l].
  destruct (nonblank text); [reflexivity|apply sublist_nil_l].
Qed.

Lemma high_conf_loop_nonblank texts : forall confs i acc out,
  Forall (fun t => nonblank t = true) acc ->
  high_conf_loop config texts i confs acc = Ok out ->
  Forall (fun t => nonblank t = true) out.
Proof.
  induction confs as [|conf rest IH]; intros i acc out Hacc; simpl.
  - by intros [= <-].
  - destruct (int_of_conf conf) as [c|e]; [|discriminate].
    cbn [mbind result_bind].
    destruct (negb _); [|by apply IH].
    destruct (py_index texts (Z.of_nat i)) as [text|e]; [|discriminate].
    cbn [mbind result_bind]. apply IH.
    destruct (nonblank text) eqn:Hn; [|exact Hacc].
    apply Forall_app. split; [exact Hacc|]. by constructor.
Qed.

Lemma join_nonblank t ts :
  nonblank t = true -> nonblank (str_join (u " ") (t :: ts)) = true.
Proof.
  rewrite !nonblank_spec, !negb_true_iff. intros Ht.
  assert (Hj : exists rest, str_join (u " ") (t :: ts) = t ++ rest).
  { destruct ts; simpl; [exists []; by rewrite app_nil_r|eauto]. }
  destruct Hj as (rest & ->). rewrite forallb_app, Ht. reflexivity.
Qed.

Lemma high_confidence_pass_spec image x :
  In x (high_confidence_pass config image) ->
  fst x = u "high_confidence" /\ nonblank (snd x) = true.
Proof.
  unfold high_confidence_pass.
  destruct (image_to_data image) as [[confs texts]|e]; [|contradiction].
  cbn [mbind result_bind fst snd].
  destruct (high_conf_loop config texts 0 confs []) as [[|t ts]|e] eqn:Hl;
    try contradiction.
  intros [<-|[]]. split; [reflexivity|].
  apply high_conf_loop_nonblank in Hl; [|constructor].
  inversion Hl; subst. by apply join_nonblank.
Qed.

Lemma high_confidence_pass_sublist image :
  sublist (map fst (high_confidence_pass config image)) [u "high_confidence"].
Proof.
  unfold high_confidence_pass.
  destruct (_ ← image_to_data image; _) as [[|t ts]|e];
    [apply sublist_nil_l|reflexivity|apply sublist_nil_l].
Qed.

(** X7: the passes over one image give at most eleven observations, with
    distinct labels in the fixed order of the passes. *)
Theorem multi_pass_labels_in_order (image : Image) :
  sublist (map fst (_multi_pass_extraction config image)) pass_labels
  /\ (length (_multi_pass_extraction config image) <= 11)%nat.
Proof.
  assert (Hs : sublist (map fst (_multi_pass_extraction config image))
                 pass_labels).
  { unfold _multi_pass_extraction, _extract_from_regions, configs.
    destruct (shape image) as [height width].
    cbn [flat_map fst snd]. rewrite !app_nil_r, !map_app.
    change pass_labels with
      ((([u "standard"] ++ [u "single_column"] ++ [u "uniform_block"]
         ++ [u "single_line"] ++ [u "sparse_text"])
        ++ [u "eng_lang"] ++ [u "ara_lang"])
       ++ [u "high_confidence"]
       ++ [u "region_top_right"] ++ [u "region_center"] ++ [u "region_bottom"]).
    rewrite <- !app_assoc.
    repeat (apply sublist_app;
            [first [apply string_pass_sublist
                   |apply high_confidence_pass_sublist]|]).
    apply string_pass_sublist. }
  split; [exact Hs|].
  apply sublist_length in Hs. rewrite length_map in Hs. exact Hs.
Qed.

Lemma multi_pass_observation image label text :
  In (label, text) (_multi_pass_extraction config image) ->
  In label pass_labels /\ nonblank text = true.
Proof.
  intros Hin.
  unfold _multi_pass_extraction, _extract_from_regions, configs in Hin.
  destruct (shape image) as [height width].
  cbn [flat_map fst snd] in Hin. rewrite !app_nil_r in Hin.
  repeat (apply in_app_or in Hin as [Hin|Hin]);
    first [apply string_pass_spec in Hin as [Hl Hn]
          |apply high_confidence_pass_spec in Hin as [Hl Hn]];
    cbn [fst snd] in Hl, Hn; subst label;
    (split; [simpl; tauto|exact Hn]).
Qed.

(** X8: no pass gives a blank text: every observation has the label of
    its pass and holds a character that is not white space. *)
Theorem multi_pass_texts_not_blank (image : Image) (label text : pystr) :
  In (label, text) (_multi_pass_extraction config image) ->
  In label pass_labels /\ exists c, In c text /\ py_isspace c = false.
Proof.
  intros Hin. destruct (multi_pass_observation _ _ _ Hin) as [Hl Hn].
  split; [exact Hl|].
  rewrite nonblank_spec, negb_true_iff in Hn.
  destruct (existsb (fun c => negb (py_isspace c)) text) eqn:He.
  - apply existsb_exists in He as (c & Hc & Hs).
    exists c. split; [exact Hc|]. by apply negb_true_iff.
  - exfalso. rewrite <- not_true_iff_false in Hn. apply Hn.
    apply forallb_forall. intros c Hc.
    destruct (py_isspace c) eqn:Hs; [reflexivity|].
    rewrite <- not_true_iff_false in He. exfalso. apply He.
    apply existsb_exists. exists c. by rewrite Hs.
Qed.

(** ** The high-confidence pass *)

Lemma high_conf_loop_kept confs : forall ints pre suf acc,
  traverse int_of_conf confs = Ok ints ->
  (length confs <= length suf)%nat ->
  high_conf_loop config (pre ++ suf) (length pre) confs acc
  = Ok (acc ++ kept_tokens (threshold_of config) ints suf).
Proof.
  induction confs as [|conf rest IH]; intros ints pre suf acc Ht Hl.
  - injection Ht as <-. simpl. by rewrite app_nil_r.
  - simpl in Ht. destruct (int_of_conf conf) as [c|e] eqn:Hc; [|discriminate].
    cbn [mbind result_bind] in Ht.
    destruct (traverse int_of_conf rest) as [zs|e] eqn:Hr; [|discriminate].
    injection Ht as <-. destruct suf as [|text suf]; [simpl in Hl; lia|].
    simpl in Hl. cbn [high_conf_loop]. rewrite Hc. cbn [mbind result_bind].
    assert (Hi : py_index (pre ++ text :: suf) (Z.of_nat (length pre)) = Ok text).
    { apply py_index_nat. by rewrite list_lookup_middle. }
    specialize (IH zs (pre ++ [text]) suf).
    rewrite <- app_assoc, length_app, Nat.add_1_r in IH. simpl in IH.
    unfold kept_tokens. cbn [combine List.filter fst snd].
    destruct (negb (Qle_bool (inject_Z c) (threshold_of config))); simpl.
    + rewrite Hi. cbn [mbind result_bind]. rewrite IH by (auto; lia).
      destruct (nonblank text); simpl; [by rewrite <- app_assoc|reflexivity].
    + rewrite IH by (auto; lia). reflexivity.
Qed.

(** X9: if every confidence converts to an integer and no text is
    missing, the high-confidence observation is the blank-separated
    sequence of the tokens whose confidence exceeds the threshold (60 if
    the configuration gives none) and that are not blank; without such a
    token there is no observation. *)
Theorem high_confidence_joins_kept_tokens (image : Image)
  (confs : list conf_value) (texts : list pystr) (ints : list Z) :
  image_to_data image = Ok (confs, texts) ->
  traverse int_of_conf confs = Ok ints ->
  (length confs <= length texts)%nat ->
  high_confidence_pass config image
  = match kept_tokens (threshold_of config) ints texts with
    | [] => []
    | t :: ts => [(u "high_confidence", str_join (u " ") (t :: ts))]
    end.
Proof.
  intros Hd Ht Hl. unfold high_confidence_pass. rewrite Hd.
  cbn [mbind result_bind fst snd].
  pose proof (high_conf_loop_kept confs ints [] texts [] Ht Hl) as Hk.
  simpl in Hk. rewrite Hk. reflexivity.
Qed.

Lemma high_conf_loop_raises texts conf : forall confs i acc,
  In conf confs -> raises (int_of_conf conf) ->
  raises (high_conf_loop config texts i confs acc).
Proof.
  induction confs as [|c rest IH]; intros i acc Hin Hr; [contradiction|].
  simpl. destruct Hin as [->|Hin].
  - destruct (int_of_conf conf); [contradiction|exact I].
  - destruct (int_of_conf c) as [z|e]; [|exact I]. cbn [mbind result_bind].
    destruct (negb _); [|by apply IH].
    destruct (py_index texts (Z.of_nat i)); [|exact I].
    cbn [mbind result_bind]. by apply IH.
Qed.

(** X10: one confidence that does not convert to an integer drops the
    whole high-confidence pass, whatever the other tokens are. *)
Theorem high_confidence_all_or_nothing (image : Image)
  (confs : list conf_value) (texts : list pystr) (conf : conf_value) :
  image_to_data image = Ok (confs, texts) ->
  In conf confs -> raises (int_of_conf conf) ->
  high_confidence_pass config image = [].
Proof.
  intros Hd Hin Hr. unfold high_confidence_pass. rewrite Hd.
  cbn [mbind result_bind fst snd].
  pose proof (high_conf_loop_raises texts conf confs 0%nat [] Hin Hr) as Hl.
  destruct (high_conf_loop config texts 0 confs []); [contradiction|reflexivity].
Qed.

End PassesFacts.

Section ExtractFacts.
Import PyStr Extractor Spec RecordSpec Passes PassesSpec.
Context `{UnicodeData} {Image : Type} `{Tesseract Image}.
Variable config : ExtractorConfig.

(** ** [extract] over the passes *)

Lemma extract_images_bag images s :
  In s (map fst
          (flat_map (fun pi : pystr * Image =>
             map (fun mt : pystr * pystr => (fst pi ++ u "_" ++ fst mt, snd mt))
               (_multi_pass_extraction config (snd pi)))
             images)) ->
  exists variant image label,
    In (variant, image) images /\ In label pass_labels
    /\ s = variant ++ u "_" ++ label.
Proof.
  intros Hs. apply in_map_iff in Hs as ([s' text] & Hs & Hin). simpl in Hs.
  subst s'. apply in_flat_map in Hin as ([variant image] & Hi & Hin).
  apply in_map_iff in Hin as ([label t] & Heq & Hin). cbn [fst snd] in *.
  injection Heq as <- <-.
  apply multi_pass_observation in Hin as [Hl _].
  exists variant, image, label. auto.
Qed.

(** X11: the method that [extract] records for a field names the image
    variant and the pass that gave the observation: it is the key of a
    variant, an underscore, and one of the eleven pass labels. *)
Theorem method_names_variant_and_pass (images : list (pystr * Image)) :
  exists e,
    extract_images config images = Ok e
    /\ forall k s, extraction_method (e_data e) !! k = Some s ->
         exists variant image label,
           In (variant, image) images /\ In label pass_labels
           /\ s = variant ++ u "_" ++ label.
Proof.
  unfold extract_images, extract.
  destruct (smart_field_extraction_sound
              (flat_map (fun pi : pystr * Image =>
                 map (fun mt : pystr * pystr =>
                        (fst pi ++ u "_" ++ fst mt, snd mt))
                   (_multi_pass_extraction config (snd pi)))
                 images)) as (d & E & _ & Hm & _).
  exists (Extraction d (_calculate_score d) (_generate_summary d)).
  split; [unfold extract_texts; rewrite E; reflexivity|].
  intros k s Hs. destruct (Hm k s Hs) as (_ & Hl & _).
  by apply extract_images_bag.
Qed.

Lemma string_pass_blank label r :
  (forall text, r = Ok text -> nonblank text = false) ->
  string_pass label r = [].
Proof.
  intros Hb. unfold string_pass. destruct r as [text|e]; [|reflexivity].
  by rewrite (Hb text eq_refl).
Qed.

Lemma multi_pass_reads_nothing image :
  reads_nothing image -> _multi_pass_extraction config image = [].
Proof.
  intros [Hs Hd]. unfold _multi_pass_extraction, _extract_from_regions, configs.
  destruct (shape image) as [height width]. cbn [flat_map fst snd].
  rewrite !string_pass_blank by apply Hs.
  unfold high_confidence_pass.
  destruct (image_to_data image); [contradiction|reflexivity].
Qed.

Lemma extract_texts_nil :
  exists e, extract_texts [] = Ok e
            /\ (extraction_score e == 0)%Q
            /\ extraction_summary e = u "0/10 fields extracted"
            /\ e_data e = initial_data.
Proof. eexists. split; [reflexivity|]. repeat split. Qed.

(** X12: if the recognition engine reads nothing in any variant (every
    call raises or gives a blank text), [extract] still returns: no field
    holds a value, the score is 0 and the summary counts 0 of 10. *)
Theorem extract_of_unreadable_images (images : list (pystr * Image)) :
  (forall variant image, In (variant, image) images -> reads_nothing image) ->
  exists e,
    extract_images config images = Ok e
    /\ (forall k, get (e_data e) k = None)
    /\ (extraction_score e == 0)%Q
    /\ extraction_summary e = u "0/10 fields extracted".
Proof.
  intros Hall. unfold extract_images, extract.
  assert (Hbag : flat_map (fun pi : pystr * Image =>
                   map (fun mt : pystr * pystr =>
                          (fst pi ++ u "_" ++ fst mt, snd mt))
                     (_multi_pass_extraction config (snd pi)))
                   images = []).
  { induction images as [|[variant image] rest IH]; [reflexivity|].
    cbn [flat_map fst snd].
    rewrite (multi_pass_reads_nothing image) by (eapply Hall; by left).
    apply IH. intros v i Hi. eapply Hall. right. exact Hi. }
  rewrite Hbag. destruct extract_texts_nil as (e & E & Hs & Hsum & Hd).
  exists e. split; [exact E|]. split; [|auto].
  intros k. rewrite Hd. apply initial_get.
Qed.

End ExtractFacts.

Section FaceMore.
Import PyStr FaceProcessor FaceSpec FaceFacts.
Context {Image : Type} `{Engines Image}.
Variable config : Config.
Local Open Scope Q_scope.

(** ** Extraction of the document face *)

Ltac both_or_neither :=
  simpl; split; split; intros Hx;
  first [reflexivity | discriminate | (destruct Hx as [? Hx]; discriminate)
        | eauto].

Lemma extraction_both_or_neither (document_image : Image)
  (document_type : string) :
  let r := extract_face_from_document config document_image document_type in
  (is_Some (fst r) <-> is_Some (snd r))
  /\ (fst r = None <-> snd r = None).
Proof.
  cbv zeta. unfold extract_face_from_document.
  destruct (face_app_get _) as [[|f fs]|e]; cbn [mbind result_bind].
  - destruct (to_gray _) as [gray|e]; cbn [mbind result_bind];
      [|both_or_neither].
    destruct (detectMultiScale gray) as [[|b bs]|e]; cbn [mbind result_bind];
      [both_or_neither| |both_or_neither].
    destruct (max_from _ b bs) as [[[x y] w] h]. both_or_neither.
  - destruct (bbox (max_from _ f fs)) as [[[x y] x2] y2]. both_or_neither.
  - both_or_neither.
Qed.

(** X13: the face image and its metadata come together: the extraction
    returns both or neither, whatever the engines do. *)
Theorem face_and_metadata_together (document_image : Image)
  (document_type : string) :
  let r := extract_face_from_document config document_image document_type in
  (is_Some (fst r) <-> is_Some (snd r))
  /\ (fst r = None <-> snd r = None).
Proof. apply extraction_both_or_neither. Qed.

Lemma max_from_greatest {A : Type} (key : A -> Q) (xs : list A) : forall best,
  In (max_from (fun a b => Qle_bool (key a) (key b)) best xs) (best :: xs)
  /\ forall x, In x (best :: xs) ->
       key x <= key (max_from (fun a b => Qle_bool (key a) (key b)) best xs).
Proof.
  induction xs as [|y xs IH]; intros best; simpl.
  - split; [by left|]. intros x [<-|[]]. apply Qle_refl.
  - destruct (Qle_bool (key y) (key best)) eqn:Hle.
    + apply Qle_bool_iff in Hle. destruct (IH best) as [Hin Hmax].
      split; [destruct Hin; auto|].
      intros x [<-|[<-|Hx]]; [apply Hmax; by left| |apply Hmax; by right].
      eapply Qle_trans; [exact Hle|]. apply Hmax. by left.
    + assert (Hlt : key best <= key y).
      { apply Qlt_le_weak, Qnot_le_lt. intros Hc.
        apply Qle_bool_iff in Hc. congruence. }
      destruct (IH y) as [Hin Hmax].
      split; [destruct Hin; auto|].
      intros x [<-|[<-|Hx]]; [|apply Hmax; by left|apply Hmax; by right].
      eapply Qle_trans; [exact Hlt|]. apply Hmax. by left.
Qed.

(** X14: if the primary engine finds faces in the region of the
    photograph, the extraction describes the one with the greatest
    detection score: the metadata are those of that face, with its
    embedding, and the cascade classifier is not asked. *)
Theorem primary_face_has_greatest_score (document_image : Image)
  (document_type : string) (faces : list Face) :
  face_app_get (document_roi document_image document_type) = Ok faces ->
  faces <> [] ->
  exists best,
    In best faces
    /\ (forall f, In f faces -> det_score f <= det_score best)
    /\ snd (extract_face_from_document config document_image document_type)
       = Some (metadata_of_face best)
    /\ md_embedding (metadata_of_face best) = embedding best
    /\ md_method (metadata_of_face best) = None.
Proof.
  intros Hf Hne. destruct faces as [|f fs]; [done|].
  destruct (max_from_greatest det_score fs f) as [Hin Hmax].
  exists (max_from (fun a b => Qle_bool (det_score a) (det_score b)) f fs).
  split; [exact Hin|]. split; [exact Hmax|].
  unfold extract_face_from_document. rewrite Hf. cbn [mbind result_bind].
  unfold metadata_of_face.
  destruct (bbox (max_from _ f fs)) as [[[x y] x2] y2]. auto.
Qed.

(** X15: if only the cascade classifier finds a face, the box that the
    metadata report lies within the region of the photograph: padding
    never moves it beyond the borders.  The detection score is the fixed
    0.8, and there is no embedding. *)
Theorem cascade_box_within_region (document_image gray : Image)
  (document_type : string) (boxes : list box) :
  let roi := document_roi document_image document_type in
  face_app_get roi = Ok [] ->
  to_gray roi = Ok gray ->
  detectMultiScale gray = Ok boxes ->
  boxes <> [] ->
  exists face md,
    extract_face_from_document config document_image document_type
    = (Some face, Some md)
    /\ box_within (img_shape roi) (md_bbox md)
    /\ md_det_score md = 0.8
    /\ md_embedding md = None
    /\ md_method md = Some "cascade"%string.
Proof.
  cbv zeta. intros Hf Hg Hd Hne. destruct boxes as [|b bs]; [done|].
  unfold extract_face_from_document. rewrite Hf. cbn [mbind result_bind].
  rewrite Hg. cbn [mbind result_bind]. rewrite Hd. cbn [mbind result_bind].
  destruct (max_from _ b bs) as [[[x y] w] h].
  eexists _, _. split; [reflexivity|]. simpl. repeat split; lia.
Qed.

(** ** Comparison *)

Lemma verify_primary_decision id_face selfie_face md r :
  verify_primary config id_face selfie_face md = Ok r ->
  verified r = Qle_bool (1 - verification_threshold config) (confidence r).
Proof.
  unfold verify_primary.
  destruct (face_app_get selfie_face) as [faces|e]; [|discriminate].
  cbn [mbind result_bind].
  destruct (match md with Some _ => _ | None => _ end) as [ea|];
    [|discriminate].
  destruct faces as [|f fs]; [discriminate|].
  destruct (_cosine_similarity (Some ea) (embedding f)); [|discriminate].
  cbn [mbind result_bind]. by intros [= <-].
Qed.

Lemma fallback_decision id_face selfie_face r :
  _verify_with_face_recognition config id_face selfie_face = Ok r ->
  verified r = Qle_bool (verification_threshold config) (confidence r).
Proof.
  unfold _verify_with_face_recognition.
  destruct (face_encodings id_face) as [ids|]; [|discriminate].
  destruct (face_encodings selfie_face) as [selfies|]; [|discriminate].
  cbn [mbind result_bind].
  destruct ids as [|id0 ?]; [discriminate|].
  destruct selfies as [|selfie0 ?]; [discriminate|].
  destruct (py_min _); [|discriminate]. cbn [mbind result_bind].
  destruct (face_locations_of id_face); [|discriminate].
  destruct (face_locations_of selfie_face); [|discriminate].
  cbn [mbind result_bind]. by intros [= <-].
Qed.

(** X16: every comparison returns, and its verdict follows from its
    confidence and its method alone: the primary engine verifies from the
    confidence 1 - threshold on, the fallback from the confidence
    threshold on, and a failed comparison never verifies. *)
Theorem verify_faces_decided_by_method (id_face selfie_face : Image)
  (id_metadata : option Metadata) :
  exists r,
    verify_faces config id_face selfie_face id_metadata = Ok r
    /\ decided_by_method (verification_threshold config) r.
Proof.
  unfold verify_faces, try_except.
  destruct (verify_primary config id_face selfie_face id_metadata) as [r|e] eqn:Hp.
  - exists r. split; [reflexivity|]. left.
    split; [by eapply verify_primary_method|by eapply verify_primary_decision].
  - destruct (_verify_with_face_recognition config id_face selfie_face)
      as [r|e2] eqn:Hb.
    + exists r. split; [reflexivity|]. right. left.
      split; [by eapply fallback_method|by eapply fallback_decision].
    + eexists. split; [reflexivity|]. right. right. simpl. eauto.
Qed.

(** X17: when the metadata carry an embedding and the primary comparison
    does not raise, the image of the document face is not looked at: any
    other image in its place gives the same result. *)
Theorem verify_ignores_face_image_with_embedding (id_face other : Image)
  (selfie_face : Image) (md : Metadata) (e : list Q) :
  md_embedding md = Some e ->
  ~ raises (verify_primary config id_face selfie_face (Some md)) ->
  verify_faces config other selfie_face (Some md)
  = verify_faces config id_face selfie_face (Some md).
Proof.
  intros He Hr. unfold verify_faces, try_except.
  assert (Hsame : verify_primary config other selfie_face (Some md)
                  = verify_primary config id_face selfie_face (Some md)).
  { unfold verify_primary. by rewrite He. }
  rewrite Hsame.
  destruct (verify_primary config id_face selfie_face (Some md));
    [reflexivity|]. by destruct Hr.
Qed.

Lemma fold_min_spec (xs : list Q) : forall x,
  In (fold_left Qmin xs x) (x :: xs)
  /\ forall y, In y (x :: xs) -> fold_left Qmin xs x <= y.
Proof.
  induction xs as [|z xs IH]; intros x; simpl.
  - split; [by left|]. intros y [<-|[]]. apply Qle_refl.
  - destruct (IH (Qmin x z)) as [Hin Hmin]. split.
    + destruct Hin as [Hin|Hin]; [|auto].
      assert (Hd : Qmin x z = x \/ Qmin x z = z)
        by (unfold Qmin, GenericMinMax.gmin; destruct (x ?= z); auto).
      rewrite <- Hin. destruct Hd as [-> | ->]; auto.
    + intros y [<-|[<-|Hy]].
      * eapply Qle_trans; [apply Hmin; by left|apply Q.le_min_l].
      * eapply Qle_trans; [apply Hmin; by left|apply Q.le_min_r].
      * apply Hmin. by right.
Qed.

(** X18: the fallback compares every face of the document image with the
    first face of the selfie and reports the closest: its confidence is
    one minus the least of the distances. *)
Theorem fallback_reports_closest_face (id_face selfie_face : Image)
  (r : FaceVerificationResult) :
  _verify_with_face_recognition config id_face selfie_face = Ok r ->
  exists id_encodings selfie0 rest closest,
    face_encodings id_face = Ok id_encodings
    /\ face_encodings selfie_face = Ok (selfie0 :: rest)
    /\ In closest id_encodings
    /\ confidence r = 1 - euclidean closest selfie0
    /\ forall e, In e id_encodings ->
         1 - euclidean e selfie0 <= confidence r.
Proof.
  unfold _verify_with_face_recognition.
  destruct (face_encodings id_face) as [ids|]; [|discriminate].
  destruct (face_encodings selfie_face) as [selfies|]; [|discriminate].
  cbn [mbind result_bind].
  destruct ids as [|id0 ids]; [discriminate|].
  destruct selfies as [|selfie0 rest]; [discriminate|].
  cbn [map py_min mbind result_bind].
  destruct (face_locations_of id_face); [|discriminate].
  destruct (face_locations_of selfie_face); [|discriminate].
  cbn [mbind result_bind]. intros [= <-]. cbn [confidence].
  destruct (fold_min_spec (map (fun e => euclidean e selfie0) ids)
              (euclidean id0 selfie0)) as [Hin Hmin].
  change (euclidean id0 selfie0 :: map (fun e => euclidean e selfie0) ids)
    with (map (fun e => euclidean e selfie0) (id0 :: ids)) in Hin, Hmin.
  apply in_map_iff in Hin as (closest & Hc & Hin).
  exists (id0 :: ids), selfie0, rest, closest.
  split; [reflexivity|]. split; [reflexivity|]. split; [exact Hin|].
  split; [by rewrite Hc|].
  intros e He. apply Qplus_le_r, Qopp_le_compat, Hmin.
  apply in_map_iff. eauto.
Qed.

End FaceMore.

Section PipelineFacts.
Import PyStr FaceProcessor FaceSpec FaceFacts.
Context {Image : Type} `{Engines Image}.
Variable config : Config.
Local Open Scope Q_scope.

(** The part of the pipeline after the document face has been encoded. *)
Lemma pipeline_cases (document_image selfie_image : image_arg)
  (document_type : string) :
  let r := process_verification_request config document_image selfie_image
             document_type in
  (success r = false /\ verification r = None /\ exists e, errors r = [e])
  \/ exists document_img selfie_img id_face id_metadata face_b64 fv v,
       load document_image = Some document_img
       /\ load selfie_image = Some selfie_img
       /\ extract_face_from_document config document_img document_type
          = (Some id_face, id_metadata)
       /\ verify_faces config id_face selfie_img id_metadata = Ok fv
       /\ success r = true /\ verification r = Some v
       /\ document_face r = Some face_b64
       /\ ve_confidence v = confidence fv
       /\ ve_method v = verification_method fv
       /\ (forall q, ve_liveness_score v = Some q -> Qeq_bool q 0 = false)
       /\ ((liveness_enabled config = false
            /\ ve_verified v = verified fv /\ errors r = [])
           \/ exists score,
                liveness_enabled config = true
                /\ check_liveness selfie_img = Ok score
                /\ ((Qle_bool (liveness_min_score config) score = true
                     /\ ve_verified v = verified fv /\ errors r = [])
                    \/ (Qle_bool (liveness_min_score config) score = false
                        /\ ve_verified v = false
                        /\ errors r = [LivenessFailed score]))).
Proof.
  cbv zeta. unfold process_verification_request.
  destruct (load document_image) as [document_img|] eqn:Hld;
    [|left; simpl; eauto].
  destruct (load selfie_image) as [selfie_img|] eqn:Hls; [|left; simpl; eauto].
  destruct (extract_face_from_document config document_img document_type)
    as [[id_face|] id_metadata] eqn:Hx; [|left; simpl; eauto].
  destruct (encode_image_to_base64 id_face) as [face_b64|e];
    [|left; simpl; eauto].
  destruct (verify_faces config id_face selfie_img id_metadata) as [fv|e] eqn:Hv;
    cbn [mbind result_bind]; [|left; simpl; eauto].
  destruct (liveness_enabled config) eqn:Hen.
  - destruct (check_liveness selfie_img) as [score|e] eqn:Hl;
      cbn [mbind result_bind]; [|left; simpl; eauto].
    right. exists document_img, selfie_img, id_face, id_metadata, face_b64, fv.
    destruct (Qle_bool (liveness_min_score config) score) eqn:Hs;
      cbn [mbind result_bind mret result_ret].
    + eexists. repeat (split; [first [reflexivity|assumption]|]). cbn.
      split; [|right; exists score; split; [reflexivity|];
               split; [assumption|]; left; auto].
      intros q. destruct (Qeq_bool score 0) eqn:Hz; [discriminate|].
      by intros [= <-].
    + eexists. repeat (split; [first [reflexivity|assumption]|]). cbn.
      split; [|right; exists score; split; [reflexivity|];
               split; [assumption|]; right; auto].
      intros q. destruct (Qeq_bool score 0) eqn:Hz; [discriminate|].
      by intros [= <-].
  - right. exists document_img, selfie_img, id_face, id_metadata, face_b64, fv.
    cbn [mbind result_bind mret result_ret].
    eexists. repeat (split; [first [reflexivity|assumption]|]). cbn.
    split; [discriminate|]. left. auto.
Qed.

(** X19: the pipeline never raises, and its flags agree: it reports
    success exactly when it reports a verification, then with the document
    face; a run without success names one error; a run that reports
    verified names none; and a liveness score of zero is not reported. *)
Theorem pipeline_flags_agree (document_image selfie_image : image_arg)
  (document_type : string) :
  let r := process_verification_request config document_image selfie_image
             document_type in
  (success r = true <-> is_Some (verification r))
  /\ (success r = true -> is_Some (document_face r))
  /\ (success r = false -> exists e, errors r = [e])
  /\ (forall v, verification r = Some v ->
        (ve_verified v = true -> errors r = [])
        /\ forall q, ve_liveness_score v = Some q -> ~ q == 0).
Proof.
  cbv zeta.
  destruct (pipeline_cases document_image selfie_image document_type)
    as [(Hs & Hv & He)|(d & s & f & md & b64 & fv & v & _ & _ & _ & _
                        & Hs & Hv & Hd & _ & _ & Hq & Hl)].
  - rewrite Hs, Hv. split; [split; [discriminate|by intros [? ?]]|].
    split; [discriminate|]. split; [auto|]. discriminate.
  - rewrite Hs, Hv, Hd. split; [split; eauto|]. split; [eauto|].
    split; [discriminate|]. intros v' [= <-]. split.
    + intros Hver.
      destruct Hl as [(_ & _ & He)|(score & _ & _ & [(_ & _ & He)|(_ & Hf & _)])];
        auto. congruence.
    + intros q Hq' Hz. apply Qeq_bool_iff in Hz. by rewrite (Hq q Hq') in Hz.
Qed.

(** X20: the pipeline reports verified only if the comparison verified
    and, with liveness enabled, the liveness score of the selfie reaches
    the configured minimum. *)
Theorem pipeline_verified_needs_match_and_liveness
  (document_image selfie_image : image_arg) (document_type : string)
  (v : verification_entry) :
  verification (process_verification_request config document_image
                  selfie_image document_type) = Some v ->
  ve_verified v = true ->
  exists document_img selfie_img id_face id_metadata fv,
    load document_image = Some document_img
    /\ load selfie_image = Some selfie_img
    /\ extract_face_from_document config document_img document_type
       = (Some id_face, id_metadata)
    /\ verify_faces config id_face selfie_img id_metadata = Ok fv
    /\ verified fv = true
    /\ (liveness_enabled config = true ->
        exists score, check_liveness selfie_img = Ok score
                      /\ liveness_min_score config <= score).
Proof.
  intros Hv Hver.
  destruct (pipeline_cases document_image selfie_image document_type)
    as [(_ & Hn & _)|(d & s & f & md & b64 & fv & v' & Hd & Hs & Hf & Hfv
                      & _ & Hv' & _ & _ & _ & _ & Hl)]; [congruence|].
  rewrite Hv in Hv'. injection Hv' as <-.
  exists d, s, f, md, fv. repeat (split; [assumption|]).
  destruct Hl as [(Hen & Heq & _)|(score & Hen & Hc & [(Hle & Heq & _)|(_ & Hf' & _)])].
  - split; [congruence|]. intros Hen'. congruence.
  - split; [congruence|]. intros _. exists score. split; [exact Hc|].
    by apply Qle_bool_iff.
  - congruence.
Qed.

End PipelineFacts.

Section DataUrlFacts.
Import PyStr Extractor FaceProcessor App.
Context {Image Bytes : Type} `{UnicodeData} `{Engines Image}
  `{AppEngines Image Bytes}.

Lemma str_startswith_app p h t :
  str_startswith p h = true -> str_startswith p (h ++ t) = true.
Proof.
  rewrite !str_startswith_spec. intros (r & ->). exists (r ++ t).
  by rewrite app_assoc.
Qed.

(** X21: a data URL is cut at its commas and the second piece is decoded:
    with a header that holds no comma, the payload up to its first comma
    is what remains; a text that starts like a data URL and holds no comma
    raises; any other text is taken as it is. *)
Theorem data_url_payload (header payload rest : pystr) :
  str_startswith (u "data:image") header = true ->
  existsb (N.eqb 44) header = false ->
  existsb (N.eqb 44) payload = false ->
  strip_data_url (header ++ [44%N] ++ payload) = Ok payload
  /\ strip_data_url (header ++ [44%N] ++ payload ++ [44%N] ++ rest) = Ok payload
  /\ raises (strip_data_url header)
  /\ (str_startswith (u "data:image") payload = false ->
      strip_data_url payload = Ok payload).
Proof.
  intros Hs Hh Hp. unfold strip_data_url.
  rewrite !(str_startswith_app _ _ _ Hs), Hs.
  cbn [app]. rewrite !(str_split_app 44 header _ Hh).
  rewrite (str_split_no_sep 44 payload Hp), (str_split_app 44 payload rest Hp).
  rewrite (str_split_no_sep 44 header Hh).
  split; [reflexivity|]. split; [reflexivity|]. split; [exact I|].
  by intros ->.
Qed.

End DataUrlFacts.

Section EndpointFacts.
Import PyStr Extractor Spec FaceProcessor FaceSpec FaceFacts App AppSpec
  ServerSpec.
Context {Image Bytes : Type} `{UnicodeData} `{Engines Image}
  `{AppEngines Image Bytes} `{AppFaces.FaceStore Image}.
Variable config : Config.

Local Arguments json_encode : simpl never.
Local Arguments jsonify : simpl never.

Ltac io_unfold :=
  unfold try_io, mbind, io_bind, mret, io_ret, lift, invoke, update_stats.

Lemma extract_total (preprocessed_images : list (pystr * Image)) :
  exists e, extract ocr preprocessed_images = Ok e.
Proof.
  unfold extract, extract_texts.
  destruct (smart_field_extraction_invariants
              (flat_map (fun pi : pystr * Image =>
                 map (fun mt : pystr * pystr =>
                        (fst pi ++ u "_" ++ fst mt, snd mt)) (ocr (snd pi)))
                 preprocessed_images)) as (d & -> & _).
  eauto.
Qed.

Lemma one_request_bump s : one_request s (bump_total s).
Proof. unfold one_request. simpl. lia. Qed.

Lemma one_request_count a b s :
  one_request s (count_verification a b (bump_total s)).
Proof. unfold one_request. simpl. destruct a, b; lia. Qed.

(** The end of a run: the calls made, the counters, and what the
    response tells. *)
Ltac run_ends :=
  eexists _, _, _; split; [reflexivity|]; cbn [calls stats];
  rewrite <- ?app_assoc; cbn [app];
  split; [first [reflexivity|symmetry; apply app_nil_r]|];
  split; [eexists; reflexivity|];
  split; [first [apply one_request_bump|apply one_request_count]|];
  split; [first [discriminate|reflexivity]|];
  split; [first [discriminate|reflexivity]|];
  split; [first [discriminate
                |intros ? [= <-]; cbn; repeat split; reflexivity]|];
  split; [first [by intros _; eexists|cbn; intros; exfalso; lia]|];
  cbn; split; [first [lia|tauto]|first [tauto|intuition discriminate|lia]].

Lemma verify_passport_runs data w :
  runs_in_order w (verify_passport config data w).
Proof.
  unfold runs_in_order, verify_passport. io_unfold. simpl.
  destruct (passport_image data) as [p|]; [|run_ends].
  destruct (selfie_image data) as [selfie_b64|]; [|run_ends].
  destruct (strip_data_url p); [|run_ends].
  destruct (b64decode _) as [bytes|]; [|run_ends].
  destruct (decode_base64_to_image selfie_b64) as [selfie_img|]; [|run_ends].
  destruct (preprocess bytes) as [imgs|]; [|run_ends].
  destruct (extract_total imgs) as [ocr_result ->].
  destruct (extract_face_from_document _ _ _) as [[face|] md]; [|run_ends].
  destruct (FaceProcessor.verify_faces _ _ _ _) as [r|] eqn:Ev; [|run_ends].
  destruct (check_liveness _); [|run_ends].
  destruct (save_result _ _ _); [|run_ends].
  rewrite passport_result_class.
  destruct (verify_faces_class _ _ _ _ _ Ev) as [[-> _]|(-> & -> & _)];
    [run_ends|].
  destruct (encode_image_to_base64 _); [|run_ends].
  rewrite complete_class.
  destruct (verify_faces_class _ _ _ _ _ Ev) as [[Hc _]|(-> & _)];
    [|destruct (liveness_class _); run_ends].
  rewrite Hc. run_ends.
Qed.

Lemma verify_complete_runs files w :
  runs_in_order w (verify_complete config files w).
Proof.
  unfold runs_in_order, verify_complete. io_unfold. simpl.
  destruct (passport files) as [pf|]; [|run_ends].
  destruct (selfie files) as [sf|]; [|run_ends].
  destruct (_ || _)%bool; [run_ends|].
  destruct (preprocess _) as [imgs|]; [|run_ends].
  destruct (extract_total imgs) as [ocr_result ->].
  destruct (extract_face_from_document _ _ _) as [[face|] md]; [|run_ends].
  destruct (FaceProcessor.verify_faces _ _ _ _) as [r|] eqn:Ev; [|run_ends].
  destruct (check_liveness _); [|run_ends].
  destruct (save_result _ _ _); [|run_ends].
  rewrite complete_result_class.
  destruct (verify_faces_class _ _ _ _ _ Ev) as [[-> _]|(-> & -> & _)];
    [run_ends|].
  destruct (encode_image_to_base64 _); [|run_ends].
  rewrite complete_class.
  destruct (verify_faces_class _ _ _ _ _ Ev) as [[Hc _]|(-> & _)];
    [|destruct (liveness_class _); run_ends].
  rewrite Hc. run_ends.
Qed.

End EndpointFacts.

Section EndpointRuns.
Import PyStr Extractor Spec FaceProcessor FaceSpec FaceFacts App AppSpec
  ServerSpec.
Context {Image Bytes : Type} `{UnicodeData} `{Engines Image}
  `{AppEngines Image Bytes} `{AppFaces.FaceStore Image}.
Variable config : Config.

Local Arguments json_encode : simpl never.
Local Arguments jsonify : simpl never.

Ltac io_unfold :=
  unfold try_io, mbind, io_bind, mret, io_ret, lift, invoke, update_stats.

(** X22: each of the two full-verification endpoints answers every
    request (no exception escapes), counts it as one request, and calls
    its components in the fixed order preprocess, extract, extract face,
    verify faces, check liveness, save, stopping at the first failure: the
    calls of a run are an initial part of that sequence, none for a
    request refused for a missing image, the first three for the answer
    that no face was detected, all six for a complete response.  A
    complete response reports a comparison that is not verified and the
    status FAILED, and a request that is counted as a successful
    verification is answered with a server error: the encoder refuses the
    numpy.bool_ of a comparison that ran.  The face verification is
    counted exactly if the run reached the save. *)
Theorem full_verification_runs_in_order (data : passport_request)
  (files : complete_request) (w : world) :
  runs_in_order w (verify_passport config data w)
  /\ runs_in_order w (verify_complete config files w).
Proof. split; [apply verify_passport_runs|apply verify_complete_runs]. Qed.

(** X30: a full verification whose comparison ran (by the primary engine
    or by the fallback) is never answered with its result: the request
    reaches the save and is counted as a face verification, as a
    successful one if the comparison is verified, and the answer is a
    server error, as the JSON encoder refuses the numpy.bool_ in
    [verified]. *)
Theorem compared_request_is_not_answered (data : passport_request)
  (files : complete_request) (w : world) (p selfie_b64 s : pystr)
  (bytes : Bytes) (selfie_img : Image) (imgs imgs' : list (pystr * Image))
  (passport_file selfie_file : upload) (face_img face_img' : Image)
  (md md' : option Metadata) (r r' : FaceVerificationResult) (score score' : Q) :
  passport_image data = Some p -> selfie_image data = Some selfie_b64 ->
  strip_data_url p = Ok s -> b64decode s = Ok bytes ->
  decode_base64_to_image selfie_b64 = Ok selfie_img ->
  preprocess bytes = Ok imgs ->
  extract_face_from_document config (imdecode bytes) "passport"
  = (Some face_img, md) ->
  FaceProcessor.verify_faces config face_img selfie_img md = Ok r ->
  verification_method r <> "failed"%string ->
  check_liveness selfie_img = Ok score ->
  passport files = Some passport_file -> selfie files = Some selfie_file ->
  filename passport_file <> [] -> filename selfie_file <> [] ->
  preprocess (content passport_file) = Ok imgs' ->
  extract_face_from_document config (imdecode (content passport_file)) "passport"
  = (Some face_img', md') ->
  FaceProcessor.verify_faces config face_img' (imdecode (content selfie_file)) md'
  = Ok r' ->
  verification_method r' <> "failed"%string ->
  check_liveness (imdecode (content selfie_file)) = Ok score' ->
  counted_and_failed r w (verify_passport config data w)
  /\ counted_and_failed r' w (verify_complete config files w).
Proof.
  intros Hp Hs Hstrip Hb Hd Hpre Hf Hv Hm Hl Hpf Hsf Hn1 Hn2 Hpre' Hf' Hv' Hm' Hl'.
  split.
  - unfold counted_and_failed, verify_passport. io_unfold. simpl.
    rewrite Hp, Hs, Hstrip, Hb, Hd, Hpre.
    destruct (extract_total imgs) as [ocr_result ->].
    rewrite Hf, Hv, Hl.
    destruct (verify_faces_class _ _ _ _ _ Hv) as [[Hc _]|(_ & _ & _ & Hm0 & _)];
      [|contradiction].
    destruct (save_result _ _ _).
    + rewrite passport_result_class, Hc. eexists _, _. split; [reflexivity|].
      cbn. rewrite <- !app_assoc. by destruct (verified r).
    + eexists _, _. split; [reflexivity|].
      cbn. rewrite <- !app_assoc. by destruct (verified r).
  - unfold counted_and_failed, verify_complete. io_unfold. simpl.
    rewrite Hpf, Hsf.
    rewrite (bool_decide_eq_false_2 _ Hn1), (bool_decide_eq_false_2 _ Hn2).
    cbn [orb]. rewrite Hpre'.
    destruct (extract_total imgs') as [ocr_result ->].
    rewrite Hf', Hv', Hl'.
    destruct (verify_faces_class _ _ _ _ _ Hv')
      as [[Hc _]|(_ & _ & _ & Hm0 & _)]; [|contradiction].
    destruct (save_result _ _ _).
    + rewrite complete_result_class, Hc. eexists _, _. split; [reflexivity|].
      cbn. rewrite <- !app_assoc. by destruct (verified r').
    + eexists _, _. split; [reflexivity|].
      cbn. rewrite <- !app_assoc. by destruct (verified r').
Qed.

(** ** /verify-faces *)

Lemma verify_faces_no_liveness id_face selfie_face md r :
  FaceProcessor.verify_faces config id_face selfie_face md = Ok r ->
  liveness_score r = None.
Proof.
  unfold FaceProcessor.verify_faces, try_except.
  destruct (verify_primary config id_face selfie_face md) as [r1|e] eqn:Hp.
  - intros [= <-]. revert Hp. unfold verify_primary.
    destruct (face_app_get selfie_face) as [faces|?]; [|discriminate].
    cbn [mbind result_bind].
    destruct (match md with Some _ => _ | None => _ end) as [ea|];
      [|discriminate].
    destruct faces as [|f fs]; [discriminate|].
    destruct (_cosine_similarity (Some ea) (embedding f)); [|discriminate].
    cbn [mbind result_bind]. by intros [= <-].
  - destruct (_verify_with_face_recognition config id_face selfie_face)
      as [r2|e2] eqn:Hb.
    + intros [= <-]. revert Hb. unfold _verify_with_face_recognition.
      destruct (face_encodings id_face) as [ids|]; [|discriminate].
      destruct (face_encodings selfie_face) as [selfies|]; [|discriminate].
      cbn [mbind result_bind].
      destruct ids as [|id0 ?]; [discriminate|].
      destruct selfies as [|selfie0 ?]; [discriminate|].
      destruct (py_min _); [|discriminate]. cbn [mbind result_bind].
      destruct (face_locations_of id_face); [|discriminate].
      destruct (face_locations_of selfie_face); [|discriminate].
      cbn [mbind result_bind]. by intros [= <-].
    + by intros [= <-].
Qed.

(** The response of /verify-faces is written only for a comparison that
    failed. *)
Lemma faces_response_class (r : FaceVerificationResult) (liveness : option Q) :
  jsonify
    (PyDict [("success"%string, PyBool Python);
             ("verified"%string, PyBool (verified_class r));
             ("confidence"%string, PyFloat);
             ("method"%string, PyString);
             ("liveness_score"%string, object_of_option PyFloat liveness);
             ("error"%string, object_of_option PyString (error r))])
  = match verified_class r with
    | Python => Ok tt
    | Numpy => Raise "TypeError: Object is not JSON serializable"
    end.
Proof.
  unfold jsonify, json_encode. cbn [serializable forallb snd].
  destruct (verified_class r), liveness, (error r); reflexivity.
Qed.

(** A request that is refused, fails, or ends without a verified
    comparison. *)
Ltac refused :=
  eexists _, _; split; [reflexivity|]; simpl;
  do 3 (split; [reflexivity|]); (split; [|discriminate]);
  right; split; [reflexivity|]; intros; congruence.

(** X23: /verify-faces answers every request and counts it as a request
    and as a face verification whatever the outcome, a refused or failed
    request included.  It counts a successful verification exactly if the
    two images were compared and the comparison is verified, and then it
    answers with a server error: the encoder refuses the numpy.bool_ of a
    comparison that ran.  The answer with a comparison is that of a failed
    one: not verified, confidence 0, method "failed", with the error
    message and without a liveness score. *)
Theorem verify_faces_endpoint_counts (data : AppFaces.faces_request) (w : world) :
  exists resp w',
    AppFaces.verify_faces config data w = (Ok resp, w')
    /\ total_requests (stats w') = S (total_requests (stats w))
    /\ face_verifications (stats w') = S (face_verifications (stats w))
    /\ successful_extractions (stats w') = successful_extractions (stats w)
    /\ ((successful_verifications (stats w')
         = S (successful_verifications (stats w))
         /\ (exists e, resp = AppFaces.FacesServerError e)
         /\ exists f1 f2 img1 img2 r,
              AppFaces.face1 data = Some f1 /\ AppFaces.face2 data = Some f2
              /\ decode_base64_to_image f1 = Ok img1
              /\ decode_base64_to_image f2 = Ok img2
              /\ FaceProcessor.verify_faces config img1 img2 None = Ok r
              /\ verified r = true)
        \/ (successful_verifications (stats w')
            = successful_verifications (stats w)
            /\ forall f1 f2 img1 img2 r,
                 AppFaces.face1 data = Some f1 -> AppFaces.face2 data = Some f2 ->
                 decode_base64_to_image f1 = Ok img1 ->
                 decode_base64_to_image f2 = Ok img2 ->
                 FaceProcessor.verify_faces config img1 img2 None = Ok r ->
                 verified r = false))
    /\ (forall r, resp = AppFaces.FacesCompared r ->
          AppFaces.fr_verified r = false /\ AppFaces.fr_confidence r = 0%Q
          /\ AppFaces.fr_method r = "failed"%string
          /\ is_Some (AppFaces.fr_error r)
          /\ AppFaces.fr_liveness_score r = None).
Proof.
  unfold AppFaces.verify_faces. io_unfold. simpl.
  destruct (AppFaces.face1 data) as [f1|] eqn:F1; [|refused].
  destruct (AppFaces.face2 data) as [f2|] eqn:F2; [|refused].
  destruct (decode_base64_to_image f1) as [img1|] eqn:D1; [|refused].
  destruct (decode_base64_to_image f2) as [img2|] eqn:D2; [|refused].
  destruct (FaceProcessor.verify_faces config img1 img2 None) as [r|] eqn:Hv;
    [|refused].
  pose proof (verify_faces_no_liveness _ _ _ _ Hv) as Hl.
  rewrite Hl, faces_response_class.
  destruct (verify_faces_class _ _ _ _ _ Hv)
    as [[Hc _]|(Hc & Hfalse & Hconf & Hm & He)]; rewrite Hc.
  - destruct (verified r) eqn:Hver; [|refused].
    eexists _, _. split; [reflexivity|]. simpl.
    do 3 (split; [reflexivity|]). split; [|discriminate].
    left. split; [reflexivity|]. split; [by eexists|].
    exists f1, f2, img1, img2, r. auto 10.
  - eexists _, _. split; [reflexivity|]. rewrite Hfalse. simpl.
    do 3 (split; [reflexivity|]). split.
    + right. split; [reflexivity|]. intros. congruence.
    + intros r' [= <-]. simpl. auto.
Qed.

(** ** /extract-face *)

(** The metadata that the encoder writes: no embedding, and a box of
    ints. *)
Lemma metadata_class (md : Metadata) :
  serializable (object_of_metadata (Some md)) = true
  <-> writable md.
Proof.
  unfold writable, object_of_metadata. cbn [serializable forallb snd].
  assert (Hbox : forall cs,
            forallb serializable (map PyInt cs) = true <-> Forall (eq Python) cs).
  { induction cs as [|c cs IH]; [split; [constructor|reflexivity]|].
    cbn [map forallb]. rewrite andb_true_iff, IH. split.
    - intros [Hc Hcs]. constructor; [by destruct c|exact Hcs].
    - intros Hall. inversion Hall as [|? ? <- Hcs]. auto. }
  assert (Hland : match md_landmark md with
                  | Some points =>
                      serializable
                        (PyList (map (fun _ => PyList [PyFloat; PyFloat]) points))
                  | None => true
                  end = true).
  { destruct (md_landmark md) as [points|]; [|reflexivity].
    cbn [serializable]. apply forallb_forall. intros obj Hin.
    apply in_map_iff in Hin as (? & <- & _). reflexivity. }
  split.
  - intros Hs. apply andb_prop in Hs as [Hb Hs]. apply Hbox in Hb.
    apply andb_prop in Hs as [_ Hs]. apply andb_prop in Hs as [He _].
    split; [|exact Hb]. by destruct (md_embedding md).
  - intros [He Hb]. apply Hbox in Hb. rewrite Hb, He. cbn [object_of_option andb].
    replace (serializable match md_landmark md with
                          | Some points =>
                              PyList (map (fun _ => PyList [PyFloat; PyFloat])
                                        points)
                          | None => PyNone
                          end) with true
      by (symmetry; destruct (md_landmark md); [exact Hland|reflexivity]).
    by destruct (md_age md), (md_gender md), (md_method md).
Qed.

(** The end of a run that does not answer with a face. *)
Ltac face_ends :=
  eexists _, _, _; split; [reflexivity|]; cbn [stats calls];
  rewrite <- ?app_assoc; cbn [app];
  split; [reflexivity|];
  split; [first [reflexivity|symmetry; apply app_nil_r]|];
  split; [first [by exists [CallExtractFace; CallSave]|by exists [CallSave]
                |by exists []]|];
  split; [intros; first [discriminate|reflexivity]|];
  split; [intros; first [discriminate|reflexivity]|];
  split; [intros; discriminate|];
  intros; first [congruence|eexists; reflexivity].

(** X24: /extract-face answers every request and counts it as a request
    and as nothing else; it calls the extraction and then the save, in
    that order: no call for a request without an image, the extraction
    alone for the answer that no face was detected, both for an answer
    with a face.  An answer with a face carries metadata that the encoder
    writes, without an embedding and with a box of ints; a face whose
    metadata carry an embedding is answered with a server error. *)
Theorem extract_face_endpoint_runs (data : AppFaces.face_request) (w : world) :
  exists resp w' new,
    AppFaces.extract_face config data w = (Ok resp, w')
    /\ stats w' = bump_total (stats w)
    /\ calls w' = calls w ++ new
    /\ new `prefix_of` [CallExtractFace; CallSave]
    /\ (forall e, resp = AppFaces.FaceBadRequest e -> new = [])
    /\ (forall e, resp = AppFaces.FaceNotDetected e -> new = [CallExtractFace])
    /\ (forall face md, resp = AppFaces.FaceExtracted face md ->
          new = [CallExtractFace; CallSave]
          /\ exists m, md = Some m /\ writable m)
    /\ (forall image_b64 document_img face m,
          AppFaces.image data = Some image_b64 ->
          decode_base64_to_image image_b64 = Ok document_img ->
          extract_face_from_document config document_img
            match AppFaces.document_type data with
            | Some t => t
            | None => "passport"%string
            end = (Some face, Some m) ->
          is_Some (md_embedding m) ->
          exists e, resp = AppFaces.FaceServerError e).
Proof.
  unfold AppFaces.extract_face. io_unfold. simpl.
  destruct (AppFaces.image data) as [image_b64|] eqn:I; [|face_ends].
  destruct (decode_base64_to_image image_b64) as [document_img|] eqn:D;
    [|face_ends].
  pose proof (extraction_both_or_neither config document_img
                match AppFaces.document_type data with
                | Some t => t
                | None => "passport"%string
                end) as [Hboth _].
  destruct (extract_face_from_document _ _ _) as [[face|] md] eqn:E;
    [|face_ends].
  simpl in Hboth. destruct Hboth as [Hsome _].
  destruct (Hsome ltac:(eauto)) as [m ->].
  destruct (AppFaces.imwrite face); [|face_ends].
  destruct (encode_image_to_base64 face); [|face_ends].
  unfold jsonify, json_encode. cbn [serializable forallb snd andb].
  rewrite andb_true_r.
  destruct (serializable (object_of_metadata (Some m))) eqn:Hs; [|face_ends].
  apply metadata_class in Hs.
  eexists _, _, _. split; [reflexivity|]. simpl. rewrite <- app_assoc.
  do 3 (split; [first [reflexivity|by eexists]|]).
  split; [discriminate|]. split; [discriminate|]. split.
  - intros face' md' [= <- <-]. split; [reflexivity|]. eauto.
  - intros ? ? ? m' Hi Hd He [embedding Hm]. destruct Hs as [Hnone _].
    congruence.
Qed.

End EndpointRuns.

Section ExtractEndpointFacts.
Import PyStr Extractor Spec FaceProcessor App AppExtract ExtractSpec ServerSpec.
Context {Image Bytes : Type} `{UnicodeData} `{Engines Image}
  `{AppEngines Image Bytes} `{AppFaces.FaceStore Image} `{ResultStore}.
Variable config : Config.
Local Open Scope Q_scope.

Lemma accuracy_of_score k :
  (k <= 8)%nat -> In (fmt_1f (score_of k) ++ u "%") accuracy_texts.
Proof.
  intros Hk.
  do 9 (destruct k as [|k]; [vm_compute; tauto|]). lia.
Qed.

Lemma extract_score (imgs : list (pystr * Image)) :
  exists e k, Extractor.extract ocr imgs = Ok e
              /\ (k <= 8)%nat /\ extraction_score e = score_of k.
Proof.
  unfold Extractor.extract, extract_texts.
  destruct (smart_field_extraction_invariants
              (flat_map (fun pi : pystr * Image =>
                 map (fun mt : pystr * pystr =>
                        (fst pi ++ u "_" ++ fst mt, snd mt)) (ocr (snd pi)))
                 imgs)) as (d & -> & _).
  eexists _, (count_extracted important_fields d).
  split; [reflexivity|]. split; [|reflexivity].
  unfold count_extracted. etransitivity; [apply List.filter_length_le|].
  simpl. lia.
Qed.

Lemma average_step (a s : Q) (n : nat) :
  (a * inject_Z (Z.of_nat (S n) - 1) + s) / inject_Z (Z.of_nat (S n))
  * inject_Z (Z.of_nat (S n))
  == a * inject_Z (Z.of_nat n) + s.
Proof.
  replace (Z.of_nat (S n) - 1)%Z with (Z.of_nat n) by lia.
  field. intros Hz.
  assert (Hp : 0 < inject_Z (Z.of_nat (S n))).
  { rewrite <- (Zlt_Qlt 0). lia. }
  rewrite Hz in Hp. by apply Qlt_irrefl in Hp.
Qed.

Ltac xio_unfold :=
  unfold try_xio, mbind, xio_bind, mret, xio_ret, xlift, in_base, xupdate,
    invoke, update_stats.

(** The end of a run that gives no extraction. *)
Ltac run_fails :=
  eexists _, _; split; [reflexivity|]; cbn;
  repeat (split; [first [reflexivity|lia]|]);
  split; [discriminate|]; split; intros ? [=]; first [auto|lia].

Lemma extraction_recorded (x : xworld) (e : extraction) (k : nat)
  (name : option pystr) (cs : list call) (x' : xworld) :
  (k <= 8)%nat -> extraction_score e = score_of k ->
  x' = record_extraction (extraction_score e)
         (XWorld (World (bump_total (stats (base x))) cs)
            (failed_extractions x) (average_accuracy x)) ->
  forall cs',
  extraction_run x
    (Ok (Extracted e (fmt_1f (extraction_score e) ++ u "%") name),
     XWorld (World (stats (base x')) cs') (failed_extractions x')
       (average_accuracy x')).
Proof.
  intros Hk Hs -> cs'. eexists _, _. split; [reflexivity|].
  unfold record_extraction.
  destruct (Qgt_bool (extraction_score e) 0) eqn:Hpos; cbn.
  - repeat (split; [first [reflexivity|lia]|]).
    split; [|split; intros ? [=]].
    intros e' acc name' [= <- <- <-]. rewrite Hpos.
    split; [rewrite Hs; by apply accuracy_of_score|].
    split; [reflexivity|]. split; [reflexivity|]. apply average_step.
  - repeat (split; [first [reflexivity|lia]|]).
    split; [|split; intros ? [=]].
    intros e' acc name' [= <- <- <-]. rewrite Hpos.
    split; [rewrite Hs; by apply accuracy_of_score|]. auto.
Qed.

Lemma extract_runs data x : extraction_run x (extract data x).
Proof.
  unfold extract. xio_unfold. simpl.
  destruct (image data) as [image_data|]; [|run_fails].
  destruct (strip_data_url image_data); [|run_fails].
  destruct (b64decode _) as [bytes|]; [|run_fails].
  simpl. destruct (preprocess bytes) as [imgs|]; [|run_fails].
  simpl. destruct (extract_score imgs) as (e & k & -> & Hk & Hs).
  simpl. destruct (json_dump e).
  - eapply extraction_recorded; eauto.
  - unfold record_extraction.
    destruct (Qgt_bool (extraction_score e) 0); run_fails.
Qed.

Lemma extract_file_runs files x : extraction_run x (extract_file files x).
Proof.
  unfold extract_file. xio_unfold. simpl.
  destruct (file files) as [f|]; [|run_fails].
  destruct (bool_decide (filename f = [])); [run_fails|].
  simpl. destruct (preprocess (content f)) as [imgs|]; [|run_fails].
  simpl. destruct (extract_score imgs) as (e & k & -> & Hk & Hs).
  simpl. destruct (json_dump e).
  - eapply extraction_recorded; eauto.
  - unfold record_extraction.
    destruct (Qgt_bool (extraction_score e) 0); run_fails.
Qed.


End ExtractEndpointFacts.

Section ServerFacts.
Import PyStr Extractor Spec FaceProcessor App AppExtract ExtractSpec ServerSpec
  Server.
Context {Image Bytes : Type} `{UnicodeData} `{Engines Image}
  `{AppEngines Image Bytes} `{AppFaces.FaceStore Image} `{ResultStore}.
Variable config : Config.

Ltac io_unfold :=
  unfold try_io, mbind, io_bind, mret, io_ret, lift, invoke, update_stats.

Lemma extract_face_counts data w :
  one_request (stats w) (stats (snd (AppFaces.extract_face config data w))).
Proof.
  unfold AppFaces.extract_face. io_unfold. simpl.
  destruct (AppFaces.image data) as [image_b64|]; [|apply one_request_bump].
  destruct (decode_base64_to_image image_b64); [|apply one_request_bump].
  destruct (extract_face_from_document _ _ _) as [[face|] md];
    [|apply one_request_bump].
  destruct (AppFaces.imwrite face); [|apply one_request_bump].
  destruct (encode_image_to_base64 face); [|apply one_request_bump].
  destruct (jsonify _); apply one_request_bump.
Qed.

Lemma verify_faces_counts data w :
  one_request (stats w) (stats (snd (AppFaces.verify_faces config data w))).
Proof.
  assert (Hb : forall s, one_request s
                 (AppFaces.bump_face_verifications (bump_total s)))
    by (intros s; unfold one_request; simpl; lia).
  unfold AppFaces.verify_faces. io_unfold. simpl.
  destruct (AppFaces.face1 data) as [f1|]; [|apply Hb].
  destruct (AppFaces.face2 data) as [f2|]; [|apply Hb].
  destruct (decode_base64_to_image f1); [|apply Hb].
  destruct (decode_base64_to_image f2); [|apply Hb].
  destruct (FaceProcessor.verify_faces _ _ _ _) as [r|]; [|apply Hb].
  simpl. destruct (verified r); destruct (jsonify _); simpl;
    first [apply Hb|unfold one_request; simpl; lia].
Qed.

Lemma one_request_in_order n s s' :
  one_request s s' ->
  total_requests s = n ->
  (successful_verifications s <= face_verifications s <= n)%nat ->
  (successful_extractions s <= n)%nat ->
  total_requests s' = S n
  /\ (successful_verifications s' <= face_verifications s' <= S n)%nat
  /\ (successful_extractions s' <= S n)%nat.
Proof. unfold one_request. lia. Qed.

Lemma in_base_in_order {A : Type} (m : io A) n x :
  one_request (stats (base x)) (stats (snd (m (base x)))) ->
  counters_in_order n x -> counters_in_order (S n) (snd (in_base m x)).
Proof.
  unfold counters_in_order, in_base. intros Hone (Ht & Hv & He & Hf).
  destruct (m (base x)) as [r w']. cbn in *.
  destruct (one_request_in_order _ _ _ Hone Ht Hv He) as (? & ? & ?).
  repeat split; lia.
Qed.

Lemma extraction_run_in_order n x out :
  extraction_run x out ->
  counters_in_order n x -> counters_in_order (S n) (snd out).
Proof.
  unfold counters_in_order.
  intros (resp & x' & -> & Ht & Hfv & Hsv & Hse & Hfe & _) (Ht0 & Hv & He & Hf).
  cbn. rewrite Ht, Hfv, Hsv. repeat split; lia.
Qed.

Lemma serve_in_order n r x :
  counters_in_order n x -> counters_in_order (S n) (serve config r x).
Proof.
  intros Hx. destruct r as [data|files|data|data|data|files]; cbn [serve].
  - eapply extraction_run_in_order; [apply extract_runs|exact Hx].
  - eapply extraction_run_in_order; [apply extract_file_runs|exact Hx].
  - apply in_base_in_order; [apply extract_face_counts|exact Hx].
  - apply in_base_in_order; [apply verify_faces_counts|exact Hx].
  - apply in_base_in_order; [|exact Hx].
    destruct (verify_passport_runs config data (base x))
      as (resp & w' & new & -> & _ & _ & Hone & _). exact Hone.
  - apply in_base_in_order; [|exact Hx].
    destruct (verify_complete_runs config files (base x))
      as (resp & w' & new & -> & _ & _ & Hone & _). exact Hone.
Qed.

Lemma serve_all_in_order rs : forall n x,
  counters_in_order n x ->
  counters_in_order (length rs + n) (serve_all config rs x).
Proof.
  induction rs as [|r rs IH]; intros n x Hx; [exact Hx|].
  cbn [serve_all fold_left length].
  replace (S (length rs) + n)%nat with (length rs + S n)%nat by lia.
  apply IH. by apply serve_in_order.
Qed.

(** X26: whatever requests the six POST endpoints serve after the start,
    and however they end, the counters stay in order: the total is the
    number of the requests, the successful verifications are at most the
    face verifications and these at most the total, the successful
    extractions are at most the total, and the failed extractions at most
    twice the total. *)
Theorem counters_stay_in_order (rs : list (request Bytes)) :
  counters_in_order (length rs) (serve_all config rs start).
Proof.
  replace (length rs) with (length rs + 0)%nat by lia.
  apply serve_all_in_order. unfold counters_in_order, start. simpl. lia.
Qed.

End ServerFacts.

Section SaveFailure.
Import PyStr Extractor Spec FaceProcessor App AppExtract ExtractSpec.
Context {Image Bytes : Type} `{UnicodeData} `{Engines Image}
  `{AppEngines Image Bytes} `{ResultStore}.

(** X27: an extraction whose result cannot be saved is answered with a
    server error and counted as failed, after it has been counted by its
    score: with a positive score the request counts as one successful and
    one failed extraction, with the score 0 as two failed ones. *)
Theorem unsaved_extraction_counts_as_failed (data : extract_request)
  (x : xworld) (image_data s : pystr) (bytes : Bytes)
  (imgs : list (pystr * Image)) (e : extraction) :
  image data = Some image_data ->
  strip_data_url image_data = Ok s ->
  b64decode s = Ok bytes ->
  preprocess bytes = Ok imgs ->
  Extractor.extract ocr imgs = Ok e ->
  raises (json_dump e) ->
  exists error x',
    extract data x = (Ok (ExtractServerError error), x')
    /\ if Qgt_bool (extraction_score e) 0
       then successful_extractions (stats (base x'))
            = S (successful_extractions (stats (base x)))
            /\ failed_extractions x' = S (failed_extractions x)
       else successful_extractions (stats (base x'))
            = successful_extractions (stats (base x))
            /\ failed_extractions x' = (2 + failed_extractions x)%nat.
Proof.
  intros Hi Hs Hb Hp He Hj.
  unfold extract, try_xio, mbind, xio_bind, mret, xio_ret, xlift, in_base,
    xupdate, invoke, update_stats. simpl.
  rewrite Hi, Hs, Hb. simpl. rewrite Hp. simpl. rewrite He. simpl.
  destruct (json_dump e) as [|error]; [contradiction|].
  unfold record_extraction.
  destruct (Qgt_bool (extraction_score e) 0); eexists _, _;
    (split; [reflexivity|]); cbn; auto.
Qed.

End SaveFailure.

Import PyStr Regex Extractor Spec FaceProcessor FaceSpec App AppSpec Scenario.
Import ResolverSpec RecordSpec Passes PassesSpec FaceFacts ServerSpec
  AppExtract ExtractSpec Server PassScenario.
Local Open Scope Q_scope.

(** The passes over a page whose tokens the engine reads. *)
Lemma multi_pass_texts_not_blank_witness :
  In (u "standard", u "P12345678 ~ KHARTOUM")
    (@_multi_pass_extraction plain_ucd page reader no_threshold clear_page)
  /\ In (u "standard") pass_labels
  /\ exists c, In c (u "P12345678 ~ KHARTOUM") /\ py_isspace c = false.
Proof.
  assert (Hin : In (u "standard", u "P12345678 ~ KHARTOUM")
                  (@_multi_pass_extraction plain_ucd page reader no_threshold
                     clear_page)) by (left; reflexivity).
  split; [exact Hin|].
  exact (@multi_pass_texts_not_blank plain_ucd page reader no_threshold
           clear_page _ _ Hin).
Defined.

(** The token with confidence 40 is dropped, the one with 91.5 (as the
    integer 91) is kept. *)
Lemma high_confidence_joins_kept_tokens_witness :
  @image_to_data page reader clear_page
  = Ok (map fst clear_page, map snd clear_page)
  /\ traverse (@int_of_conf plain_ucd) (map fst clear_page)
     = Ok [96; 40; 91]%Z
  /\ (length (map fst clear_page) <= length (map snd clear_page))%nat
  /\ @high_confidence_pass plain_ucd page reader no_threshold clear_page
     = [(u "high_confidence", u "P12345678 KHARTOUM")].
Proof.
  repeat (split; [reflexivity|]).
  apply (@high_confidence_joins_kept_tokens plain_ucd page reader no_threshold
           clear_page (map fst clear_page) (map snd clear_page) [96; 40; 91]%Z
           eq_refl eq_refl).
  simpl. lia.
Defined.

(** A confidence that is no number: the pass gives nothing, the token
    with confidence 96 included. *)
Lemma high_confidence_all_or_nothing_witness :
  @image_to_data page reader odd_page
  = Ok (map fst odd_page, map snd odd_page)
  /\ In (ConfStr (u "n/a")) (map fst odd_page)
  /\ raises (@int_of_conf plain_ucd (ConfStr (u "n/a")))
  /\ @high_confidence_pass plain_ucd page reader no_threshold odd_page = [].
Proof.
  assert (Hin : In (ConfStr (u "n/a")) (map fst odd_page))
    by (right; left; reflexivity).
  split; [reflexivity|]. split; [exact Hin|]. split; [exact I|].
  exact (@high_confidence_all_or_nothing plain_ucd page reader no_threshold
           odd_page (map fst odd_page) (map snd odd_page) (ConfStr (u "n/a"))
           eq_refl Hin I).
Defined.

(** Without the recognition engine the extraction returns the empty
    record. *)
Lemma extract_of_unreadable_images_witness :
  (forall variant image,
     In (variant, image) [(u "grayscale", clear_page)] ->
     @reads_nothing page blind_reader image)
  /\ exists e,
       @extract_images plain_ucd page blind_reader no_threshold
         [(u "grayscale", clear_page)] = Ok e
       /\ (forall k, get (e_data e) k = None)
       /\ extraction_score e == 0
       /\ extraction_summary e = u "0/10 fields extracted".
Proof.
  assert (Hall : forall variant image,
            In (variant, image) [(u "grayscale", clear_page)] ->
            @reads_nothing page blind_reader image).
  { intros variant image _. split; [discriminate|exact I]. }
  split; [exact Hall|].
  exact (@extract_of_unreadable_images plain_ucd page blind_reader no_threshold
           [(u "grayscale", clear_page)] Hall).
Defined.

(** Of two faces the second has the greater score. *)
Lemma primary_face_has_greatest_score_witness :
  face_app_get (document_roi crowded_page "passport")
  = Ok [a_face [1; 0] 0.5; a_face [0; 1] 0.9]
  /\ [a_face [1; 0] 0.5; a_face [0; 1] 0.9] <> []
  /\ exists best,
       In best [a_face [1; 0] 0.5; a_face [0; 1] 0.9]
       /\ (forall f, In f [a_face [1; 0] 0.5; a_face [0; 1] 0.9] ->
             det_score f <= det_score best)
       /\ snd (extract_face_from_document _default_config crowded_page
                 "passport")
          = Some (metadata_of_face best).
Proof.
  split; [reflexivity|]. split; [discriminate|].
  destruct (@primary_face_has_greatest_score scene scene_engines _default_config
              crowded_page "passport" [a_face [1; 0] 0.5; a_face [0; 1] 0.9]
              eq_refl ltac:(discriminate)) as (best & Hin & Hmax & Hmd & _).
  exists best. auto.
Defined.

(** A box at the corner of the region: the padded box ends at the
    border. *)
Lemma cascade_box_within_region_witness :
  face_app_get (document_roi corner_page "passport") = Ok []
  /\ to_gray (document_roi corner_page "passport") = Ok corner_page
  /\ detectMultiScale corner_page = Ok [(790, 590, 30, 30)%Z]
  /\ [(790, 590, 30, 30)%Z] <> []
  /\ exists face md,
       extract_face_from_document _default_config corner_page "passport"
       = (Some face, Some md)
       /\ box_within (600, 800)%Z (md_bbox md)
       /\ md_embedding md = None.
Proof.
  repeat (split; [first [reflexivity|discriminate]|]).
  destruct (@cascade_box_within_region scene scene_engines _default_config
              corner_page corner_page "passport" [(790, 590, 30, 30)%Z]
              eq_refl eq_refl eq_refl ltac:(discriminate))
    as (face & md & He & Hb & _ & Hn & _).
  exists face, md. auto.
Defined.

(** The metadata of the passport page carry the embedding: the print in
    place of the page gives the same result. *)
Lemma verify_ignores_face_image_with_embedding_witness :
  md_embedding (metadata_of_face (a_face [1; 0] 0.99)) = Some [1; 0]
  /\ ~ raises (verify_primary _default_config passport_page flat_selfie
                 (Some (metadata_of_face (a_face [1; 0] 0.99))))
  /\ verify_faces _default_config sharp_print flat_selfie
       (Some (metadata_of_face (a_face [1; 0] 0.99)))
     = verify_faces _default_config passport_page flat_selfie
         (Some (metadata_of_face (a_face [1; 0] 0.99))).
Proof.
  assert (Hr : ~ raises (verify_primary _default_config passport_page
                           flat_selfie
                           (Some (metadata_of_face (a_face [1; 0] 0.99)))))
    by (vm_compute; tauto).
  split; [reflexivity|]. split; [exact Hr|].
  exact (@verify_ignores_face_image_with_embedding scene scene_engines
           _default_config passport_page sharp_print flat_selfie
           (metadata_of_face (a_face [1; 0] 0.99)) [1; 0] eq_refl Hr).
Defined.

(** The group against the single face: the second face of the group is
    the closest. *)
Lemma fallback_reports_closest_face_witness :
  exists r,
    _verify_with_face_recognition _default_config group_photo single_photo
    = Ok r
    /\ exists closest,
         In closest [[0]; [1]]
         /\ confidence r = 1 - euclidean closest [1].
Proof.
  destruct (_verify_with_face_recognition _default_config group_photo
              single_photo) as [r|] eqn:Hr; [|discriminate Hr].
  exists r. split; [reflexivity|].
  destruct (@fallback_reports_closest_face scene scene_engines _default_config
              group_photo single_photo r Hr)
    as (ids & selfie0 & rest & closest & Hi & Hs & Hin & Hc & _).
  injection Hi as <-. injection Hs as <- <-. exists closest. auto.
Defined.

(** The passport page as document and as selfie: verified, with a
    liveness score that reaches the minimum. *)
Lemma pipeline_verified_needs_match_and_liveness_witness :
  exists v,
    verification (process_verification_request _default_config
                    (Array passport_page) (Array passport_page) "passport")
    = Some v
    /\ ve_verified v = true
    /\ exists score, check_liveness passport_page = Ok score
                     /\ liveness_min_score _default_config <= score.
Proof.
  destruct (verification (process_verification_request _default_config
              (Array passport_page) (Array passport_page) "passport"))
    as [v|] eqn:Hv; [|discriminate Hv].
  assert (Hver : ve_verified v = true).
  { revert Hv. vm_compute. by intros [= <-]. }
  exists v. split; [reflexivity|]. split; [exact Hver|].
  destruct (@pipeline_verified_needs_match_and_liveness scene scene_engines
              _default_config (Array passport_page) (Array passport_page)
              "passport" v Hv Hver)
    as (d & s & f & md & fv & Hd & Hs & _ & _ & _ & Hl).
  injection Hs as <-. apply Hl. reflexivity.
Defined.

(** A PNG data URL. *)
Lemma data_url_payload_witness :
  str_startswith (u "data:image") (u "data:image/png;base64") = true
  /\ existsb (N.eqb 44) (u "data:image/png;base64") = false
  /\ existsb (N.eqb 44) (u "iVBORw0KGgo=") = false
  /\ strip_data_url (u "data:image/png;base64,iVBORw0KGgo=")
     = Ok (u "iVBORw0KGgo=")
  /\ raises (strip_data_url (u "data:image/png;base64")).
Proof.
  repeat (split; [reflexivity|]).
  destruct (data_url_payload (u "data:image/png;base64") (u "iVBORw0KGgo=") []
              eq_refl eq_refl eq_refl) as (_ & _ & Hr & _).
  exact Hr.
Defined.

(** The selfie, in which no text is read, sent to /extract while the
    disk is full: two failed extractions for one request. *)
Lemma unsaved_extraction_counts_as_failed_witness :
  exists e,
    Extractor.extract (H := plain_ucd) ocr
      [(u "grayscale", scene_named (u "flat selfie"))] = Ok e
    /\ raises (@json_dump full_disk e)
    /\ exists error x',
         @AppExtract.extract scene pystr plain_ucd scene_app full_disk
           {| image := Some (u "flat selfie") |} start
         = (Ok (ExtractServerError error), x')
         /\ failed_extractions x' = 2%nat.
Proof.
  destruct (Extractor.extract (H := plain_ucd) ocr
              [(u "grayscale", scene_named (u "flat selfie"))])
    as [e|] eqn:He; [|discriminate He].
  assert (Hz : Qgt_bool (extraction_score e) 0 = false).
  { revert He. vm_compute. by intros [= <-]. }
  exists e. split; [reflexivity|]. split; [exact I|].
  destruct (@unsaved_extraction_counts_as_failed scene pystr plain_ucd
              scene_app full_disk {| image := Some (u "flat selfie") |} start
              (u "flat selfie") (u "flat selfie") (u "flat selfie")
              [(u "grayscale", scene_named (u "flat selfie"))] e
              eq_refl eq_refl eq_refl eq_refl He I)
    as (error & x' & Hx & Hc).
  rewrite Hz in Hc. exists error, x'. split; [exact Hx|]. apply Hc.
Defined.

(** The holder's passport and a selfie of the holder: the faces match,
    the request is counted as a successful verification, and both
    endpoints answer with a server error. *)
Lemma compared_request_is_not_answered_witness :
  exists face md r,
    extract_face_from_document _default_config passport_page "passport"
    = (Some face, md)
    /\ FaceProcessor.verify_faces _default_config face flat_selfie md = Ok r
    /\ verified r = true
    /\ counted_and_failed r fresh_world
         (verify_passport (H := plain_ucd) _default_config
            {| passport_image := Some (u "passport");
               selfie_image := Some (u "flat selfie") |} fresh_world)
    /\ counted_and_failed r fresh_world
         (verify_complete (H := plain_ucd) _default_config
            {| passport := Some {| filename := u "passport.jpg";
                                   content := u "passport" |};
               selfie := Some {| filename := u "selfie.jpg";
                                 content := u "flat selfie" |} |} fresh_world).
Proof.
  destruct (extract_face_from_document _default_config passport_page "passport")
    as [[face|] md] eqn:Hf; [|vm_compute in Hf; discriminate Hf].
  destruct (FaceProcessor.verify_faces _default_config face flat_selfie md)
    as [r|] eqn:Hv.
  2: { revert Hf Hv. vm_compute. intros [= <- <-]. discriminate. }
  assert (Hr : verified r = true /\ verification_method r <> "failed"%string).
  { revert Hf Hv. vm_compute. intros [= <- <-] [= <-]. split; [reflexivity|].
    discriminate. }
  destruct Hr as [Hver Hm].
  destruct (check_liveness flat_selfie) as [score|] eqn:Hl;
    [|vm_compute in Hl; discriminate Hl].
  exists face, md, r. do 3 (split; [first [reflexivity|assumption]|]).
  apply (@compared_request_is_not_answered scene pystr plain_ucd scene_engines
           scene_app _default_config
           {| passport_image := Some (u "passport");
              selfie_image := Some (u "flat selfie") |}
           {| passport := Some {| filename := u "passport.jpg";
                                  content := u "passport" |};
              selfie := Some {| filename := u "selfie.jpg";
                                content := u "flat selfie" |} |}
           fresh_world (u "passport") (u "flat selfie") (u "passport")
           (u "passport") flat_selfie
           [(u "grayscale", passport_page)] [(u "grayscale", passport_page)]
           {| filename := u "passport.jpg"; content := u "passport" |}
           {| filename := u "selfie.jpg"; content := u "flat selfie" |}
           face face md md r r score score);
    first [reflexivity|assumption|discriminate].
Defined.

Section PlaceFacts.
Import PyStr Regex Extractor Spec ResolverSpec.
Context `{UnicodeData}.

Lemma find_first {A : Type} (f : A -> bool) (l : list A) (x : A) :
  find f l = Some x ->
  exists before after,
    l = before ++ x :: after /\ f x = true
    /\ forall y, In y before -> f y = false.
Proof.
  induction l as [|a l IH]; simpl; [discriminate|].
  destruct (f a) eqn:Ha.
  - intros [= <-]. exists [], l. split; [reflexivity|]. split; [exact Ha|].
    contradiction.
  - intros Hf. destruct (IH Hf) as (before & after & -> & Hx & Hb).
    exists (a :: before), after. split; [reflexivity|]. split; [exact Hx|].
    intros y [<-|Hy]; auto.
Qed.

(** X28: the place of birth is the first entry of the gazetteer, in the
    order of the list and not of the text, that occurs in the uppercased
    text; it is stored with confidence 0.85.  If no entry occurs the
    record stays as it is. *)
Theorem place_of_birth_is_first_listed (d : data) (text : pystr) :
  (exists before place after,
     PassportPatterns.sudan_places = before ++ place :: after
     /\ occurs_in place (str_upper text)
     /\ (forall p, In p before -> ~ occurs_in p (str_upper text))
     /\ _extract_place_of_birth d text
        = set_confidence "place_of_birth" 0.85
            (set_field "place_of_birth" (Some place) d))
  \/ ((forall p, In p PassportPatterns.sudan_places ->
         ~ occurs_in p (str_upper text))
      /\ _extract_place_of_birth d text = d).
Proof.
  unfold _extract_place_of_birth.
  destruct (find _ PassportPatterns.sudan_places) as [place|] eqn:Hf.
  - left. apply find_first in Hf as (before & after & Hl & Hp & Hb).
    exists before, place, after. split; [exact Hl|].
    split; [by apply str_contains_spec|]. split; [|reflexivity].
    intros p Hin Ho. apply str_contains_spec in Ho.
    rewrite (Hb p Hin) in Ho. discriminate.
  - right. split; [|reflexivity]. intros p Hin Ho.
    apply str_contains_spec in Ho.
    rewrite (find_none _ _ Hf p Hin) in Ho. discriminate.
Qed.

End PlaceFacts.

Section CosineFacts.
Import PyStr FaceProcessor FaceSpec FaceFacts.
Context {Image : Type} `{Engines Image}.
Variable config : Config.
Local Open Scope Q_scope.

(** X29: a result of the primary engine needs both embeddings: the selfie
    shows a face, the embedding [e1] of the document face (that of the
    metadata if they carry one, and else the one that [extract_embedding]
    reads from the face image) and the embedding [e2] of the first face of
    the selfie are there and have the same length, and the confidence is
    their cosine similarity, the dot product over the product of the
    norms. *)
Theorem primary_confidence_is_cosine (id_face selfie_face : Image)
  (id_metadata : option Metadata) (r : FaceVerificationResult) :
  verify_faces config id_face selfie_face id_metadata = Ok r ->
  verification_method r = "insightface"%string ->
  exists e1 e2 f fs,
    face_app_get selfie_face = Ok (f :: fs)
    /\ embedding f = Some e2
    /\ match id_metadata ≫= md_embedding with
       | Some e => e1 = e
       | None => extract_embedding id_face = Some e1
       end
    /\ length e1 = length e2
    /\ confidence r
       = Qsum (map (fun xy => fst xy * snd xy) (zip e1 e2))
         / (np_norm e1 * np_norm e2)
    /\ face_embeddings r
       = [("id_face"%string, Some e1); ("selfie_face"%string, Some e2)].
Proof.
  unfold verify_faces, try_except.
  destruct (verify_primary config id_face selfie_face id_metadata)
    as [r1|e] eqn:Hp.
  - intros [= <-] _. revert Hp. unfold verify_primary.
    destruct (face_app_get selfie_face) as [faces|?]; [|discriminate].
    cbn [mbind result_bind].
    destruct (match id_metadata with Some _ => _ | None => _ end) as [e1|]
      eqn:Hid; [|discriminate].
    destruct faces as [|f fs]; [discriminate|].
    unfold _cosine_similarity, np_dot.
    destruct (embedding f) as [e2|] eqn:He; [|discriminate].
    destruct (length e1 =? length e2)%nat eqn:Hl; [|discriminate].
    cbn [mbind result_bind mret result_ret]. intros [= <-].
    exists e1, e2, f, fs. apply Nat.eqb_eq in Hl.
    split; [reflexivity|]. split; [exact He|]. split; [|auto].
    destruct id_metadata as [md|]; cbn [mbind option_bind]; [|exact Hid].
    destruct (md_embedding md); [congruence|exact Hid].
  - destruct (_verify_with_face_recognition config id_face selfie_face)
      as [r2|e2] eqn:Hb.
    + intros [= <-] Hm. apply fallback_method in Hb. congruence.
    + intros [= <-]. discriminate.
Qed.

End CosineFacts.

Import PyStr FaceProcessor FaceSpec Scenario.
Local Open Scope Q_scope.

(** The passport page against the selfie of its holder: cosine 1. *)
Lemma primary_confidence_is_cosine_witness :
  exists r,
    verify_faces _default_config passport_page flat_selfie None = Ok r
    /\ verification_method r = "insightface"%string
    /\ exists e1 e2,
         extract_embedding passport_page = Some e1
         /\ length e1 = length e2
         /\ face_embeddings r
            = [("id_face"%string, Some e1); ("selfie_face"%string, Some e2)]
         /\ confidence r
            = Qsum (map (fun xy => fst xy * snd xy) (zip e1 e2))
              / (np_norm e1 * np_norm e2).
Proof.
  destruct (verify_faces _default_config passport_page flat_selfie None)
    as [r|] eqn:Hr; [|discriminate Hr].
  assert (Hm : verification_method r = "insightface"%string).
  { revert Hr. vm_compute. by intros [= <-]. }
  exists r. split; [reflexivity|]. split; [exact Hm|].
  destruct (@primary_confidence_is_cosine scene scene_engines _default_config
              passport_page flat_selfie None r Hr Hm)
    as (e1 & e2 & f & fs & _ & _ & Hid & Hl & Hc & He).
  exists e1, e2. auto.
Defined.
